(** * excel-grouper: a shallow embedding of [group_excel.py]

    The development follows the three components of the program:
    - [extract_prefix], the prefix extractor;
    - [safe_copy_or_move], the collision-safe placer;
    - the loop of [main], the organizer pipeline.
    It also covers the configuration file, with [load_config] and
    [write_default_config_if_missing], which [main] calls first, and
    [log_line] as it writes to the log file.

    Python values are modelled as follows.  A [str] is the list of its
    Unicode code points.  An exception is a value of [exn] and a computation
    that may raise returns a [res].  The file system is a finite map from
    resolved paths to nodes.  The log sink is the list of the messages handed
    to [log_line], oldest first: the time stamp that [log_line] puts in front
    of a message and the file that holds the log are not part of the model,
    and the sink accepts every record.  Console output and the final
    [input()] of [main] are not modelled either. *)

From Stdlib Require Import String Ascii NArith ZArith Lia.
From Stdlib Require Import PrimFloat.
From Stdlib Require Import DecimalString DecimalN.
From stdpp Require Import gmap list.

(** * Python strings *)

Abbreviation pystr := (list N).

(** A string literal of the source, as its code points. *)
Definition lit (s : string) : pystr := N_of_ascii <$> list_ascii_of_string s.
Arguments lit s%_string.

(** ** Exceptions and results *)

(** [type(e).__name__] and [str(e)] of an exception [e]. *)
Record exn := mk_exn { exn_name : pystr; exn_str : pystr }.

Inductive res (A : Type) : Type :=
| Ret (a : A)
| Raise (e : exn).
Arguments Ret {A} a.
Arguments Raise {A} e.

Definition res_bind {A B} (m : res A) (k : A → res B) : res B :=
  match m with
  | Ret a => k a
  | Raise e => Raise e
  end.

(** [try: m  except Exception: h]. *)
Definition try_except {A} (m : res A) (h : exn → res A) : res A :=
  match m with
  | Ret a => Ret a
  | Raise e => h e
  end.

Notation "'let?' x ':=' m 'in' k" := (res_bind m (λ x, k))
  (at level 10, x name, m at level 100, k at level 200).

(** ** [str.strip], [in], [str.split], [str.lower] *)

(** [str.isspace] on one code point: the white space of CPython's Unicode
    database. *)
Definition isspace (c : N) : bool :=
  (((0x09 <=? c) && (c <=? 0x0D)) || ((0x1C <=? c) && (c <=? 0x20))
   || (c =? 0x85) || (c =? 0xA0) || (c =? 0x1680)
   || ((0x2000 <=? c) && (c <=? 0x200A))
   || (c =? 0x2028) || (c =? 0x2029) || (c =? 0x202F) || (c =? 0x205F)
   || (c =? 0x3000))%N.

Fixpoint lstrip (s : pystr) : pystr :=
  match s with
  | [] => []
  | c :: s' => if isspace c then lstrip s' else s
  end.

Definition rstrip (s : pystr) : pystr := reverse (lstrip (reverse s)).

Definition strip (s : pystr) : pystr := rstrip (lstrip s).

(** [s if s else None]: the empty string is falsy. *)
Definition or_none (s : pystr) : option pystr :=
  match s with
  | [] => None
  | _ => Some s
  end.

(** [s.startswith(sub)]. *)
Fixpoint startswith (s sub : pystr) {struct sub} : bool :=
  match sub, s with
  | [], _ => true
  | _ :: _, [] => false
  | a :: sub', b :: s' => bool_decide (a = b) && startswith s' sub'
  end.

(** [s.find(sub)]: the lowest index at which [sub] occurs, if any. *)
Fixpoint find (s sub : pystr) : option nat :=
  if startswith s sub then Some 0
  else match s with
       | [] => None
       | _ :: s' => S <$> find s' sub
       end.

(** [sub in s]. *)
Definition contains (s sub : pystr) : bool :=
  match find s sub with
  | Some _ => true
  | None => false
  end.

(** [s.split(sep, 1)]: at most one split, at the first occurrence of [sep];
    an empty separator raises [ValueError]. *)
Definition split1 (s sep : pystr) : res (list pystr) :=
  match sep with
  | [] => Raise (mk_exn (lit "ValueError") (lit "empty separator"))
  | _ =>
      match find s sep with
      | Some i => Ret [take i s; drop (i + length sep) s]
      | None => Ret [s]
      end
  end.

(** [l[0]]. *)
Definition item0 {A} (l : list A) : res A :=
  match l with
  | x :: _ => Ret x
  | [] => Raise (mk_exn (lit "IndexError") (lit "list index out of range"))
  end.

(** [str.lower] on one code point.  Only the ASCII capitals are mapped: no
    other code point lower-cases into a character of [EXCEL_EXTS], which is
    all the program compares a lower-cased string with. *)
Definition lower_char (c : N) : N :=
  if ((0x41 <=? c) && (c <=? 0x5A))%N then (c + 0x20)%N else c.

Definition lower (s : pystr) : pystr := lower_char <$> s.

(** [str(n)] for a non-negative integer. *)
Definition str_of_N (n : N) : pystr :=
  lit (NilEmpty.string_of_uint (N.to_uint n)).

(** * Paths *)

(** ** Names: [PurePath.stem] and [PurePath.suffix]

    Both are functions of the final component [name] of a path.  The program
    only builds paths from names that the directory listing returns, so a
    name is a single component (it holds no separator). *)

Definition dot : N := 0x2E%N.

(** [s.rfind(c)] for a one-character [c]: the highest index, or [-1]. *)
Fixpoint rfind (s : pystr) (c : N) : Z :=
  match s with
  | [] => (-1)%Z
  | a :: s' =>
      let i := rfind s' c in
      if (0 <=? i)%Z then (i + 1)%Z
      else if bool_decide (a = c) then 0%Z else (-1)%Z
  end.

(** The test [0 < i < len(name) - 1] of pathlib. *)
Definition splits_at (name : pystr) (i : Z) : bool :=
  ((0 <? i) && (i <? Z.of_nat (length name) - 1))%Z.

Definition name_suffix (name : pystr) : pystr :=
  let i := rfind name dot in
  if splits_at name i then drop (Z.to_nat i) name else [].

Definition name_stem (name : pystr) : pystr :=
  let i := rfind name dot in
  if splits_at name i then take (Z.to_nat i) name else name.

(** ** [Path(s)] for a string

    [Path(s)] parses the string [s]: the components of the path are the
    pieces between separators, without the empty ones and without the ones
    that are ["."], and the name of the path is the last component, or the
    empty string when there is none.  A root in front of the string takes no
    part in the name. *)

Definition sep : N := 0x2F%N.

(** [s.split("/")], as its first piece and the pieces after it. *)
Fixpoint split_sep (s : pystr) : pystr * list pystr :=
  match s with
  | [] => ([], [])
  | a :: s' =>
      let (x, l) := split_sep s' in
      if bool_decide (a = sep) then ([], x :: l) else (a :: x, l)
  end.

Definition components (s : pystr) : list pystr :=
  let (x, l) := split_sep s in
  filter (λ c, c ≠ [] ∧ c ≠ [dot]) (x :: l).

(** [Path(s).name] and [Path(s).stem]. *)
Definition filename_name (s : pystr) : pystr :=
  default [] (last (components s)).

Definition filename_stem (s : pystr) : pystr := name_stem (filename_name s).

(** * Configuration *)

(** The configuration after [load_config] has normalised it: every key is
    present and has the type of its default. *)
Record config := mk_config {
  delimiter : pystr;
  use_regex : bool;
  regex_pattern : pystr;
  mode : pystr;
  skip_if_no_prefix : bool
}.

Definition DEFAULT_CONFIG : config :=
  {| delimiter := lit "_";
     use_regex := false;
     regex_pattern := lit "^(.+?)[ _-]";
     mode := lit "move";
     skip_if_no_prefix := false |}.

(** * The prefix extractor *)

(** What [m.group(1)] finds in a match object [m]: the pattern has no group
    1, group 1 took no part in the match, or it captured a string. *)
Inductive group1 :=
| NoSuchGroup
| Unset
| Captured (s : pystr).

(** [m.group(1)]. *)
Definition group_1 (m : group1) : res (option pystr) :=
  match m with
  | NoSuchGroup => Raise (mk_exn (lit "IndexError") (lit "no such group"))
  | Unset => Ret None
  | Captured s => Ret (Some s)
  end.

(** [v.strip()] for a value [v] that is [None] or a string. *)
Definition strip_method (v : option pystr) : res pystr :=
  match v with
  | Some s => Ret (strip s)
  | None =>
      Raise (mk_exn (lit "AttributeError")
                    (lit "'NoneType' object has no attribute 'strip'"))
  end.

(** The regular-expression engine is a collaborator: [re_search pat s] is
    the outcome of [re.search(pat, s)], which raises (for instance
    [re.error] on a malformed pattern), returns [None], or returns a match
    object. *)
Definition regex_engine := pystr → pystr → res (option group1).

Section Extract.
Variable re_search : regex_engine.

Definition extract_prefix (filename : pystr) (cfg : config)
  : res (option pystr) :=
  let base := filename_stem filename in
  if use_regex cfg then
    try_except
      (let? m := re_search (regex_pattern cfg) base in
       match m with
       | Some m =>
           let? g := group_1 m in
           let? t := strip_method g in
           match or_none t with
           | Some _ =>
               let? g' := group_1 m in
               let? t' := strip_method g' in
               Ret (Some t')
           | None => Ret None
           end
       | None => Ret None
       end)
      (λ _, Ret None)
  else
    let delim := delimiter cfg in
    if negb (bool_decide (delim = [])) && contains base delim then
      let? parts := split1 base delim in
      let? part := item0 parts in
      let prefix := strip part in
      Ret (or_none prefix)
    else
      Ret (or_none (strip base)).

End Extract.

(** * The file system *)

(** A path is the list of its components below the root.  [joinpath] is
    pathlib's [/] with a single name on the right: an empty segment and
    ["."] are dropped, [".."] is kept.  [resolve] is what the operating
    system makes of a path when it walks it (no symbolic links): [".."]
    steps back to the parent. *)
Abbreviation path := (list pystr).

Definition joinpath (p : path) (seg : pystr) : path :=
  if bool_decide (seg = []) || bool_decide (seg = lit ".") then p
  else p ++ [seg].

(** [p.name], [p.stem], [p.suffix]. *)
Definition path_name (p : path) : pystr := default [] (last p).
Definition path_stem (p : path) : pystr := name_stem (path_name p).
Definition path_suffix (p : path) : pystr := name_suffix (path_name p).

Definition step (cur : path) (seg : pystr) : path :=
  if bool_decide (seg = lit "..") then removelast cur
  else if bool_decide (seg = lit ".") then cur
  else cur ++ [seg].

Definition resolve (p : path) : path := foldl step [] p.

(** A node is a regular file with its data (content and metadata), or a
    directory. *)
Inductive node :=
| File (data : list N)
| Dir.

Abbreviation fsmap := (gmap path node).

(** The root is a directory; every other node is an entry of the map. *)
Definition node_at (fs : fsmap) (q : path) : option node :=
  match q with
  | [] => Some Dir
  | _ => fs !! q
  end.

(** [p.exists()], [p.is_file()], [p.is_dir()]. *)
Definition path_exists (fs : fsmap) (p : path) : bool :=
  match node_at fs (resolve p) with
  | Some _ => true
  | None => false
  end.

Definition is_file (fs : fsmap) (p : path) : bool :=
  match node_at fs (resolve p) with
  | Some (File _) => true
  | _ => false
  end.

Definition is_dir (fs : fsmap) (p : path) : bool :=
  match node_at fs (resolve p) with
  | Some Dir => true
  | _ => false
  end.



(** * Computations with state *)

(** A computation over a state [S] raises or returns, and leaves a state
    in both cases.  [None] stands for a loop of the model that did not end
    within its bound. *)
Definition M (S A : Type) : Type := S → option (res A * S).

Definition ret {S A} (a : A) : M S A := λ s, Some (Ret a, s).

Definition raise {S A} (e : exn) : M S A := λ s, Some (Raise e, s).

Definition bind {S A B} (m : M S A) (k : A → M S B) : M S B :=
  λ s, match m s with
       | Some (Ret a, s') => k a s'
       | Some (Raise e, s') => Some (Raise e, s')
       | None => None
       end.

(** [try: m  except Exception as e: h e]. *)
Definition try_catch {S A} (m : M S A) (h : exn → M S A) : M S A :=
  λ s, match m s with
       | Some (Ret a, s') => Some (Ret a, s')
       | Some (Raise e, s') => h e s'
       | None => None
       end.

Definition lift_res {S A} (r : res A) : M S A := λ s, Some (r, s).

Definition gets {S A} (f : S → A) : M S A := λ s, Some (Ret (f s), s).

Definition modify {S} (f : S → S) : M S unit := λ s, Some (Ret tt, f s).

Notation "'let*' x ':=' m 'in' k" := (bind m (λ x, k))
  (at level 10, x name, m at level 100, k at level 200).
Notation "m ';;' k" := (bind m (λ _, k))
  (at level 100, k at level 200, right associativity).

(** ** Operations on the file system *)

Definition os_error (name msg : string) : exn := mk_exn (lit name) (lit msg).
Arguments os_error (name msg)%_string.

(** [p.mkdir(exist_ok=True)]: creates the directory, and only it; a
    directory that is already there is not an error, a regular file is. *)
Definition mkdir_exist_ok (p : path) : M fsmap unit := λ fs,
  let q := resolve p in
  match node_at fs q with
  | Some Dir => Some (Ret tt, fs)
  | Some (File _) =>
      Some (Raise (os_error "FileExistsError" "[Errno 17] File exists"), fs)
  | None =>
      match node_at fs (removelast q) with
      | Some Dir => Some (Ret tt, <[q := Dir]> fs)
      | Some (File _) =>
          Some (Raise (os_error "NotADirectoryError"
                                "[Errno 20] Not a directory"), fs)
      | None =>
          Some (Raise (os_error "FileNotFoundError"
                                "[Errno 2] No such file or directory"), fs)
      end
  end.

(** Opens the resolved path [q] for writing and stores [d] there. *)
Definition write_file (q : path) (d : list N) : M fsmap unit := λ fs,
  match node_at fs q with
  | Some Dir =>
      Some (Raise (os_error "IsADirectoryError" "[Errno 21] Is a directory"),
            fs)
  | Some (File _) => Some (Ret tt, <[q := File d]> fs)
  | None =>
      match node_at fs (removelast q) with
      | Some Dir => Some (Ret tt, <[q := File d]> fs)
      | Some (File _) =>
          Some (Raise (os_error "NotADirectoryError"
                                "[Errno 20] Not a directory"), fs)
      | None =>
          Some (Raise (os_error "FileNotFoundError"
                                "[Errno 2] No such file or directory"), fs)
      end
  end.

(** Where [shutil] puts a file sent to [dst]: inside [dst] when that is a
    directory. *)
Definition real_dst (fs : fsmap) (src dst : path) : path :=
  if is_dir fs dst then resolve dst ++ [path_name src] else resolve dst.

(** [shutil.copy2(src, dst)]. *)
Definition copy2 (src dst : path) : M fsmap unit := λ fs,
  let target := real_dst fs src dst in
  match node_at fs (resolve src) with
  | Some (File d) =>
      if bool_decide (target = resolve src) then
        Some (Raise (os_error "SameFileError" "are the same file"), fs)
      else write_file target d fs
  | Some Dir =>
      Some (Raise (os_error "IsADirectoryError" "[Errno 21] Is a directory"),
            fs)
  | None =>
      Some (Raise (os_error "FileNotFoundError"
                            "[Errno 2] No such file or directory"), fs)
  end.

(** [os.rename] of the directory at [s] to the free path [t]: every entry
    below [s] moves along. *)
Definition rename_tree (s t : path) (fs : fsmap) : fsmap :=
  list_to_map
    ((λ kv : path * node,
        (if bool_decide (s `prefix_of` kv.1)
         then t ++ drop (length s) kv.1 else kv.1, kv.2))
       <$> map_to_list fs).

(** [shutil.move(src, dst)]. *)
Definition move (src dst : path) : M fsmap unit := λ fs,
  let s := resolve src in
  let target := real_dst fs src dst in
  if is_dir fs dst && bool_decide (resolve dst = s) then Some (Ret tt, fs)
  else if is_dir fs dst && bool_decide (is_Some (node_at fs target)) then
    Some (Raise (os_error "Error" "Destination path already exists"), fs)
  else
    match node_at fs s with
    | Some (File d) =>
        if bool_decide (target = s) then Some (Ret tt, fs)
        else
          match write_file target d fs with
          | Some (Ret _, fs') => Some (Ret tt, delete s fs')
          | other => other
          end
    | Some Dir =>
        if bool_decide (s `prefix_of` target) then
          Some (Raise (os_error "Error"
                                "Cannot move a directory into itself"), fs)
        else
          match node_at fs target, node_at fs (removelast target) with
          | None, Some Dir => Some (Ret tt, rename_tree s target fs)
          | Some _, _ =>
              Some (Raise (os_error "FileExistsError"
                                    "[Errno 17] File exists"), fs)
          | None, _ =>
              Some (Raise (os_error "FileNotFoundError"
                                    "[Errno 2] No such file or directory"),
                    fs)
          end
    | None =>
        Some (Raise (os_error "FileNotFoundError"
                              "[Errno 2] No such file or directory"), fs)
    end.

(** * The collision-safe placer *)

(** The name tried at round [i] of the loop: [f"{src.stem}({i}){src.suffix}"]. *)
Definition numbered (src : path) (i : N) : pystr :=
  path_stem src ++ lit "(" ++ str_of_N i ++ lit ")" ++ path_suffix src.

(** [while dst.exists(): dst = dst_dir / numbered; i += 1], entered with the
    values of [i] and [dst].  The loop only reads the file system.  The model
    gives it [fuel] rounds and answers [None] when they are used up. *)
Fixpoint while_exists (fs : fsmap) (src dst_dir : path)
    (fuel : nat) (i : N) (dst : path) : option path :=
  if path_exists fs dst then
    match fuel with
    | O => None
    | S fuel' =>
        while_exists fs src dst_dir fuel' (i + 1)
          (joinpath dst_dir (numbered src i))
    end
  else Some dst.

(** The loop with as many rounds as the file system has nodes, the root
    included: it cannot use them up ([while_exists_ends]). *)
Definition first_free (src dst_dir : path) : M fsmap path := λ fs,
  match while_exists fs src dst_dir (S (size fs)) 1
          (joinpath dst_dir (path_name src)) with
  | Some dst => Some (Ret dst, fs)
  | None => None
  end.

Definition safe_copy_or_move (src dst_dir : path) (mode : pystr)
  : M fsmap path :=
  mkdir_exist_ok dst_dir ;;
  let* dst := first_free src dst_dir in
  (if bool_decide (mode = lit "copy") then copy2 src dst
   else move src dst) ;;
  ret dst.

(** * The organizer pipeline *)

Definition EXCEL_EXTS : list pystr := [lit ".xlsx"; lit ".xlsm"; lit ".xls"].
Definition CONFIG_FILENAME : pystr := lit "config.json".
Definition LOG_FILENAME : pystr := lit "excel_grouper.log".
Definition UNGROUPED : pystr := lit "UNGROUPED".

(** The state of a pass: the file system, the log, and the three counters
    of [main]. *)
Record state := mk_state {
  st_fs : fsmap;
  st_log : list pystr;
  processed : N;
  skipped : N;
  errors : N
}.

Definition set_fs (fs : fsmap) (s : state) : state :=
  mk_state fs (st_log s) (processed s) (skipped s) (errors s).

(** Runs a file-system computation on the file system of the state. *)
Definition on_fs {A} (m : M fsmap A) : M state A := λ s,
  match m (st_fs s) with
  | Some (r, fs') => Some (r, set_fs fs' s)
  | None => None
  end.

(** [log_line(app_dir, msg)]. *)
Definition log_line (msg : pystr) : M state unit :=
  modify (λ s, mk_state (st_fs s) (st_log s ++ [msg])
                        (processed s) (skipped s) (errors s)).

(** [processed += 1], [skipped += 1], [errors += 1]. *)
Definition incr_processed : M state unit :=
  modify (λ s, mk_state (st_fs s) (st_log s)
                        (processed s + 1) (skipped s) (errors s)).
Definition incr_skipped : M state unit :=
  modify (λ s, mk_state (st_fs s) (st_log s)
                        (processed s) (skipped s + 1) (errors s)).
Definition incr_errors : M state unit :=
  modify (λ s, mk_state (st_fs s) (st_log s)
                        (processed s) (skipped s) (errors s + 1)).

(** [str(b)] for a Boolean. *)
Definition str_of_bool (b : bool) : pystr :=
  if b then lit "True" else lit "False".

(** The messages of the log, as the f-strings of [main] build them. *)
Definition msg_start (cfg : config) : pystr :=
  lit "START | mode=" ++ mode cfg ++ lit " use_regex="
  ++ str_of_bool (use_regex cfg) ++ lit " delimiter='" ++ delimiter cfg
  ++ lit "'".
Definition msg_skip (name : pystr) : pystr :=
  lit "SKIP(no prefix) | " ++ name.
Definition msg_done (name folder : pystr) : pystr :=
  lit "DONE | " ++ name ++ lit " -> " ++ folder ++ lit "/".
Definition msg_error (name : pystr) (e : exn) : pystr :=
  lit "ERROR | " ++ name ++ lit " | " ++ exn_name e ++ lit ": " ++ exn_str e.
Definition msg_end (p s e : N) : pystr :=
  lit "END | processed=" ++ str_of_N p ++ lit " skipped=" ++ str_of_N s
  ++ lit " errors=" ++ str_of_N e.

(** [not prefix]: [None] and the empty string are falsy. *)
Definition falsy (v : option pystr) : bool :=
  match v with
  | Some (_ :: _) => false
  | _ => true
  end.

(** [a or b] on strings. *)
Definition str_or (a b : pystr) : pystr :=
  match a with
  | [] => b
  | _ => a
  end.

(** An entry that passes the three guards of the loop body, the ones that
    end in [continue]. *)
Definition eligible (fs : fsmap) (file : path) : bool :=
  is_file fs file
  && bool_decide (lower (path_suffix file) ∈ EXCEL_EXTS)
  && negb (bool_decide (path_name file ∈ [CONFIG_FILENAME; LOG_FILENAME])).

Section Pipeline.
Variable re_search : regex_engine.

(** The end of the body, from [dst_dir = app_dir / prefix] on. *)
Definition place (cfg : config) (app_dir file : path) (prefix : pystr)
  : M state unit :=
  let dst_dir := joinpath app_dir prefix in
  on_fs (safe_copy_or_move file dst_dir (mode cfg)) ;;
  incr_processed ;;
  log_line (msg_done (path_name file) (path_name dst_dir)).

(** The body of the [try], for the entry [file]. *)
Definition attempt (cfg : config) (app_dir file : path) : M state unit :=
  let* isf := gets (λ s, is_file (st_fs s) file) in
  if negb isf then ret tt
  else if negb (bool_decide (lower (path_suffix file) ∈ EXCEL_EXTS))
  then ret tt
  else if bool_decide (path_name file ∈ [CONFIG_FILENAME; LOG_FILENAME])
  then ret tt
  else
    let* prefix := lift_res (extract_prefix re_search (path_name file) cfg) in
    if falsy prefix then
      if skip_if_no_prefix cfg then
        incr_skipped ;;
        log_line (msg_skip (path_name file))
      else
        place cfg app_dir file (str_or (strip (path_stem file)) UNGROUPED)
    else
      place cfg app_dir file (default [] prefix).

(** One round of the [for] loop: the [try] and its [except Exception]. *)
Definition iteration (cfg : config) (app_dir : path) (name : pystr)
  : M state unit :=
  let file := app_dir ++ [name] in
  try_catch (attempt cfg app_dir file)
    (λ e, incr_errors ;; log_line (msg_error (path_name file) e)).

(** The [for] loop over the names that the listing yielded. *)
Fixpoint for_each (cfg : config) (app_dir : path) (names : list pystr)
  : M state unit :=
  match names with
  | [] => ret tt
  | name :: rest => iteration cfg app_dir name ;; for_each cfg app_dir rest
  end.

(** [main], from the [START] record to the exit status.  [names] is the
    listing of [app_dir] in the order the operating system gave it, taken
    when the loop starts.  The configuration is the one [load_config]
    returned. *)
Definition main (cfg : config) (app_dir : path) (names : list pystr)
  : M state N :=
  log_line (msg_start cfg) ;;
  modify (λ s, mk_state (st_fs s) (st_log s) 0 0 0) ;;
  for_each cfg app_dir names ;;
  let* s := gets id in
  log_line (msg_end (processed s) (skipped s) (errors s)) ;;
  ret (if bool_decide (errors s = 0%N) then 0%N else 1%N).

End Pipeline.

(** * Vocabulary of the statements *)

(** The names that the placer tries, in order: the name of the source, then
    the numbered names from 1 on. *)
Definition candidate (src : path) (k : N) : pystr :=
  if bool_decide (k = 0%N) then path_name src else numbered src k.

(** A name that a directory listing can hold: not empty, not ["."] and not
    [".."]. *)
Definition regular_name (n : pystr) : Prop :=
  n ≠ [] ∧ n ≠ lit "." ∧ n ≠ lit "..".

(** The file system after a placement of [data] at the resolved path [q],
    from the source at the resolved path [s]. *)
Definition placed (md : pystr) (s q : path) (data : list N) (fs : fsmap)
  : fsmap :=
  if bool_decide (md = lit "copy") then <[q := File data]> fs
  else delete s (<[q := File data]> fs).

(** ** The outcomes of the pipeline for one entry

    The state machine of the pipeline, entry by entry: an entry is ignored,
    skipped, processed or errored.  [visit cfg app_dir name s s'] relates
    the state before the entry [name] to the state after it. *)

(** The group under which a file goes, given what the extractor returned:
    the key; without a key, nothing when such files are skipped, and
    otherwise the trimmed stem of the file or, when that is empty, the
    sentinel. *)
Definition group_of (cfg : config) (name : pystr) (key : option pystr)
  : option pystr :=
  if falsy key then
    if skip_if_no_prefix cfg then None
    else Some (str_or (strip (name_stem name)) UNGROUPED)
  else key.

(** The sum of the three counters. *)
Definition tally (s : state) : N := (processed s + skipped s + errors s)%N.

Section Outcomes.
Variable re_search : regex_engine.

Inductive visit (cfg : config) (app_dir : path) (name : pystr) (s : state)
  : state → Prop :=
| visit_ignored :
    eligible (st_fs s) (app_dir ++ [name]) = false →
    visit cfg app_dir name s s
| visit_skipped key :
    eligible (st_fs s) (app_dir ++ [name]) = true →
    extract_prefix re_search name cfg = Ret key →
    group_of cfg name key = None →
    visit cfg app_dir name s
      (mk_state (st_fs s) (st_log s ++ [msg_skip name])
                (processed s) (skipped s + 1) (errors s))
| visit_processed key prefix dst fs' :
    eligible (st_fs s) (app_dir ++ [name]) = true →
    extract_prefix re_search name cfg = Ret key →
    group_of cfg name key = Some prefix →
    safe_copy_or_move (app_dir ++ [name]) (joinpath app_dir prefix)
      (mode cfg) (st_fs s) = Some (Ret dst, fs') →
    visit cfg app_dir name s
      (mk_state fs'
         (st_log s ++ [msg_done name (path_name (joinpath app_dir prefix))])
         (processed s + 1) (skipped s) (errors s))
| visit_errored key prefix e fs' :
    eligible (st_fs s) (app_dir ++ [name]) = true →
    extract_prefix re_search name cfg = Ret key →
    group_of cfg name key = Some prefix →
    safe_copy_or_move (app_dir ++ [name]) (joinpath app_dir prefix)
      (mode cfg) (st_fs s) = Some (Raise e, fs') →
    visit cfg app_dir name s
      (mk_state fs' (st_log s ++ [msg_error name e])
                (processed s) (skipped s) (errors s + 1)).

End Outcomes.


(** * More vocabulary *)




(** * The configuration file *)

(** ** The values of JSON

    What [json.loads] returns: [None], a Boolean, an integer, a float, a
    string, a list, or a dict with string keys.  The items of a dict are
    kept in the order of the dict. *)
#[warnings="-register-all"] Inductive pyval :=
| VNone
| VBool (b : bool)
| VInt (z : Z)
| VFloat (x : float)
| VStr (s : pystr)
| VList (l : list pyval)
| VDict (items : list (pystr * pyval)).

(** [str(z)] for an integer. *)
Definition str_of_Z (z : Z) : pystr :=
  if (z <? 0)%Z then lit "-" ++ str_of_N (Z.abs_N z) else str_of_N (Z.to_N z).

(** [bool(v)]: [None], [False], zero and the empty string, list and dict
    are falsy. *)
Definition py_bool (v : pyval) : bool :=
  match v with
  | VNone => false
  | VBool b => b
  | VInt z => negb (z =? 0)%Z
  | VFloat x => negb (x =? 0)%float
  | VStr s => negb (bool_decide (s = []))
  | VList l => negb (bool_decide (l = []))
  | VDict items => negb (bool_decide (items = []))
  end.

(** A dict with string keys, as [load_config] builds it. *)
Abbreviation dict := (gmap pystr pyval).

(** [d.get(k, dflt)]. *)
Definition dict_get (d : dict) (k : pystr) (dflt : pyval) : pyval :=
  default dflt (d !! k).

(** [d[k]]. *)
Definition dict_getitem (d : dict) (k : pystr) : res pyval :=
  match d !! k with
  | Some v => Ret v
  | None => Raise (mk_exn (lit "KeyError") (lit "'" ++ k ++ lit "'"))
  end.

(** [{k: v for k, v in items if k in cfg}], as the items it keeps. *)
Definition known_items (cfg : dict) (items : list (pystr * pyval))
  : list (pystr * pyval) :=
  filter (λ kv, is_Some (cfg !! kv.1)) items.

(** [cfg.update(items)]: a later item wins over an earlier one. *)
Definition dict_update (cfg : dict) (items : list (pystr * pyval)) : dict :=
  foldl (λ m kv, <[kv.1 := kv.2]> m) cfg items.

(** [v in (a, b)] for strings [a] and [b]: a value that is not a string
    equals neither. *)
Definition str_in (v : pyval) (l : list pystr) : bool :=
  match v with
  | VStr s => bool_decide (s ∈ l)
  | _ => false
  end.

(** The dict [DEFAULT_CONFIG] of the source; the record [DEFAULT_CONFIG]
    above is what [main] and [extract_prefix] read in it. *)
Definition DEFAULT_CONFIG_items : list (pystr * pyval) :=
  [ (lit "delimiter", VStr (lit "_"));
    (lit "use_regex", VBool false);
    (lit "regex_pattern", VStr (lit "^(.+?)[ _-]"));
    (lit "mode", VStr (lit "move"));
    (lit "skip_if_no_prefix", VBool false) ].

Definition DEFAULT_CONFIG_dict : dict := list_to_map DEFAULT_CONFIG_items.

(** The text [json.dumps(DEFAULT_CONFIG, ensure_ascii=False, indent=2)]:
    one item a line, two spaces in, in the order of the dict. *)
Definition quoted (s : string) : pystr := [34%N] ++ lit s ++ [34%N].
Arguments quoted s%_string.

Definition DEFAULT_CONFIG_text : pystr :=
  lit "{" ++ [10%N]
  ++ lit "  " ++ quoted "delimiter" ++ lit ": " ++ quoted "_"
  ++ lit "," ++ [10%N]
  ++ lit "  " ++ quoted "use_regex" ++ lit ": false"
  ++ lit "," ++ [10%N]
  ++ lit "  " ++ quoted "regex_pattern" ++ lit ": " ++ quoted "^(.+?)[ _-]"
  ++ lit "," ++ [10%N]
  ++ lit "  " ++ quoted "mode" ++ lit ": " ++ quoted "move"
  ++ lit "," ++ [10%N]
  ++ lit "  " ++ quoted "skip_if_no_prefix" ++ lit ": false" ++ [10%N]
  ++ lit "}".

(** What [main] and [extract_prefix] read in a configuration, when every
    key is there with the type of its default. *)
Definition config_of (cfg : dict) : option config :=
  match cfg !! lit "delimiter", cfg !! lit "use_regex",
        cfg !! lit "regex_pattern", cfg !! lit "mode",
        cfg !! lit "skip_if_no_prefix" with
  | Some (VStr d), Some (VBool u), Some (VStr p), Some (VStr m),
    Some (VBool k) => Some (mk_config d u p m k)
  | _, _, _, _, _ => None
  end.

(** The same, key by key. *)
Definition reads (cfg : dict) (c : config) : Prop :=
  cfg !! lit "delimiter" = Some (VStr (delimiter c))
  ∧ cfg !! lit "use_regex" = Some (VBool (use_regex c))
  ∧ cfg !! lit "regex_pattern" = Some (VStr (regex_pattern c))
  ∧ cfg !! lit "mode" = Some (VStr (mode c))
  ∧ cfg !! lit "skip_if_no_prefix" = Some (VBool (skip_if_no_prefix c)).

(** The bytes of a regular file, as opening it for reading gives them. *)
Definition read_bytes (p : path) (fs : fsmap) : res (list N) :=
  match node_at fs (resolve p) with
  | Some (File data) => Ret data
  | Some Dir =>
      Raise (os_error "IsADirectoryError" "[Errno 21] Is a directory")
  | None =>
      Raise (os_error "FileNotFoundError"
                      "[Errno 2] No such file or directory")
  end.

(** The codecs and the JSON parser are collaborators.  [loads data] is what
    [json.loads] makes of the bytes [data] read as [utf-8-sig]: it raises
    ([UnicodeDecodeError], [JSONDecodeError], ...) or returns a value.
    [encode text] is [text.encode("utf-8")].  [str_other v] is [str(v)] for
    a float, a list or a dict. *)
Section ConfigFile.
Variable loads : list N → res pyval.
Variable encode : pystr → res (list N).
Variable str_other : pyval → pystr.

(** [str(v)]. *)
Definition py_str (v : pyval) : pystr :=
  match v with
  | VNone => lit "None"
  | VBool b => str_of_bool b
  | VInt z => str_of_Z z
  | VStr s => s
  | _ => str_other v
  end.

(** The body of the [try] of [load_config], with the dict that [cfg] is
    bound to afterwards. *)
Definition merge_user (cfg : dict) (cfg_path : path) (fs : fsmap)
  : res dict :=
  let? data := read_bytes cfg_path fs in
  let? user_cfg := loads data in
  match user_cfg with
  | VDict items => Ret (dict_update cfg (known_items cfg items))
  | _ => Ret cfg
  end.

(** [str.lower] is the one of the extension test: no code point outside
    ASCII lower-cases into letters of ["move"] or ["copy"] either. *)
Definition load_config (app_dir : path) (fs : fsmap) : res dict :=
  let cfg_path := joinpath app_dir CONFIG_FILENAME in
  let cfg := DEFAULT_CONFIG_dict in
  let? cfg :=
    if path_exists fs cfg_path then
      try_except (merge_user cfg cfg_path fs) (λ _, Ret cfg)
    else Ret cfg in
  let cfg :=
    <[lit "mode" :=
        VStr (lower (py_str (dict_get cfg (lit "mode") (VStr (lit "move")))))]>
      cfg in
  let? m := dict_getitem cfg (lit "mode") in
  let cfg :=
    if negb (str_in m [lit "move"; lit "copy"])
    then <[lit "mode" := VStr (lit "move")]> cfg else cfg in
  let cfg :=
    <[lit "delimiter" :=
        VStr (py_str (dict_get cfg (lit "delimiter") (VStr (lit "_"))))]>
      cfg in
  let cfg :=
    <[lit "use_regex" :=
        VBool (py_bool (dict_get cfg (lit "use_regex") (VBool false)))]>
      cfg in
  let? dflt := dict_getitem DEFAULT_CONFIG_dict (lit "regex_pattern") in
  let cfg :=
    <[lit "regex_pattern" :=
        VStr (py_str (dict_get cfg (lit "regex_pattern") dflt))]> cfg in
  let cfg :=
    <[lit "skip_if_no_prefix" :=
        VBool (py_bool (dict_get cfg (lit "skip_if_no_prefix")
                          (VBool false)))]> cfg in
  Ret cfg.

(** [p.write_text(text, encoding="utf-8")]: the file is opened for
    writing, which empties it, and then takes the bytes of the text. *)
Definition write_text (p : path) (text : pystr) : M fsmap unit :=
  write_file (resolve p) [] ;;
  let* data := lift_res (encode text) in
  write_file (resolve p) data.

Definition write_default_config_if_missing (app_dir : path)
  : M fsmap unit :=
  let cfg_path := joinpath app_dir CONFIG_FILENAME in
  let* there := gets (λ fs, path_exists fs cfg_path) in
  if negb there then write_text cfg_path DEFAULT_CONFIG_text
  else ret tt.

(** The first two steps of [main]: the template is written when there is
    no configuration file, and the configuration is loaded. *)
Definition startup (app_dir : path) : M fsmap dict :=
  write_default_config_if_missing app_dir ;;
  let* fs := gets id in
  lift_res (load_config app_dir fs).

End ConfigFile.

(** The value of a key in the items of a dict. *)
Definition item_get (items : list (pystr * pyval)) (k : pystr)
  : option pyval :=
  dict_update ∅ items !! k.

(** The configuration that a user dict stands for: each known key with the
    value of the user, or else of the defaults, as a string or by its
    truth; a mode that is neither ["move"] nor ["copy"] in some case is
    ["move"]. *)
Definition normalised (str_other : pyval → pystr)
    (items : list (pystr * pyval)) : config :=
  let value k dflt := default dflt (item_get items (lit k)) in
  let m := lower (py_str str_other (value "mode"%string (VStr (lit "move")))) in
  {| delimiter := py_str str_other (value "delimiter"%string (VStr (lit "_")));
     use_regex := py_bool (value "use_regex"%string (VBool false));
     regex_pattern :=
       py_str str_other
         (value "regex_pattern"%string (VStr (lit "^(.+?)[ _-]")));
     mode := if bool_decide (m ∈ [lit "move"; lit "copy"]) then m
             else lit "move";
     skip_if_no_prefix :=
       py_bool (value "skip_if_no_prefix"%string (VBool false)) |}.

(** The items of the dict that the configuration file holds; none when
    there is no such file, or no dict in it. *)
Definition user_items (loads : list N → res pyval) (app_dir : path)
    (fs : fsmap) : list (pystr * pyval) :=
  match node_at fs (resolve (joinpath app_dir CONFIG_FILENAME)) with
  | Some (File data) =>
      match loads data with
      | Ret (VDict items) => items
      | _ => []
      end
  | _ => []
  end.

(** * The log on disk

    The pipeline above keeps the records of the log as a list.  [Disk] has
    [log_line] as it writes: a record becomes a line of the log file, which
    is opened for appending.  The clock is a collaborator: [ts] is the time
    stamp that [datetime.now().strftime] returned for the record. *)
Module Disk.
Section Log.
Variable encode : pystr → res (list N).

(** The line of a record, [f"[{ts}] {msg}\n"]. *)
Definition line (ts msg : pystr) : pystr :=
  lit "[" ++ ts ++ lit "] " ++ msg ++ [10%N].

(** [log_line(app_dir, msg)] at the time [ts].  Opening creates a file that
    is not there; the line is encoded when it is written, so a line that the
    encoder rejects leaves the file as the opening made it. *)
Definition log_line (app_dir : path) (ts msg : pystr) : M fsmap unit := λ fs,
  let q := resolve (joinpath app_dir LOG_FILENAME) in
  match node_at fs q with
  | Some Dir =>
      Some (Raise (os_error "IsADirectoryError" "[Errno 21] Is a directory"),
            fs)
  | Some (File old) =>
      match encode (line ts msg) with
      | Ret data => Some (Ret tt, <[q := File (old ++ data)]> fs)
      | Raise e => Some (Raise e, fs)
      end
  | None =>
      match node_at fs (removelast q) with
      | Some Dir =>
          match encode (line ts msg) with
          | Ret data => Some (Ret tt, <[q := File data]> fs)
          | Raise e => Some (Raise e, <[q := File []]> fs)
          end
      | Some (File _) =>
          Some (Raise (os_error "NotADirectoryError"
                                "[Errno 20] Not a directory"), fs)
      | None =>
          Some (Raise (os_error "FileNotFoundError"
                                "[Errno 2] No such file or directory"), fs)
      end
  end.

(** Calls of [log_line] in a row, one for each record with its time
    stamp. *)
Fixpoint log_lines (app_dir : path) (records : list (pystr * pystr))
  : M fsmap unit :=
  match records with
  | [] => ret tt
  | r :: rest => log_line app_dir r.1 r.2 ;; log_lines app_dir rest
  end.

End Log.
End Disk.

(** The bytes of the log file, none when there is no such file. *)
Definition log_bytes (fs : fsmap) (app_dir : path) : list N :=
  match node_at fs (resolve (joinpath app_dir LOG_FILENAME)) with
  | Some (File data) => data
  | _ => []
  end.

(** * Sample data *)

(** An engine that knows one pattern, for the examples: it finds the
    default pattern in ["report_jan"], captures ["report"], and rejects
    every other request as a malformed pattern. *)
Definition sample_engine : regex_engine := λ pat s,
  if bool_decide (pat = regex_pattern DEFAULT_CONFIG ∧ s = lit "report_jan")
  then Ret (Some (Captured (lit "report")))
  else Raise (mk_exn (lit "error") (lit "nothing to repeat at position 0")).

(** Three directories with a file of one name in each. *)
Definition sample_sources : fsmap :=
  list_to_map
    [ ([lit "a"], Dir); ([lit "a"; lit "x.xlsx"], File [1%N]);
      ([lit "b"], Dir); ([lit "b"; lit "x.xlsx"], File [2%N]);
      ([lit "c"], Dir); ([lit "c"; lit "x.xlsx"], File [3%N]) ].

(** A directory to organize: spreadsheets, among them one whose stem starts
    with the delimiter and one whose stem is blank, the two reserved files,
    a text file, a sub-directory, and a regular file that is in the way of
    the group [blocked]. *)
Definition sample_dir : path := [lit "app"].

Definition sample_fs : fsmap :=
  list_to_map
    [ (sample_dir, Dir);
      (sample_dir ++ [lit "report_jan.xlsx"], File [1%N]);
      (sample_dir ++ [lit "report_feb.xlsx"], File [2%N]);
      (sample_dir ++ [lit "notes.xlsx"], File [3%N]);
      (sample_dir ++ [lit "_x.xlsx"], File [4%N]);
      (sample_dir ++ [lit " .XLSX"], File [5%N]);
      (sample_dir ++ [lit "blocked"], File [6%N]);
      (sample_dir ++ [lit "blocked_1.xls"], File [7%N]);
      (sample_dir ++ [lit "readme.txt"], File [8%N]);
      (sample_dir ++ [lit "old"], Dir);
      (sample_dir ++ [lit "config.json"], File [9%N]);
      (sample_dir ++ [lit "excel_grouper.log"], File []) ].

Definition sample_state : state := mk_state sample_fs [] 0 0 0.

Definition sample_copy_config : config :=
  {| delimiter := lit "_";
     use_regex := false;
     regex_pattern := regex_pattern DEFAULT_CONFIG;
     mode := lit "copy";
     skip_if_no_prefix := false |}.


(** The listing of [sample_dir], in the order of [iterdir]: the entries
    before ["blocked_1.xls"], and the entries after it. *)
Definition sample_before : list pystr :=
  [lit "notes.xlsx"; lit "report_feb.xlsx"; lit "report_jan.xlsx";
   lit "readme.txt"].

Definition sample_after : list pystr :=
  [lit "blocked"; lit " .XLSX"; lit "excel_grouper.log"; lit "config.json";
   lit "old"; lit "_x.xlsx"].

Definition sample_names : list pystr :=
  sample_before ++ lit "blocked_1.xls" :: sample_after.

(** The state that a computation leaves, [s] when it does not end. *)
Definition state_after {A} (r : option (res A * state)) (s : state) : state :=
  match r with
  | Some (_, s') => s'
  | None => s
  end.

(** Collaborators for the examples.  The encoder is the one of ASCII text.
    The parser knows the template and the file of [sample_fs], in which a
    user asks for the mode [COPY], writes the switch [use_regex] as a
    string, gives a number as the delimiter and adds a key of their own; it
    rejects every other file.  No example has a float, a list or a dict to
    print. *)
Definition sample_encode : pystr → res (list N) := Ret.

Definition sample_user_items : list (pystr * pyval) :=
  [ (lit "mode", VStr (lit "COPY"));
    (lit "use_regex", VStr (lit "false"));
    (lit "delimiter", VInt (-5));
    (lit "colour", VInt 3) ].

Definition sample_loads : list N → res pyval := λ data,
  if bool_decide (data = DEFAULT_CONFIG_text)
  then Ret (VDict DEFAULT_CONFIG_items)
  else if bool_decide (data = [9%N]) then Ret (VDict sample_user_items)
  else Raise (mk_exn (lit "JSONDecodeError")
                     (lit "Expecting value: line 1 column 1 (char 0)")).

Definition sample_str_other : pyval → pystr := λ _, lit "[]".

(** A configuration without a delimiter. *)
Definition sample_no_delimiter : config :=
  {| delimiter := [];
     use_regex := false;
     regex_pattern := regex_pattern DEFAULT_CONFIG;
     mode := lit "move";
     skip_if_no_prefix := false |}.

(** * Properties of the string operations *)

Lemma startswith_spec (s sub : pystr) :
  startswith s sub = true ↔ ∃ post, s = sub ++ post.
Proof.
  revert s. induction sub as [|a sub IH]; intros s; simpl.
  - split; [intros _; by exists s | done].
  - destruct s as [|b s].
    + split; [done | intros [post Hp]; discriminate].
    + rewrite andb_true_iff, bool_decide_eq_true, IH. split.
      * intros [-> [post ->]]. by exists post.
      * intros [post Hp]. injection Hp as -> ->. eauto.
Qed.

Lemma find_Some (s sub : pystr) (i : nat) :
  find s sub = Some i →
  ∃ pre post, s = pre ++ sub ++ post ∧ length pre = i
    ∧ ∀ pre' post', s = pre' ++ sub ++ post' → i ≤ length pre'.
Proof.
  revert i. induction s as [|a s IH]; intros i; simpl.
  - destruct (startswith [] sub) eqn:E; [|done].
    intros [= <-]. apply startswith_spec in E as [post E].
    exists [], post. split_and!; [done | done | intros; lia].
  - destruct (startswith (a :: s) sub) eqn:E.
    + intros [= <-]. apply startswith_spec in E as [post E].
      exists [], post. split_and!; [done | done | intros; lia].
    + destruct (find s sub) as [j|] eqn:F; [|done].
      intros [= <-]. destruct (IH j eq_refl) as (pre & post & -> & Hl & Hmin).
      exists (a :: pre), post. split_and!; [done | simpl; lia |].
      intros [|b pre'] post' Heq.
      * simpl in Heq. assert (startswith (a :: pre ++ sub ++ post) sub = true)
          as E' by (apply startswith_spec; eauto). congruence.
      * injection Heq as -> Heq. apply Hmin in Heq. simpl. lia.
Qed.

Lemma find_None (s sub : pystr) :
  find s sub = None → ∀ pre post, s ≠ pre ++ sub ++ post.
Proof.
  induction s as [|a s IH]; simpl.
  - destruct (startswith [] sub) eqn:E; [done|]. intros _ pre post Heq.
    symmetry in Heq. apply app_eq_nil in Heq as [-> Heq]. simpl in Heq.
    assert (startswith [] sub = true) by (apply startswith_spec; eauto).
    congruence.
  - destruct (startswith (a :: s) sub) eqn:E; [done|].
    destruct (find s sub) eqn:F; [done|]. intros _ [|b pre] post Heq.
    + assert (startswith (a :: s) sub = true)
        by (apply startswith_spec; eauto). congruence.
    + injection Heq as -> Heq. by eapply IH.
Qed.

Lemma contains_spec (s sub : pystr) :
  contains s sub = true ↔ ∃ pre post, s = pre ++ sub ++ post.
Proof.
  unfold contains. destruct (find s sub) as [i|] eqn:F.
  - apply find_Some in F as (pre & post & ? & _). naive_solver.
  - split; [done|]. intros (pre & post & ?). by eapply find_None in F.
Qed.

(** [strip] removes white space, and only white space, from both ends. *)
Lemma lstrip_spec (s : pystr) :
  ∃ l, s = l ++ lstrip s ∧ Forall (λ c, isspace c = true) l
       ∧ (∀ c, head (lstrip s) = Some c → isspace c = false).
Proof.
  induction s as [|c s (l & IH1 & IH2 & IH3)]; simpl.
  - exists []. by split_and!.
  - destruct (isspace c) eqn:E.
    + exists (c :: l). split_and!; [simpl; congruence | by constructor | done].
    + exists []. split_and!; [done | done | simpl; congruence].
Qed.

Lemma strip_spec (s : pystr) :
  ∃ l r, s = l ++ strip s ++ r
    ∧ Forall (λ c, isspace c = true) l ∧ Forall (λ c, isspace c = true) r
    ∧ (∀ c, head (strip s) = Some c → isspace c = false)
    ∧ (∀ c, last (strip s) = Some c → isspace c = false).
Proof.
  destruct (lstrip_spec s) as (l & Hl1 & Hl2 & Hl3).
  destruct (lstrip_spec (reverse (lstrip s))) as (r & Hr1 & Hr2 & Hr3).
  exists l, (reverse r). unfold strip, rstrip.
  set (t := lstrip (reverse (lstrip s))) in *.
  assert (lstrip s = reverse t ++ reverse r) as Hs.
  { by rewrite <- reverse_app, <- Hr1, reverse_involutive. }
  split_and!.
  - by rewrite <- Hs.
  - done.
  - by apply Forall_reverse.
  - intros c Hc. destruct (reverse t) as [|c' t'] eqn:Et; [done|].
    simpl in Hc. injection Hc as ->. apply Hl3. by rewrite Hs.
  - intros c Hc. apply Hr3. rewrite last_reverse in Hc. done.
Qed.

(** * The prefix extractor *)

Section ExtractProperties.
Variable re_search : regex_engine.

(** C1. In delimiter mode, for every string [f], with the stem
    [Path(f).stem]: when the delimiter is not empty and occurs in the stem,
    the key is the trimmed part of the stem before the first occurrence;
    when it is empty or does not occur, the key is the trimmed stem.  In
    both cases an empty trimmed string gives no key. *)
Theorem extract_prefix_delimiter (f : pystr) (cfg : config) :
  use_regex cfg = false →
  (delimiter cfg ≠ [] →
   ∀ pre post,
     filename_stem f = pre ++ delimiter cfg ++ post →
     (∀ pre' post', filename_stem f = pre' ++ delimiter cfg ++ post' →
                    length pre ≤ length pre') →
     extract_prefix re_search f cfg
     = Ret (if bool_decide (strip pre = []) then None else Some (strip pre)))
  ∧ (delimiter cfg = []
     ∨ (∀ pre post, filename_stem f ≠ pre ++ delimiter cfg ++ post) →
     extract_prefix re_search f cfg
     = Ret (if bool_decide (strip (filename_stem f) = []) then None
            else Some (strip (filename_stem f)))).
Proof.
  intros Hmode. unfold extract_prefix. rewrite Hmode.
  assert (∀ t : pystr, or_none t = if bool_decide (t = []) then None else Some t)
    as Hor by (by intros []).
  split.
  - intros Hne pre post Hocc Hmin.
    rewrite bool_decide_eq_false_2 by done. simpl.
    assert (contains (filename_stem f) (delimiter cfg) = true) as ->
      by (apply contains_spec; eauto).
    unfold split1. destruct (delimiter cfg) as [|d0 delim] eqn:Ed; [done|].
    destruct (find (filename_stem f) (d0 :: delim)) as [i|] eqn:F.
    + apply find_Some in F as (pre0 & post0 & H0 & Hl0 & Hmin0).
      simpl. rewrite Hor. do 3 f_equal.
      all: assert (i = length pre) as ->
        by (apply Nat.le_antisymm; [eauto | rewrite <- Hl0; eauto]).
      all: by rewrite Hocc, take_app_length.
    + by eapply find_None in F.
  - intros [Hempty | Habsent].
    + rewrite Hempty. simpl. apply f_equal, Hor.
    + assert (contains (filename_stem f) (delimiter cfg) = false) as ->.
      { apply not_true_is_false. rewrite contains_spec.
        intros (pre & post & ?). by eapply Habsent. }
      rewrite andb_false_r. apply f_equal, Hor.
Qed.

(** C2. In regex mode, for every string [f], the key is the trimmed first
    group of the match that [re.search] finds in the stem [Path(f).stem];
    there is no key when the search finds nothing, when group 1 is missing
    or took no part, when the trimmed group is empty, and when the search
    raises.  [extract_prefix] itself never raises. *)
Theorem extract_prefix_regex (f : pystr) (cfg : config) :
  use_regex cfg = true →
  (∃ key, extract_prefix re_search f cfg = Ret key)
  ∧ (∀ g, re_search (regex_pattern cfg) (filename_stem f)
          = Ret (Some (Captured g)) →
          extract_prefix re_search f cfg
          = Ret (if bool_decide (strip g = []) then None
                 else Some (strip g)))
  ∧ (re_search (regex_pattern cfg) (filename_stem f) = Ret (Some Unset) →
     extract_prefix re_search f cfg = Ret None)
  ∧ (re_search (regex_pattern cfg) (filename_stem f)
     = Ret (Some NoSuchGroup) →
     extract_prefix re_search f cfg = Ret None)
  ∧ (re_search (regex_pattern cfg) (filename_stem f) = Ret None →
     extract_prefix re_search f cfg = Ret None)
  ∧ (∀ e, re_search (regex_pattern cfg) (filename_stem f) = Raise e →
          extract_prefix re_search f cfg = Ret None).
Proof.
  intros Hmode. unfold extract_prefix. rewrite Hmode.
  destruct (re_search (regex_pattern cfg) (filename_stem f))
    as [[[| |g]|]|e]; simpl.
  all: split_and!; try done; eauto.
  - destruct (strip g); simpl; eauto.
  - intros g' [= <-]. by destruct (strip g).
Qed.

End ExtractProperties.

(** Both branches of [extract_prefix_delimiter] at ["report_jan.xlsx"] and
    at ["notes.xlsx"], with the default delimiter, and at two strings that
    are more than a name: ["a/b_c.xlsx"], whose stem is ["b_c"], and ["."],
    whose stem is empty. *)
Lemma extract_prefix_delimiter_witness :
  extract_prefix sample_engine (lit "report_jan.xlsx") DEFAULT_CONFIG
  = Ret (Some (lit "report"))
  ∧ extract_prefix sample_engine (lit "notes.xlsx") DEFAULT_CONFIG
    = Ret (Some (lit "notes"))
  ∧ extract_prefix sample_engine (lit "a/b_c.xlsx") DEFAULT_CONFIG
    = Ret (Some (lit "b"))
  ∧ extract_prefix sample_engine (lit ".") DEFAULT_CONFIG = Ret None.
Proof.
  destruct (extract_prefix_delimiter sample_engine (lit "report_jan.xlsx")
              DEFAULT_CONFIG eq_refl) as [H1 _].
  destruct (extract_prefix_delimiter sample_engine (lit "notes.xlsx")
              DEFAULT_CONFIG eq_refl) as [_ H2].
  destruct (extract_prefix_delimiter sample_engine (lit "a/b_c.xlsx")
              DEFAULT_CONFIG eq_refl) as [H3 _].
  destruct (extract_prefix_delimiter sample_engine (lit ".")
              DEFAULT_CONFIG eq_refl) as [_ H4].
  split_and!.
  - apply (H1 ltac:(done) (lit "report") (lit "jan")); [reflexivity|].
    intros pre' post' Heq. vm_compute in Heq.
    do 6 (destruct pre' as [|? pre']; [by vm_compute in Heq|]).
    simpl. lia.
  - apply H2. right. intros pre post Heq. vm_compute in Heq.
    do 5 (destruct pre as [|? pre]; [by vm_compute in Heq|]).
    by destruct pre.
  - apply (H3 ltac:(done) (lit "b") (lit "c")); [reflexivity|].
    intros pre' post' Heq. vm_compute in Heq.
    destruct pre' as [|? pre']; [by vm_compute in Heq|].
    simpl. lia.
  - apply H4. right. intros pre post Heq. vm_compute in Heq.
    by destruct pre.
Defined.

Lemma extract_prefix_regex_witness :
  extract_prefix sample_engine (lit "report_jan.xlsx")
    (mk_config (lit "_") true (regex_pattern DEFAULT_CONFIG) (lit "move") false)
  = Ret (Some (lit "report"))
  ∧ extract_prefix sample_engine (lit "notes.xlsx")
      (mk_config (lit "_") true (lit "*") (lit "move") false)
    = Ret None
  ∧ extract_prefix sample_engine (lit "old/report_jan.xlsx")
      (mk_config (lit "_") true (regex_pattern DEFAULT_CONFIG) (lit "move")
         false)
    = Ret (Some (lit "report")).
Proof.
  destruct (extract_prefix_regex sample_engine (lit "report_jan.xlsx")
              (mk_config (lit "_") true (regex_pattern DEFAULT_CONFIG)
                 (lit "move") false) eq_refl) as (_ & H1 & _).
  destruct (extract_prefix_regex sample_engine (lit "notes.xlsx")
              (mk_config (lit "_") true (lit "*") (lit "move") false)
              eq_refl) as (_ & _ & _ & _ & _ & H2).
  destruct (extract_prefix_regex sample_engine (lit "old/report_jan.xlsx")
              (mk_config (lit "_") true (regex_pattern DEFAULT_CONFIG)
                 (lit "move") false) eq_refl) as (_ & H3 & _).
  split_and!.
  - exact (H1 (lit "report") eq_refl).
  - exact (H2 _ eq_refl).
  - exact (H3 (lit "report") eq_refl).
Defined.

(** ** The parse of a name

    For an entry of a listing the parse changes nothing: a string without a
    separator that is not ["."] is its own name, so [extract_prefix] and the
    fallback of [main] see the same stem. *)

Lemma split_sep_component (n : pystr) : sep ∉ n → split_sep n = (n, []).
Proof.
  induction n as [|a n IH]; [done|]. intros H. simpl.
  rewrite IH by (intros ?; apply H; by right).
  rewrite bool_decide_eq_false_2; [done|]. intros ->. apply H. by left.
Qed.

Lemma filename_name_component (n : pystr) :
  sep ∉ n → n ≠ [dot] → filename_name n = n.
Proof.
  intros Hsep Hdot. unfold filename_name, components.
  rewrite split_sep_component by done. rewrite filter_cons, filter_nil.
  destruct (decide (n ≠ [] ∧ n ≠ [dot])) as [_|Hn]; [done|].
  destruct n; [done|]. destruct Hn. by split.
Qed.

Lemma filename_stem_component (n : pystr) :
  sep ∉ n → n ≠ [dot] → filename_stem n = name_stem n.
Proof. intros. unfold filename_stem. by rewrite filename_name_component. Qed.

(** * Properties of paths and names *)

Lemma resolve_snoc (p : path) (n : pystr) :
  resolve (p ++ [n]) = step (resolve p) n.
Proof. apply foldl_snoc. Qed.

Lemma step_regular (cur : path) (n : pystr) :
  regular_name n → step cur n = cur ++ [n].
Proof.
  intros (_ & H1 & H2). unfold step.
  by rewrite !bool_decide_eq_false_2.
Qed.

Lemma joinpath_regular (p : path) (n : pystr) :
  regular_name n → joinpath p n = p ++ [n].
Proof.
  intros (H0 & H1 & _). unfold joinpath.
  by rewrite !bool_decide_eq_false_2.
Qed.

Lemma resolve_child (p : path) (n : pystr) :
  regular_name n → resolve (p ++ [n]) = resolve p ++ [n].
Proof. intros. by rewrite resolve_snoc, step_regular. Qed.

Lemma resolve_joinpath (d : path) (n : pystr) :
  regular_name n → resolve (joinpath d n) = resolve d ++ [n].
Proof. intros. by rewrite joinpath_regular, resolve_child. Qed.

Lemma numbered_paren (src : path) (i : N) : 40%N ∈ numbered src i.
Proof.
  unfold numbered. rewrite elem_of_app. right. apply list_elem_of_here.
Qed.

Lemma numbered_regular (src : path) (i : N) : regular_name (numbered src i).
Proof.
  pose proof (numbered_paren src i) as H.
  split_and!; intros E; rewrite E in H; revert H;
    apply (bool_decide_unpack _); by vm_compute.
Qed.

Lemma name_stem_suffix (n : pystr) : name_stem n ++ name_suffix n = n.
Proof.
  unfold name_stem, name_suffix. destruct (splits_at n (rfind n dot)).
  - apply take_drop.
  - apply app_nil_r.
Qed.

Lemma N_of_ascii_inj : Inj (=) (=) N_of_ascii.
Proof.
  intros a b H. by rewrite <- (ascii_N_embedding a), <- (ascii_N_embedding b), H.
Qed.

Lemma lit_inj (s t : string) : lit s = lit t → s = t.
Proof.
  unfold lit. intros H.
  apply (list_fmap_eq_inj _ N_of_ascii_inj) in H.
  by rewrite <- (string_of_list_ascii_of_string s),
             <- (string_of_list_ascii_of_string t), H.
Qed.

Lemma str_of_N_inj (i j : N) : str_of_N i = str_of_N j → i = j.
Proof.
  intros H. apply lit_inj in H.
  assert (Some (N.to_uint i) = Some (N.to_uint j)) as [= E]
    by (by rewrite <- !NilEmpty.usu, H).
  by rewrite <- (Unsigned.of_to i), <- (Unsigned.of_to j), E.
Qed.

Lemma numbered_inj (src : path) (i j : N) :
  numbered src i = numbered src j → i = j.
Proof.
  unfold numbered. intros H.
  do 2 apply app_inv_head in H. apply app_inv_tail in H.
  by apply str_of_N_inj.
Qed.

Lemma numbered_longer (src : path) (i : N) :
  length (path_name src) < length (numbered src i).
Proof.
  unfold numbered, path_stem, path_suffix.
  rewrite <- (name_stem_suffix (path_name src)) at 1.
  rewrite !length_app. simpl. lia.
Qed.

Lemma candidate_inj (src : path) (i j : N) :
  candidate src i = candidate src j → i = j.
Proof.
  unfold candidate. do 2 case_bool_decide; subst; try done.
  - intros E. pose proof (numbered_longer src j). rewrite E in *. lia.
  - intros E. pose proof (numbered_longer src i). rewrite E in *. lia.
  - apply numbered_inj.
Qed.

(** * The search for a free name *)

Lemma node_at_child (fs : fsmap) (p : path) (n : pystr) :
  node_at fs (p ++ [n]) = fs !! (p ++ [n]).
Proof. by destruct p. Qed.

Lemma path_exists_numbered (fs : fsmap) (src d : path) (j : N) :
  path_exists fs (joinpath d (numbered src j)) = true →
  resolve d ++ [numbered src j] ∈ dom fs.
Proof.
  unfold path_exists.
  rewrite resolve_joinpath by apply numbered_regular.
  rewrite node_at_child, elem_of_dom. by destruct (fs !! _).
Qed.

(** From round [i] on the loop stops at the first numbered name that is
    free, provided it has one round for every node that can be in the way. *)
Lemma while_exists_numbered (fs : fsmap) (src d : path) (fuel : nat) :
  ∀ (i : N) (D : gset path),
    size D ≤ fuel →
    (∀ j, (i ≤ j)%N → path_exists fs (joinpath d (numbered src j)) = true →
          resolve d ++ [numbered src j] ∈ D) →
    ∃ k, (i ≤ k)%N
      ∧ while_exists fs src d fuel (i + 1) (joinpath d (numbered src i))
        = Some (joinpath d (numbered src k))
      ∧ path_exists fs (joinpath d (numbered src k)) = false
      ∧ ∀ j, (i ≤ j < k)%N →
             path_exists fs (joinpath d (numbered src j)) = true.
Proof.
  induction fuel as [|fuel IH]; intros i D Hsize HD.
  - exists i. simpl.
    destruct (path_exists fs (joinpath d (numbered src i))) eqn:E.
    + apply HD in E; [|lia].
      assert (size D = 0) as Hz%size_empty_inv by lia. set_solver.
    + split_and!; [lia | done | done | intros; lia].
  - simpl. destruct (path_exists fs (joinpath d (numbered src i))) eqn:E.
    + destruct (IH (i + 1)%N (D ∖ {[resolve d ++ [numbered src i]]}))
        as (k & Hk & Hw & Hfree & Hbusy).
      * rewrite size_difference, size_singleton.
        -- lia.
        -- apply singleton_subseteq_l, HD; [lia | done].
      * intros j Hj Hex. apply elem_of_difference. split.
        -- apply HD; [lia | done].
        -- rewrite not_elem_of_singleton. intros Heq.
           apply app_inj_tail in Heq as [_ Heq].
           apply numbered_inj in Heq. lia.
      * exists k. split_and!; [lia | done | done |].
        intros j Hj. destruct (decide (j = i)) as [->|]; [done|].
        apply Hbusy. lia.
    + exists i. split_and!; [lia | done | done | intros; lia].
Qed.

(** The loop of [safe_copy_or_move] ends, on the first candidate that does
    not exist. *)
Lemma while_exists_ends (fs : fsmap) (src d : path) :
  ∃ k, while_exists fs src d (S (size fs)) 1 (joinpath d (path_name src))
       = Some (joinpath d (candidate src k))
    ∧ path_exists fs (joinpath d (candidate src k)) = false
    ∧ ∀ j, (j < k)%N → path_exists fs (joinpath d (candidate src j)) = true.
Proof.
  simpl. destruct (path_exists fs (joinpath d (path_name src))) eqn:E.
  - destruct (while_exists_numbered fs src d (size fs) 1 (dom fs))
      as (k & Hk & Hw & Hfree & Hbusy).
    + by rewrite size_dom.
    + intros j _. apply path_exists_numbered.
    + exists k. unfold candidate.
      rewrite bool_decide_eq_false_2 by lia. split_and!; [done | done |].
      intros j Hj. case_bool_decide; [done|]. apply Hbusy. lia.
  - exists 0%N. split_and!; [done | done | intros; lia].
Qed.

Lemma first_free_spec (fs : fsmap) (src d : path) :
  ∃ k, first_free src d fs = Some (Ret (joinpath d (candidate src k)), fs)
    ∧ path_exists fs (joinpath d (candidate src k)) = false
    ∧ ∀ j, (j < k)%N → path_exists fs (joinpath d (candidate src j)) = true.
Proof.
  destruct (while_exists_ends fs src d) as (k & Hw & Hk).
  exists k. unfold first_free. by rewrite Hw.
Qed.

(** * Properties of the file-system operations *)

Lemma node_at_lookup (fs : fsmap) (q : path) :
  q ≠ [] → node_at fs q = fs !! q.
Proof. by destruct q. Qed.

Lemma node_at_File (fs : fsmap) (q : path) (data : list N) :
  node_at fs q = Some (File data) → q ≠ [] ∧ fs !! q = Some (File data).
Proof. by destruct q. Qed.

Lemma node_at_None (fs : fsmap) (q : path) :
  node_at fs q = None → q ≠ [] ∧ fs !! q = None.
Proof. by destruct q. Qed.

Lemma node_at_insert_ne (fs : fsmap) (q p : path) (v : node) :
  q ≠ p → node_at (<[q := v]> fs) p = node_at fs p.
Proof. intros. destruct p; [done|]. simpl. by rewrite lookup_insert_ne. Qed.

Lemma node_at_insert_eq (fs : fsmap) (q : path) (v : node) :
  q ≠ [] → node_at (<[q := v]> fs) q = Some v.
Proof. intros. rewrite node_at_lookup by done. apply lookup_insert_eq. Qed.

Lemma name_suffix_regular (n : pystr) : name_suffix n ≠ [] → regular_name n.
Proof.
  intros H. split_and!; intros ->; by vm_compute in H.
Qed.

Lemma candidate_regular (src : path) (k : N) :
  regular_name (path_name src) → regular_name (candidate src k).
Proof.
  intros. unfold candidate. case_bool_decide; [done|].
  apply numbered_regular.
Qed.

(** What a successful [mkdir] leaves: the directory, in a file system that
    is the old one or the old one with that one node more. *)
Lemma mkdir_exist_ok_Ret (d : path) (fs fs1 : fsmap) :
  mkdir_exist_ok d fs = Some (Ret tt, fs1) →
  node_at fs1 (resolve d) = Some Dir
  ∧ (fs1 = fs
     ∨ (fs !! resolve d = None ∧ fs1 = <[resolve d := Dir]> fs)).
Proof.
  unfold mkdir_exist_ok.
  destruct (node_at fs (resolve d)) as [[?|]|] eqn:E; [done | |].
  - intros [= <-]. eauto.
  - apply node_at_None in E as [Hne E].
    destruct (node_at fs (removelast (resolve d))) as [[?|]|]; [done | |done].
    intros [= <-]. split; [by apply node_at_insert_eq | eauto].
Qed.

(** A failed [mkdir] changes nothing. *)
Lemma mkdir_exist_ok_Raise (d : path) (fs fs1 : fsmap) (e : exn) :
  mkdir_exist_ok d fs = Some (Raise e, fs1) → fs1 = fs.
Proof.
  unfold mkdir_exist_ok. intros H.
  repeat case_match; by simplify_eq.
Qed.

Lemma mkdir_exist_ok_total (d : path) (fs : fsmap) :
  ∃ r fs1, mkdir_exist_ok d fs = Some (r, fs1).
Proof. unfold mkdir_exist_ok. repeat case_match; eauto. Qed.

(** The placer on a regular file: when the directory cannot be made, the
    error of [mkdir] comes out and nothing has changed; otherwise the file
    lands on the first free candidate. *)
Lemma safe_copy_or_move_file (src d : path) (md : pystr) (fs : fsmap)
    (data : list N) :
  node_at fs (resolve src) = Some (File data) →
  regular_name (path_name src) →
  (∃ e, mkdir_exist_ok d fs = Some (Raise e, fs)
        ∧ safe_copy_or_move src d md fs = Some (Raise e, fs))
  ∨ (∃ fs1 k,
        mkdir_exist_ok d fs = Some (Ret tt, fs1)
        ∧ safe_copy_or_move src d md fs
          = Some (Ret (joinpath d (candidate src k)),
                  placed md (resolve src) (resolve d ++ [candidate src k])
                    data fs1)
        ∧ fs1 !! (resolve d ++ [candidate src k]) = None
        ∧ path_exists fs1 (joinpath d (candidate src k)) = false
        ∧ ∀ j, (j < k)%N →
               path_exists fs1 (joinpath d (candidate src j)) = true).
Proof.
  intros Hsrc Hreg. unfold safe_copy_or_move, bind.
  destruct (mkdir_exist_ok_total d fs) as ([[]|e] & fs1 & Hmk); rewrite Hmk.
  2:{ left. pose proof (mkdir_exist_ok_Raise _ _ _ _ Hmk) as ->. eauto. }
  right. exists fs1.
  destruct (first_free_spec fs1 src d) as (k & -> & Hfree & Hbusy).
  exists k. pose proof (candidate_regular src k Hreg) as Hck.
  apply mkdir_exist_ok_Ret in Hmk as [Hdir Hfs1].
  assert (node_at fs1 (resolve src) = Some (File data)) as Hsrc1.
  { destruct Hfs1 as [->|[Hd ->]]; [done|].
    rewrite node_at_insert_ne; [done|].
    intros E. apply node_at_File in Hsrc as [_ Hsrc]. congruence. }
  assert (resolve (joinpath d (candidate src k))
          = resolve d ++ [candidate src k]) as Hres
    by by apply resolve_joinpath.
  assert (node_at fs1 (resolve d ++ [candidate src k]) = None) as Hnone.
  { unfold path_exists in Hfree. rewrite Hres in Hfree.
    by destruct (node_at fs1 (resolve d ++ [candidate src k])). }
  assert (resolve d ++ [candidate src k] ≠ resolve src) as Hne
    by congruence.
  assert (write_file (resolve d ++ [candidate src k]) data fs1
          = Some (Ret tt, <[resolve d ++ [candidate src k] := File data]> fs1))
    as Hwrite.
  { unfold write_file. by rewrite Hnone, removelast_last, Hdir. }
  split_and!; [done | | by apply node_at_None | done | done].
  unfold placed. case_bool_decide.
  - unfold copy2, real_dst, is_dir. rewrite Hres, Hnone, Hsrc1.
    rewrite bool_decide_eq_false_2 by done. by rewrite Hwrite.
  - unfold move, real_dst, is_dir. rewrite Hres, Hnone, Hsrc1. simpl.
    rewrite bool_decide_eq_false_2 by done. by rewrite Hwrite.
Qed.

Lemma node_at_placed_ne (md : pystr) (s t p : path) (data : list N)
    (fs : fsmap) :
  p ≠ s → p ≠ t → node_at (placed md s t data fs) p = node_at fs p.
Proof.
  intros Hs Ht. destruct p as [|c p]; [done|]. unfold placed. simpl.
  case_bool_decide.
  - by rewrite lookup_insert_ne.
  - by rewrite lookup_delete_ne, lookup_insert_ne.
Qed.

Lemma node_at_placed_eq (md : pystr) (s t : path) (data : list N)
    (fs : fsmap) :
  t ≠ [] → t ≠ s → node_at (placed md s t data fs) t = Some (File data).
Proof.
  intros Ht Hs. rewrite node_at_lookup by done. unfold placed.
  case_bool_decide.
  - apply lookup_insert_eq.
  - by rewrite lookup_delete_ne, lookup_insert_eq.
Qed.

(** A successful [mkdir] keeps every node that was there and adds nothing
    but the directory itself. *)
Lemma node_at_mkdir (d : path) (fs fs1 : fsmap) (p : path) :
  mkdir_exist_ok d fs = Some (Ret tt, fs1) →
  p ≠ resolve d → node_at fs1 p = node_at fs p.
Proof.
  intros [_ [->|[_ ->]]]%mkdir_exist_ok_Ret Hp; [done|].
  by apply node_at_insert_ne.
Qed.

Lemma node_at_mkdir_Some (d : path) (fs fs1 : fsmap) (p : path) (v : node) :
  mkdir_exist_ok d fs = Some (Ret tt, fs1) →
  node_at fs p = Some v → node_at fs1 p = Some v.
Proof.
  intros Hmk Hp. pose proof Hmk as [Hd [->|[Hnone ->]]]%mkdir_exist_ok_Ret;
    [done|].
  destruct (decide (p = resolve d)) as [->|Hne].
  - destruct (resolve d); [done|]. simpl in Hp. congruence.
  - by rewrite node_at_insert_ne.
Qed.

Lemma mkdir_exist_ok_Dir (d : path) (fs : fsmap) :
  node_at fs (resolve d) = Some Dir →
  mkdir_exist_ok d fs = Some (Ret tt, fs).
Proof. unfold mkdir_exist_ok. by intros ->. Qed.

Lemma mkdir_exist_ok_new (d : path) (fs : fsmap) :
  node_at fs (resolve d) = None →
  node_at fs (removelast (resolve d)) = Some Dir →
  mkdir_exist_ok d fs = Some (Ret tt, <[resolve d := Dir]> fs).
Proof. unfold mkdir_exist_ok. by intros -> ->. Qed.



(** The placer when the first [n] candidates are taken and the next one is
    free. *)
Lemma safe_copy_or_move_at (src d : path) (md : pystr) (fs fs1 : fsmap)
    (data : list N) (n : N) :
  node_at fs (resolve src) = Some (File data) →
  regular_name (path_name src) →
  mkdir_exist_ok d fs = Some (Ret tt, fs1) →
  (∀ j, (j < n)%N → path_exists fs1 (joinpath d (candidate src j)) = true) →
  path_exists fs1 (joinpath d (candidate src n)) = false →
  safe_copy_or_move src d md fs
  = Some (Ret (joinpath d (candidate src n)),
          placed md (resolve src) (resolve d ++ [candidate src n]) data fs1).
Proof.
  intros Hsrc Hreg Hmk Hbusy Hfree.
  destruct (safe_copy_or_move_file src d md fs data Hsrc Hreg)
    as [(e & Hmk' & _) | (fs1' & k & Hmk' & Hscm & _ & Hfree' & Hbusy')];
    [congruence|].
  assert (fs1' = fs1) as -> by congruence.
  assert (k = n) as ->; [|done].
  destruct (N.lt_trichotomy k n) as [Hlt|[->|Hlt]]; [|done|].
  - apply Hbusy in Hlt. congruence.
  - apply Hbusy' in Hlt. congruence.
Qed.

(** The names [name.ext], [name(1).ext], [name(2).ext] of a name. *)
Lemma candidate_0 (src : path) : candidate src 0 = path_name src.
Proof. done. Qed.

Lemma candidate_numbered (src : path) (k : N) :
  k ≠ 0%N →
  candidate src k
  = name_stem (path_name src) ++ lit "(" ++ str_of_N k ++ lit ")"
    ++ name_suffix (path_name src).
Proof. intros. unfold candidate. by rewrite bool_decide_eq_false_2. Qed.

Lemma candidate_same_name (s s' : path) (k : N) :
  path_name s = path_name s' → candidate s k = candidate s' k.
Proof.
  intros E. unfold candidate, numbered, path_stem, path_suffix. by rewrite E.
Qed.

Lemma path_exists_child (fs : fsmap) (d : path) (n : pystr) :
  regular_name n →
  path_exists fs (joinpath d n) = true ↔ is_Some (fs !! (resolve d ++ [n])).
Proof.
  intros Hn. unfold path_exists.
  rewrite resolve_joinpath, node_at_child by done.
  destruct (fs !! _); split; (done || by intros []).
Qed.

Lemma path_exists_false_child (fs : fsmap) (d : path) (n : pystr) :
  regular_name n →
  path_exists fs (joinpath d n) = false ↔ fs !! (resolve d ++ [n]) = None.
Proof.
  intros Hn. unfold path_exists.
  rewrite resolve_joinpath, node_at_child by done.
  by destruct (fs !! _).
Qed.

Lemma mkdir_exist_ok_not_File (d : path) (fs fs1 : fsmap) (data : list N) :
  mkdir_exist_ok d fs = Some (Ret tt, fs1) →
  node_at fs (resolve d) ≠ Some (File data).
Proof. unfold mkdir_exist_ok. intros H E. by rewrite E in H. Qed.

(** Three files of one name, sent to a directory that has none of the three
    candidate names yet, land on [name.ext], [name(1).ext] and
    [name(2).ext], in this order. *)
Lemma three_same_named (d : path) (md : pystr) (fs fs1 : fsmap)
    (s1 s2 s3 : path) (d1 d2 d3 : list N) (name : pystr) :
  path_name s1 = name → path_name s2 = name → path_name s3 = name →
  regular_name name →
  node_at fs (resolve s1) = Some (File d1) →
  node_at fs (resolve s2) = Some (File d2) →
  node_at fs (resolve s3) = Some (File d3) →
  resolve s1 ≠ resolve s2 → resolve s1 ≠ resolve s3 →
  resolve s2 ≠ resolve s3 →
  mkdir_exist_ok d fs = Some (Ret tt, fs1) →
  (∀ k, (k < 3)%N → path_exists fs (joinpath d (candidate s1 k)) = false) →
  ∃ fsA fsB fsC,
    safe_copy_or_move s1 d md fs = Some (Ret (joinpath d name), fsA)
    ∧ safe_copy_or_move s2 d md fsA
      = Some (Ret (joinpath d (name_stem name ++ lit "(1)"
                               ++ name_suffix name)), fsB)
    ∧ safe_copy_or_move s3 d md fsB
      = Some (Ret (joinpath d (name_stem name ++ lit "(2)"
                               ++ name_suffix name)), fsC).
Proof.
  intros N1 N2 N3 Hreg F1 F2 F3 D12 D13 D23 Hmk Hfree.
  set (q := resolve d) in *.
  assert (∀ k, regular_name (candidate s1 k)) as Hck
    by (intros; apply candidate_regular; by rewrite N1).
  assert (∀ k, (k < 3)%N → node_at fs (q ++ [candidate s1 k]) = None) as Hfree'.
  { intros k Hk. apply Hfree in Hk. unfold path_exists in Hk.
    rewrite resolve_joinpath in Hk by done. fold q in Hk.
    by destruct (node_at fs (q ++ [candidate s1 k])). }
  assert (∀ k, q ≠ q ++ [candidate s1 k]) as HqT.
  { intros k E. apply (f_equal length) in E. rewrite length_app in E.
    simpl in E. lia. }
  assert (∀ j k, j ≠ k → q ++ [candidate s1 j] ≠ q ++ [candidate s1 k]) as HTT.
  { intros j k Hjk E. apply app_inj_tail in E as [_ E].
    by apply candidate_inj in E. }
  assert (∀ s data k, node_at fs (resolve s) = Some (File data) → (k < 3)%N →
                      q ++ [candidate s1 k] ≠ resolve s) as HTS.
  { intros s data k Hs Hk E. rewrite <- E, Hfree' in Hs; done. }
  assert (∀ s data, node_at fs (resolve s) = Some (File data) →
                    q ≠ resolve s) as HqS.
  { intros s data Hs E. eapply mkdir_exist_ok_not_File; [done|].
    fold q. by rewrite E. }
  pose proof (mkdir_exist_ok_Ret _ _ _ Hmk) as [Hdir _]. fold q in Hdir.
  assert (∀ p, p ≠ q → node_at fs1 p = node_at fs p) as Hfs1
    by (intros; by eapply node_at_mkdir).
  assert (∀ k, candidate s2 k = candidate s1 k) as Hc2
    by (intros; apply candidate_same_name; congruence).
  assert (∀ k, candidate s3 k = candidate s1 k) as Hc3
    by (intros; apply candidate_same_name; congruence).
  assert (∀ fs' k, path_exists fs' (joinpath d (candidate s1 k))
                   = match node_at fs' (q ++ [candidate s1 k]) with
                     | Some _ => true
                     | None => false
                     end) as Hex.
  { intros. unfold path_exists. by rewrite resolve_joinpath. }
  assert (∀ k, q ++ [candidate s1 k] ≠ []) as HT0 by (by intros k []%app_nil).
  set (fsA := placed md (resolve s1) (q ++ [candidate s1 0]) d1 fs1).
  set (fsB := placed md (resolve s2) (q ++ [candidate s1 1]) d2 fsA).
  set (fsC := placed md (resolve s3) (q ++ [candidate s1 2]) d3 fsB).
  assert (∀ p, p ≠ resolve s1 → p ≠ q ++ [candidate s1 0] →
               node_at fsA p = node_at fs1 p) as HfsA
    by (intros; by apply node_at_placed_ne).
  assert (∀ p, p ≠ resolve s2 → p ≠ q ++ [candidate s1 1] →
               node_at fsB p = node_at fsA p) as HfsB
    by (intros; by apply node_at_placed_ne).
  assert (node_at fsA (q ++ [candidate s1 0]) = Some (File d1)) as HA0
    by (apply node_at_placed_eq; [done | by eapply HTS]).
  assert (node_at fsB (q ++ [candidate s1 1]) = Some (File d2)) as HB1
    by (apply node_at_placed_eq; [done | by eapply HTS]).
  assert (node_at fsA q = Some Dir) as HdirA.
  { rewrite HfsA; [done | by eapply HqS | done]. }
  assert (node_at fsB q = Some Dir) as HdirB.
  { rewrite HfsB; [done | by eapply HqS | done]. }
  exists fsA, fsB, fsC. split_and!.
  - rewrite <- N1.
    apply (safe_copy_or_move_at s1 d md fs fs1 d1 0); try done.
    + by rewrite N1.
    + intros; lia.
    + rewrite Hex, Hfs1, Hfree' by done. done.
  - replace (name_stem name ++ lit "(1)" ++ name_suffix name)
      with (candidate s2 1) by (by rewrite candidate_numbered, N2).
    rewrite (safe_copy_or_move_at s2 d md fsA fsA d2 1);
      [by rewrite Hc2 | ..].
    + rewrite HfsA, Hfs1; [done | by apply not_eq_sym, (HqS s2 d2) | done
                           | by apply not_eq_sym, (HTS s2 d2) ].
    + by rewrite N2.
    + by apply mkdir_exist_ok_Dir.
    + intros j Hj. assert (j = 0%N) as -> by lia.
      by rewrite Hc2, Hex, HA0.
    + rewrite Hc2, Hex, HfsA, Hfs1, Hfree'; [done.. | by eapply HTS
                                             | by apply HTT].
  - replace (name_stem name ++ lit "(2)" ++ name_suffix name)
      with (candidate s3 2) by (by rewrite candidate_numbered, N3).
    rewrite (safe_copy_or_move_at s3 d md fsB fsB d3 2);
      [by rewrite Hc3 | ..].
    + rewrite HfsB, HfsA, Hfs1; [done | by apply not_eq_sym, (HqS s3 d3)
        | done | by apply not_eq_sym, (HTS s3 d3) | done
        | by apply not_eq_sym, (HTS s3 d3) ].
    + by rewrite N3.
    + by apply mkdir_exist_ok_Dir.
    + intros j Hj. rewrite Hc3, Hex.
      destruct (decide (j = 0%N)) as [->|];
        [|assert (j = 1%N) as -> by lia; by rewrite HB1].
      rewrite HfsB, HA0; [done | by eapply HTS | by apply HTT].
    + rewrite Hc3, Hex, HfsB, HfsA, Hfs1, Hfree';
        [done.. | by eapply HTS | by apply HTT | by eapply HTS
         | by apply HTT].
Qed.

(** * The pipeline, entry by entry *)

Section PipelineProperties.
Variable re_search : regex_engine.

(** The extractor never raises. *)
Lemma extract_prefix_Ret (f : pystr) (cfg : config) :
  ∃ key, extract_prefix re_search f cfg = Ret key.
Proof.
  unfold extract_prefix. destruct (use_regex cfg).
  - destruct (re_search (regex_pattern cfg) (filename_stem f))
      as [[[| |g]|]|e]; simpl; eauto.
    destruct (strip g); simpl; eauto.
  - destruct (delimiter cfg) as [|c delim]; simpl; [eauto|].
    destruct (contains (filename_stem f) (c :: delim)); simpl; [|eauto].
    destruct (find (filename_stem f) (c :: delim)); simpl; eauto.
Qed.

Lemma path_name_child (d : path) (name : pystr) :
  path_name (d ++ [name]) = name.
Proof. unfold path_name. by rewrite last_snoc. Qed.

(** An eligible entry is a regular file under a regular name. *)
Lemma eligible_file (fs : fsmap) (d : path) (name : pystr) :
  eligible fs (d ++ [name]) = true →
  regular_name name
  ∧ ∃ data, node_at fs (resolve d ++ [name]) = Some (File data).
Proof.
  unfold eligible, is_file, path_suffix. rewrite path_name_child.
  rewrite !andb_true_iff, bool_decide_eq_true. intros [[Hf Hext] _].
  assert (regular_name name) as Hreg.
  { apply name_suffix_regular. intros E. rewrite E in Hext.
    revert Hext. apply (bool_decide_unpack _). by vm_compute. }
  split; [done|]. rewrite resolve_child in Hf by done.
  destruct (node_at fs (resolve d ++ [name])) as [[data|]|]; eauto; done.
Qed.

(** The loop body refines the state machine: every round ends, without an
    exception, in a state that [visit] allows. *)
Lemma iteration_visit (cfg : config) (d : path) (name : pystr) (s : state) :
  ∃ s', iteration re_search cfg d name s = Some (Ret tt, s')
        ∧ visit re_search cfg d name s s'.
Proof.
  unfold iteration, try_catch, attempt, bind, gets, path_stem.
  rewrite !path_name_child.
  destruct (eligible (st_fs s) (d ++ [name])) eqn:El.
  - pose proof El as Hel. unfold eligible in El.
    rewrite path_name_child in El.
    apply andb_true_iff in El as [[Hf Hext]%andb_true_iff Hres].
    rewrite Hf, Hext. simpl. apply negb_true_iff in Hres. rewrite Hres.
    destruct (extract_prefix_Ret name cfg) as [key Hkey].
    rewrite Hkey. unfold lift_res.
    destruct (eligible_file _ _ _ Hel) as (Hreg & data & Hdata).
    assert (∀ prefix, group_of cfg name key = Some prefix →
      ∃ s', match place cfg d (d ++ [name]) prefix s with
            | Some (Ret a, s') => Some (Ret a, s')
            | Some (Raise e, s') =>
                (incr_errors;; log_line (msg_error name e)) s'
            | None => None
            end = Some (Ret tt, s')
            ∧ visit re_search cfg d name s s') as Hplace.
    { intros prefix Hgrp. unfold place, bind, on_fs.
      rewrite path_name_child.
      destruct (safe_copy_or_move_file (d ++ [name]) (joinpath d prefix)
                  (mode cfg) (st_fs s) data)
        as [(e & _ & Hscm) | (fs1 & k & _ & Hscm & _)].
      - by rewrite resolve_child.
      - by rewrite path_name_child.
      - rewrite Hscm. unfold incr_errors, log_line, modify, bind, set_fs.
        cbn [st_fs st_log processed skipped errors].
        eexists. split; [reflexivity|].
        by eapply (visit_errored _ _ _ _ _ key prefix e).
      - rewrite Hscm. unfold incr_processed, log_line, modify, bind, set_fs.
        cbn [st_fs st_log processed skipped errors].
        eexists. split; [reflexivity|].
        by eapply (visit_processed _ _ _ _ _ key prefix). }
    unfold group_of in Hplace.
    destruct (falsy key) eqn:Hfalsy.
    + destruct (skip_if_no_prefix cfg) eqn:Hskip.
      * unfold incr_skipped, log_line, modify, bind.
        cbn [st_fs st_log processed skipped errors].
        eexists. split; [reflexivity|].
        eapply visit_skipped; [done..|]. unfold group_of.
        by rewrite Hfalsy, Hskip.
      * by apply (Hplace _ eq_refl).
    + destruct key as [[|c key]|]; try done. by apply (Hplace _ eq_refl).
  - exists s. split; [|by apply visit_ignored].
    unfold eligible in El. rewrite path_name_child in El.
    destruct (is_file (st_fs s) (d ++ [name])); simpl in *; [|done].
    destruct (bool_decide (lower (path_suffix (d ++ [name])) ∈ EXCEL_EXTS));
      simpl in *; [|done].
    apply negb_false_iff in El. by rewrite El.
Qed.



(** ** Counters and log of one round *)

(** One round changes the counters by one increment of one counter for an
    eligible entry, and not at all for another entry; it adds one record to
    the log in the first case and none in the second. *)
Lemma visit_counters (cfg : config) (d : path) (name : pystr) (s s' : state) :
  visit re_search cfg d name s s' →
  if eligible (st_fs s) (d ++ [name]) then
    ((processed s' = processed s + 1 ∧ skipped s' = skipped s
      ∧ errors s' = errors s)
     ∨ (processed s' = processed s ∧ skipped s' = skipped s + 1
        ∧ errors s' = errors s)
     ∨ (processed s' = processed s ∧ skipped s' = skipped s
        ∧ errors s' = errors s + 1))%N
    ∧ ∃ record, st_log s' = st_log s ++ [record]
  else s' = s.
Proof.
  intros [Hel | key Hel _ _ | key prefix dst fs' Hel _ _ _
          | key prefix e fs' Hel _ _ _]; rewrite Hel; simpl; eauto 10.
Qed.

Lemma visit_tally (cfg : config) (d : path) (name : pystr) (s s' : state) :
  visit re_search cfg d name s s' →
  tally s' = (tally s + if eligible (st_fs s) (d ++ [name]) then 1 else 0)%N.
Proof.
  intros H%visit_counters. unfold tally.
  destruct (eligible (st_fs s) (d ++ [name])); [|subst; lia].
  destruct H as [[(-> & -> & ->)|[(-> & -> & ->)|(-> & -> & ->)]] _]; lia.
Qed.

(** ** The file system across one round *)

(** One round keeps every node of the file system except, at most, the
    entry itself. *)
Lemma visit_frame (cfg : config) (d : path) (name : pystr) (s s' : state) :
  visit re_search cfg d name s s' →
  ∀ p v, node_at (st_fs s) p = Some v → p ≠ resolve (d ++ [name]) →
         node_at (st_fs s') p = Some v.
Proof.
  intros Hv p v Hp Hne.
  destruct Hv as [Hel | key Hel _ _ | key prefix dst fs' Hel _ _ Hscm
                  | key prefix e fs' Hel _ _ Hscm]; simpl; try done.
  all: destruct (eligible_file _ _ _ Hel) as (Hreg & data & Hdata).
  all: destruct (safe_copy_or_move_file (d ++ [name]) (joinpath d prefix)
                   (mode cfg) (st_fs s) data)
         as [(e' & _ & Hscm') | (fs1 & k & Hmk & Hscm' & Hnone & _)];
         [by rewrite resolve_child | by rewrite path_name_child | ..].
  all: rewrite Hscm in Hscm'; simplify_eq; try done.
  rewrite node_at_placed_ne; [by eapply node_at_mkdir_Some | done |].
  intros ->. eapply node_at_mkdir_Some in Hp; [|done].
  rewrite node_at_child in Hp. congruence.
Qed.


(** Eligibility of an entry only depends on the node under its name. *)
Lemma eligible_node (fs fs' : fsmap) (d : path) (n : pystr) :
  fs' !! (resolve d ++ [n]) = fs !! (resolve d ++ [n]) →
  eligible fs' (d ++ [n]) = eligible fs (d ++ [n]).
Proof.
  intros E. unfold eligible.
  destruct (bool_decide (lower (path_suffix (d ++ [n])) ∈ EXCEL_EXTS)) eqn:X;
    [|by rewrite !andb_false_r].
  assert (regular_name n) as Hreg.
  { apply name_suffix_regular. intros E'.
    unfold path_suffix in X. rewrite path_name_child, E' in X.
    by vm_compute in X. }
  unfold is_file. by rewrite resolve_child, !node_at_child, E.
Qed.



(** ** The whole loop *)

Lemma for_each_app (cfg : config) (d : path) (l1 l2 : list pystr)
    (s s1 : state) :
  for_each re_search cfg d l1 s = Some (Ret tt, s1) →
  for_each re_search cfg d (l1 ++ l2) s = for_each re_search cfg d l2 s1.
Proof.
  revert s. induction l1 as [|n l1 IH]; intros s; simpl.
  - by intros [= ->].
  - unfold bind.
    destruct (iteration_visit cfg d n s) as (s' & -> & _). apply IH.
Qed.


End PipelineProperties.

(** * The listing of a directory *)






(** * The rounds of the loop *)

Section Rounds.
Variable re_search : regex_engine.

(** The round of an eligible entry, by what the extractor returns. *)
Lemma iteration_eligible (cfg : config) (d : path) (name : pystr)
    (s : state) (key : option pystr) :
  eligible (st_fs s) (d ++ [name]) = true →
  extract_prefix re_search name cfg = Ret key →
  iteration re_search cfg d name s
  = match group_of cfg name key with
    | None =>
        Some (Ret tt,
              mk_state (st_fs s) (st_log s ++ [msg_skip name])
                       (processed s) (skipped s + 1) (errors s))
    | Some prefix =>
        match safe_copy_or_move (d ++ [name]) (joinpath d prefix) (mode cfg)
                (st_fs s) with
        | Some (Ret _, fs') =>
            Some (Ret tt,
                  mk_state fs'
                    (st_log s
                     ++ [msg_done name (path_name (joinpath d prefix))])
                    (processed s + 1) (skipped s) (errors s))
        | Some (Raise e, fs') =>
            Some (Ret tt,
                  mk_state fs' (st_log s ++ [msg_error name e])
                           (processed s) (skipped s) (errors s + 1))
        | None => None
        end
    end.
Proof.
  intros El Hkey.
  unfold iteration, try_catch, attempt, bind, gets, path_stem.
  rewrite !path_name_child. unfold eligible in El.
  rewrite path_name_child in El.
  apply andb_true_iff in El as [[Hf Hext]%andb_true_iff Hres].
  rewrite Hf, Hext. simpl. apply negb_true_iff in Hres. rewrite Hres.
  rewrite Hkey. unfold lift_res, group_of.
  assert (∀ prefix,
    match place cfg d (d ++ [name]) prefix s with
    | Some (Ret a, s') => Some (Ret a, s')
    | Some (Raise e, s') => (incr_errors;; log_line (msg_error name e)) s'
    | None => None
    end
    = match safe_copy_or_move (d ++ [name]) (joinpath d prefix) (mode cfg)
              (st_fs s) with
      | Some (Ret _, fs') =>
          Some (Ret tt,
                mk_state fs'
                  (st_log s ++ [msg_done name (path_name (joinpath d prefix))])
                  (processed s + 1) (skipped s) (errors s))
      | Some (Raise e, fs') =>
          Some (Ret tt,
                mk_state fs' (st_log s ++ [msg_error name e])
                         (processed s) (skipped s) (errors s + 1))
      | None => None
      end) as Hplace.
  { intros prefix. unfold place, bind, on_fs. rewrite path_name_child.
    by destruct (safe_copy_or_move _ _ _ _) as [[[dst|e] fs']|]. }
  destruct (falsy key) eqn:Hfalsy.
  - destruct (skip_if_no_prefix cfg); [done | apply Hplace].
  - destruct key as [[|c key]|]; [done | apply Hplace | done].
Qed.

Lemma for_each_total (cfg : config) (d : path) (names : list pystr)
    (s : state) :
  ∃ s', for_each re_search cfg d names s = Some (Ret tt, s')
        ∧ ∃ records, st_log s' = st_log s ++ records.
Proof.
  revert s. induction names as [|n names IH]; intros s; simpl.
  - exists s. split; [done|]. exists []. by rewrite app_nil_r.
  - unfold bind.
    destruct (iteration_visit re_search cfg d n s) as (s1 & -> & Hv).
    destruct (IH s1) as (s' & -> & recs & Hlog). exists s'. split; [done|].
    apply visit_counters in Hv.
    destruct (eligible (st_fs s) (d ++ [n])).
    + destruct Hv as [_ [r Hr]]. exists (r :: recs).
      by rewrite Hlog, Hr, <- app_assoc.
    + subst. eauto.
Qed.

(** [main] is the loop between the [START] and the [END] record. *)
Lemma main_spec (cfg : config) (d : path) (names : list pystr) (s : state) :
  ∃ s1 records,
    for_each re_search cfg d names
      (mk_state (st_fs s) (st_log s ++ [msg_start cfg]) 0 0 0)
    = Some (Ret tt, s1)
    ∧ st_log s1 = (st_log s ++ [msg_start cfg]) ++ records
    ∧ main re_search cfg d names s
      = Some (Ret (if bool_decide (errors s1 = 0%N) then 0%N else 1%N),
              mk_state (st_fs s1)
                (st_log s1
                 ++ [msg_end (processed s1) (skipped s1) (errors s1)])
                (processed s1) (skipped s1) (errors s1)).
Proof.
  destruct (for_each_total cfg d names
              (mk_state (st_fs s) (st_log s ++ [msg_start cfg]) 0 0 0))
    as (s1 & Hrun & recs & Hlog).
  exists s1, recs. split_and!; [done | done |].
  unfold main, bind, log_line, modify, gets. simpl. by rewrite Hrun.
Qed.

(** The state that a round, the loop and [main] leave. *)
Lemma iteration_state_after (cfg : config) (d : path) (name : pystr)
    (s : state) :
  iteration re_search cfg d name s
  = Some (Ret tt, state_after (iteration re_search cfg d name s) s).
Proof.
  destruct (iteration_visit re_search cfg d name s) as (s' & H & _).
  by rewrite H.
Qed.

Lemma for_each_state_after (cfg : config) (d : path) (names : list pystr)
    (s : state) :
  for_each re_search cfg d names s
  = Some (Ret tt, state_after (for_each re_search cfg d names s) s).
Proof.
  destruct (for_each_total cfg d names s) as (s' & H & _). by rewrite H.
Qed.

Lemma main_state_after (cfg : config) (d : path) (names : list pystr)
    (s : state) :
  main re_search cfg d names s
  = Some (Ret (if bool_decide
                    (errors (state_after (main re_search cfg d names s) s)
                     = 0%N)
               then 0%N else 1%N),
          state_after (main re_search cfg d names s) s).
Proof.
  destruct (main_spec cfg d names s) as (s1 & recs & _ & _ & H).
  by rewrite H.
Qed.


(** The round of an eligible file without a key, when such files are not
    skipped. *)
Lemma no_key_skip_or_fallback_aux (cfg : config) (d : path) (name : pystr)
    (s : state) :
  eligible (st_fs s) (d ++ [name]) = true →
  extract_prefix re_search name cfg = Ret None →
  skip_if_no_prefix cfg = false →
  let key := if bool_decide (strip (name_stem name) = []) then UNGROUPED
             else strip (name_stem name) in
  iteration re_search cfg d name s
  = match safe_copy_or_move (d ++ [name]) (joinpath d key) (mode cfg)
            (st_fs s) with
    | Some (Ret _, fs') =>
        Some (Ret tt,
              mk_state fs'
                (st_log s ++ [msg_done name (path_name (joinpath d key))])
                (processed s + 1) (skipped s) (errors s))
    | Some (Raise e, fs') =>
        Some (Ret tt,
              mk_state fs' (st_log s ++ [msg_error name e])
                       (processed s) (skipped s) (errors s + 1))
    | None => None
    end.
Proof.
  intros El Hkey Hskip key.
  rewrite (iteration_eligible cfg d name s None El Hkey).
  unfold group_of. simpl. rewrite Hskip.
  assert (str_or (strip (name_stem name)) UNGROUPED = key) as ->; [|done].
  unfold key. by destruct (strip (name_stem name)).
Qed.

End Rounds.


(** * Copy mode keeps what is there *)

Lemma safe_copy_or_move_copy_mono (src d : path) (fs fs2 : fsmap)
    (data : list N) (r : res path) :
  node_at fs (resolve src) = Some (File data) →
  regular_name (path_name src) →
  safe_copy_or_move src d (lit "copy") fs = Some (r, fs2) →
  ∀ p v, node_at fs p = Some v → node_at fs2 p = Some v.
Proof.
  intros Hsrc Hreg Hscm p v Hp.
  destruct (safe_copy_or_move_file src d (lit "copy") fs data Hsrc Hreg)
    as [(e & _ & Hscm') | (fs1 & k & Hmk & Hscm' & Hnone & _)];
    rewrite Hscm in Hscm'; simplify_eq; [done|].
  eapply node_at_mkdir_Some in Hp; [|done].
  unfold placed. simpl. rewrite node_at_insert_ne; [done|].
  intros <-. rewrite node_at_child in Hp. congruence.
Qed.

Section CopyMode.
Variable re_search : regex_engine.

Lemma visit_copy_mono (cfg : config) (d : path) (name : pystr)
    (s s' : state) :
  mode cfg = lit "copy" →
  visit re_search cfg d name s s' →
  ∀ p v, node_at (st_fs s) p = Some v → node_at (st_fs s') p = Some v.
Proof.
  intros Hmode Hv p v Hp.
  destruct Hv as [Hel | key Hel _ _ | key prefix dst fs' Hel _ _ Hscm
                  | key prefix e fs' Hel _ _ Hscm]; simpl; try done.
  all: destruct (eligible_file _ _ _ Hel) as (Hreg & data & Hdata).
  all: rewrite Hmode in Hscm.
  all: eapply safe_copy_or_move_copy_mono;
    [by rewrite resolve_child | by rewrite path_name_child | done..].
Qed.

Lemma for_each_copy_mono (cfg : config) (d : path) (names : list pystr) :
  mode cfg = lit "copy" →
  ∀ s s', for_each re_search cfg d names s = Some (Ret tt, s') →
          ∀ p v, node_at (st_fs s) p = Some v → node_at (st_fs s') p = Some v.
Proof.
  intros Hmode. induction names as [|n names IH]; intros s s'; simpl.
  - by intros [= ->].
  - unfold bind.
    destruct (iteration_visit re_search cfg d n s) as (s1 & -> & Hv).
    intros Hrun p v Hp. eapply IH; [done|]. by eapply visit_copy_mono.
Qed.

(** The file system that [main] leaves is the one that its loop leaves. *)
Lemma main_loop (cfg : config) (d : path) (names : list pystr)
    (s s' : state) (code : N) :
  main re_search cfg d names s = Some (Ret code, s') →
  ∃ s1,
    for_each re_search cfg d names
      (mk_state (st_fs s) (st_log s ++ [msg_start cfg]) 0 0 0)
    = Some (Ret tt, s1)
    ∧ st_fs s' = st_fs s1.
Proof.
  destruct (main_spec re_search cfg d names s) as (s1 & recs & Hrun & _ & ->).
  intros [= _ <-]. by exists s1.
Qed.

Lemma main_copy_mono (cfg : config) (d : path) (names : list pystr)
    (s s' : state) (code : N) :
  mode cfg = lit "copy" →
  main re_search cfg d names s = Some (Ret code, s') →
  ∀ p v, node_at (st_fs s) p = Some v → node_at (st_fs s') p = Some v.
Proof.
  intros Hmode (s1 & Hrun & ->)%main_loop p v Hp.
  by eapply (for_each_copy_mono cfg d names Hmode _ s1).
Qed.

(** A round that places a file, in copy mode: the file is copied under the
    group directory, on the first free candidate, and the unnumbered
    candidate is taken from then on. *)
Lemma iteration_processed (cfg : config) (d : path) (name : pystr)
    (s s' : state) :
  iteration re_search cfg d name s = Some (Ret tt, s') →
  processed s' = (processed s + 1)%N →
  ∃ key prefix data fs1 k,
    eligible (st_fs s) (d ++ [name]) = true
    ∧ extract_prefix re_search name cfg = Ret key
    ∧ group_of cfg name key = Some prefix
    ∧ node_at (st_fs s) (resolve d ++ [name]) = Some (File data)
    ∧ mkdir_exist_ok (joinpath d prefix) (st_fs s) = Some (Ret tt, fs1)
    ∧ fs1 !! (resolve (joinpath d prefix) ++ [candidate (d ++ [name]) k])
      = None
    ∧ (∀ j, (j < k)%N →
            path_exists fs1
              (joinpath (joinpath d prefix) (candidate (d ++ [name]) j))
            = true)
    ∧ st_fs s'
      = placed (mode cfg) (resolve d ++ [name])
          (resolve (joinpath d prefix) ++ [candidate (d ++ [name]) k])
          data fs1.
Proof.
  intros Hit Hproc.
  destruct (iteration_visit re_search cfg d name s) as (s'' & Hit' & Hv).
  assert (s'' = s') as -> by congruence.
  destruct Hv as [Hel | key Hel _ _ | key prefix dst fs' Hel Hkey Hgrp Hscm
                  | key prefix e fs' Hel _ _ Hscm];
    cbn [processed] in Hproc; try lia.
  destruct (eligible_file _ _ _ Hel) as (Hreg & data & Hdata).
  destruct (safe_copy_or_move_file (d ++ [name]) (joinpath d prefix)
              (mode cfg) (st_fs s) data)
    as [(e' & _ & Hscm') | (fs1 & k & Hmk & Hscm' & Hnone & _ & Hbusy)];
    [by rewrite resolve_child | by rewrite path_name_child | congruence |].
  rewrite Hscm in Hscm'. injection Hscm' as -> ->.
  rewrite resolve_child by done.
  by exists key, prefix, data, fs1, k.
Qed.



(** A file that one round has copied is copied again, by any later round
    of copy mode, under a numbered name: the copy of the first round is in
    the way of the plain name. *)
Lemma second_round_numbered (cfg : config) (d : path) (name : pystr)
    (sa sb sc : state) :
  mode cfg = lit "copy" →
  iteration re_search cfg d name sa = Some (Ret tt, sb) →
  processed sb = (processed sa + 1)%N →
  (∀ p v, node_at (st_fs sb) p = Some v → node_at (st_fs sc) p = Some v) →
  ∃ sd prefix k data,
    iteration re_search cfg d name sc = Some (Ret tt, sd)
    ∧ processed sd = (processed sc + 1)%N
    ∧ (1 ≤ k)%N
    ∧ node_at (st_fs sa) (resolve d ++ [name]) = Some (File data)
    ∧ st_fs sc !! (resolve (joinpath d prefix)
                   ++ [name_stem name ++ lit "(" ++ str_of_N k ++ lit ")"
                       ++ name_suffix name]) = None
    ∧ st_fs sd
      = <[resolve (joinpath d prefix)
          ++ [name_stem name ++ lit "(" ++ str_of_N k ++ lit ")"
              ++ name_suffix name] := File data]> (st_fs sc).
Proof.
  intros Hmode Hit Hproc Hmono.
  destruct (iteration_processed cfg d name sa sb Hit Hproc)
    as (key & prefix & data & fs1 & k1 & El & Hkey & Hgrp & Hdata & Hmk
        & Hnone & Hbusy & Hfs).
  set (q := resolve (joinpath d prefix)) in *.
  set (src := d ++ [name]) in *.
  destruct (eligible_file _ _ _ El) as (Hreg & _).
  assert (regular_name (path_name src)) as Hreg'
    by (unfold src; by rewrite path_name_child).
  assert (∀ j, regular_name (candidate src j)) as Hcand
    by (intros; by apply candidate_regular).
  rewrite Hmode in Hfs. unfold placed in Hfs. simpl in Hfs.
  pose proof (mkdir_exist_ok_Ret _ _ _ Hmk) as [Hdir _]. fold q in Hdir.
  pose proof (node_at_mkdir_Some _ _ _ _ _ Hmk Hdata) as Hdata1.
  (* the state after the first round *)
  assert (node_at (st_fs sb) q = Some Dir) as Hdirb.
  { rewrite Hfs, node_at_insert_ne; [done|]. intros E.
    apply (f_equal length) in E. rewrite length_app in E. simpl in E. lia. }
  assert (node_at (st_fs sb) (resolve d ++ [name]) = Some (File data))
    as Hdatab.
  { rewrite Hfs, node_at_insert_ne; [done|]. intros E.
    rewrite <- E, node_at_child in Hdata1. congruence. }
  assert (is_Some (node_at (st_fs sb) (q ++ [candidate src 0]))) as Hplain.
  { rewrite Hfs. destruct (decide (k1 = 0%N)) as [->|Hk1].
    - rewrite node_at_insert_eq; [done | by intros []%app_nil].
    - assert (0 < k1)%N as Hlt%Hbusy by lia.
      apply path_exists_child in Hlt as [v Hv]; [|done]. fold q in Hv.
      rewrite node_at_insert_ne, node_at_child, Hv; [done|].
      intros E. rewrite <- E in Hv. congruence. }
  (* the same nodes are there when the later round starts *)
  apply Hmono in Hdirb, Hdatab. destruct Hplain as [v Hplain%Hmono].
  assert (eligible (st_fs sc) src = true) as Elc.
  { rewrite <- El. apply eligible_node.
    rewrite node_at_child in Hdatab, Hdata. congruence. }
  pose proof (iteration_eligible re_search cfg d name sc key Elc Hkey)
    as Hitc.
  rewrite Hgrp in Hitc. fold src in Hitc.
  destruct (safe_copy_or_move_file src (joinpath d prefix) (mode cfg)
              (st_fs sc) data)
    as [(e & Hmk' & _) | (fs1' & k & Hmk' & Hscm & Hnone' & Hfree & _)].
  - unfold src. by rewrite resolve_child.
  - done.
  - rewrite mkdir_exist_ok_Dir in Hmk' by done. done.
  - rewrite mkdir_exist_ok_Dir in Hmk' by done. injection Hmk' as <-.
    fold q in Hnone', Hscm.
    assert (k ≠ 0%N) as Hk.
    { intros ->. rewrite node_at_child in Hplain. congruence. }
    rewrite Hscm in Hitc. rewrite Hmode in Hitc. unfold placed in Hitc.
    simpl in Hitc.
    rewrite candidate_numbered in Hitc, Hnone' by done.
    unfold src in Hitc, Hnone'. rewrite path_name_child in Hitc, Hnone'.
    eexists _, prefix, k, data.
    split_and!; [done | done | lia | done | done | done].
Qed.

(** Two passes in copy mode. *)
Lemma second_pass_numbered (cfg : config) (d : path)
    (names1 names2 before1 after1 before2 after2 : list pystr)
    (name : pystr) (s s1 s2 sa sb sc : state) (code1 code2 : N) :
  mode cfg = lit "copy" →
  main re_search cfg d names1 s = Some (Ret code1, s1) →
  main re_search cfg d names2 s1 = Some (Ret code2, s2) →
  names1 = before1 ++ name :: after1 →
  for_each re_search cfg d before1
    (mk_state (st_fs s) (st_log s ++ [msg_start cfg]) 0 0 0)
  = Some (Ret tt, sa) →
  iteration re_search cfg d name sa = Some (Ret tt, sb) →
  processed sb = (processed sa + 1)%N →
  names2 = before2 ++ name :: after2 →
  for_each re_search cfg d before2
    (mk_state (st_fs s1) (st_log s1 ++ [msg_start cfg]) 0 0 0)
  = Some (Ret tt, sc) →
  ∃ sd prefix k data,
    iteration re_search cfg d name sc = Some (Ret tt, sd)
    ∧ processed sd = (processed sc + 1)%N
    ∧ (1 ≤ k)%N
    ∧ node_at (st_fs sa) (resolve d ++ [name]) = Some (File data)
    ∧ st_fs sc !! (resolve (joinpath d prefix)
                   ++ [name_stem name ++ lit "(" ++ str_of_N k ++ lit ")"
                       ++ name_suffix name]) = None
    ∧ st_fs sd
      = <[resolve (joinpath d prefix)
          ++ [name_stem name ++ lit "(" ++ str_of_N k ++ lit ")"
              ++ name_suffix name] := File data]> (st_fs sc).
Proof.
  intros Hmode (s1' & Hrun1 & Hfs1)%main_loop _ -> Hbefore1 Hit Hproc ->
    Hbefore2.
  apply (second_round_numbered cfg d name sa sb sc Hmode Hit Hproc).
  intros p v Hp.
  eapply (for_each_copy_mono cfg d before2 Hmode); [done|]. simpl.
  rewrite Hfs1.
  rewrite (for_each_app re_search cfg d before1 (name :: after1) _ sa)
    in Hrun1 by done.
  simpl in Hrun1. unfold bind in Hrun1. rewrite Hit in Hrun1.
  by eapply (for_each_copy_mono cfg d after1 Hmode sb s1').
Qed.

End CopyMode.

(** * The placer, claim by claim *)

(** C3. The placer first makes sure of the directory: when [mkdir] raises,
    the placer raises the same and nothing has changed.  Then, for a regular
    file, it tries [dst_dir / name] and after that the numbered names
    [stem(1)suffix], [stem(2)suffix], ... in order, each against the file
    system, and returns the first candidate that does not exist, however
    far that is; the file is there afterwards.  Three files of one name
    placed into a directory that holds none of the names end up as
    [name], [stem(1)suffix] and [stem(2)suffix]. *)
Theorem safe_copy_or_move_first_free (dst_dir : path) (md : pystr)
    (fs : fsmap) :
  (∀ src e fs',
     mkdir_exist_ok dst_dir fs = Some (Raise e, fs') →
     safe_copy_or_move src dst_dir md fs = Some (Raise e, fs) ∧ fs' = fs)
  ∧ (∀ src data fs1,
       node_at fs (resolve src) = Some (File data) →
       regular_name (path_name src) →
       mkdir_exist_ok dst_dir fs = Some (Ret tt, fs1) →
       is_dir fs1 dst_dir = true
       ∧ candidate src 0 = path_name src
       ∧ (∀ j, j ≠ 0%N →
               candidate src j
               = path_stem src ++ lit "(" ++ str_of_N j ++ lit ")"
                 ++ path_suffix src)
       ∧ (∃ k fs2,
            safe_copy_or_move src dst_dir md fs
            = Some (Ret (joinpath dst_dir (candidate src k)), fs2)
            ∧ path_exists fs1 (joinpath dst_dir (candidate src k)) = false
            ∧ (∀ j, (j < k)%N →
                    path_exists fs1 (joinpath dst_dir (candidate src j))
                    = true)
            ∧ is_file fs2 (joinpath dst_dir (candidate src k)) = true)
       ∧ (∀ n,
            (∀ j, (j < n)%N →
                  path_exists fs1 (joinpath dst_dir (candidate src j))
                  = true) →
            path_exists fs1 (joinpath dst_dir (candidate src n)) = false →
            ∃ fs2, safe_copy_or_move src dst_dir md fs
                   = Some (Ret (joinpath dst_dir (candidate src n)), fs2)))
  ∧ (∀ s1 s2 s3 d1 d2 d3 name fs1,
       path_name s1 = name → path_name s2 = name → path_name s3 = name →
       regular_name name →
       node_at fs (resolve s1) = Some (File d1) →
       node_at fs (resolve s2) = Some (File d2) →
       node_at fs (resolve s3) = Some (File d3) →
       resolve s1 ≠ resolve s2 → resolve s1 ≠ resolve s3 →
       resolve s2 ≠ resolve s3 →
       mkdir_exist_ok dst_dir fs = Some (Ret tt, fs1) →
       (∀ k, (k < 3)%N →
             path_exists fs (joinpath dst_dir (candidate s1 k)) = false) →
       ∃ fsA fsB fsC,
         safe_copy_or_move s1 dst_dir md fs
         = Some (Ret (joinpath dst_dir name), fsA)
         ∧ safe_copy_or_move s2 dst_dir md fsA
           = Some (Ret (joinpath dst_dir (name_stem name ++ lit "(1)"
                                          ++ name_suffix name)), fsB)
         ∧ safe_copy_or_move s3 dst_dir md fsB
           = Some (Ret (joinpath dst_dir (name_stem name ++ lit "(2)"
                                          ++ name_suffix name)), fsC)).
Proof.
  split_and!.
  - intros src e fs' Hmk.
    pose proof (mkdir_exist_ok_Raise _ _ _ _ Hmk) as ->.
    unfold safe_copy_or_move, bind. by rewrite Hmk.
  - intros src data fs1 Hsrc Hreg Hmk.
    pose proof (mkdir_exist_ok_Ret _ _ _ Hmk) as [Hdir _].
    split_and!.
    + unfold is_dir. by rewrite Hdir.
    + done.
    + intros j Hj. by rewrite candidate_numbered.
    + destruct (safe_copy_or_move_file src dst_dir md fs data Hsrc Hreg)
        as [(e & Hmk' & _) | (fs1' & k & Hmk' & Hscm & Hnone & Hfree & Hbusy)];
        [congruence|].
      assert (fs1' = fs1) as -> by congruence.
      eexists k, _. split_and!; [done | done | done |].
      unfold is_file.
      rewrite resolve_joinpath by by apply candidate_regular.
      rewrite node_at_placed_eq; [done | by intros []%app_nil |].
      intros E. eapply node_at_mkdir_Some in Hsrc; [|done].
      rewrite <- E, node_at_child in Hsrc. congruence.
    + intros n Hbusy Hfree. eexists.
      by apply (safe_copy_or_move_at src dst_dir md fs fs1 data n).
  - intros s1 s2 s3 d1 d2 d3 name fs1. by apply three_same_named.
Qed.

Lemma safe_copy_or_move_first_free_witness :
  ∃ fsA fsB fsC,
    safe_copy_or_move [lit "a"; lit "x.xlsx"] [lit "out"] (lit "move")
      sample_sources
    = Some (Ret [lit "out"; lit "x.xlsx"], fsA)
    ∧ safe_copy_or_move [lit "b"; lit "x.xlsx"] [lit "out"] (lit "move") fsA
      = Some (Ret [lit "out"; lit "x(1).xlsx"], fsB)
    ∧ safe_copy_or_move [lit "c"; lit "x.xlsx"] [lit "out"] (lit "move") fsB
      = Some (Ret [lit "out"; lit "x(2).xlsx"], fsC).
Proof.
  destruct (safe_copy_or_move_first_free [lit "out"] (lit "move")
              sample_sources) as (_ & _ & H).
  apply (H [lit "a"; lit "x.xlsx"] [lit "b"; lit "x.xlsx"]
           [lit "c"; lit "x.xlsx"] [1%N] [2%N] [3%N] (lit "x.xlsx")
           (<[[lit "out"] := Dir]> sample_sources)).
  all: try reflexivity.
  - by split_and!.
  - by vm_compute.
  - by vm_compute.
  - by vm_compute.
  - intros k Hk.
    assert (k = 0 ∨ k = 1 ∨ k = 2)%N as [-> | [-> | ->]] by lia; reflexivity.
Defined.
(** * The pipeline, claim by claim *)

Section PipelineClaims.
Variable re_search : regex_engine.

(** C6. An entry is worked on exactly when it is a regular file whose
    lower-cased extension is a spreadsheet extension and whose name is
    neither the configuration file's nor the log's.  Any other entry
    leaves the counters, the log and the file system as they are; an entry
    of that kind moves one counter and adds one record. *)
Theorem ineligible_ignored (cfg : config) (app_dir : path) (name : pystr)
    (s : state) :
  let wanted :=
    is_file (st_fs s) (app_dir ++ [name]) = true
    ∧ lower (name_suffix name) ∈ EXCEL_EXTS
    ∧ name ≠ CONFIG_FILENAME ∧ name ≠ LOG_FILENAME in
  (wanted ↔ eligible (st_fs s) (app_dir ++ [name]) = true)
  ∧ (¬ wanted → iteration re_search cfg app_dir name s = Some (Ret tt, s))
  ∧ (wanted →
     ∃ s' record,
       iteration re_search cfg app_dir name s = Some (Ret tt, s')
       ∧ tally s' = (tally s + 1)%N
       ∧ st_log s' = st_log s ++ [record]).
Proof.
  intros wanted.
  assert (wanted ↔ eligible (st_fs s) (app_dir ++ [name]) = true) as Hw.
  { unfold wanted, eligible, path_suffix. rewrite path_name_child.
    rewrite !andb_true_iff, negb_true_iff, bool_decide_eq_true,
      bool_decide_eq_false, !elem_of_cons, elem_of_nil.
    tauto. }
  destruct (iteration_visit re_search cfg app_dir name s) as (s' & Hit & Hv).
  pose proof (visit_tally _ _ _ _ _ _ Hv) as Ht.
  apply visit_counters in Hv.
  split_and!; [done | |].
  - intros Hn. rewrite Hw in Hn. apply not_true_is_false in Hn.
    rewrite Hn in Hv. by subst.
  - intros Hy. apply Hw in Hy. rewrite Hy in Hv, Ht.
    destruct Hv as [_ [r Hr]]. by exists s', r.
Qed.




(** C10. The sentinel is the string [UNGROUPED].  An eligible file
    without a key, when such files are not skipped and the trimmed stem is
    empty, is sent to [app_dir / "UNGROUPED"]: the placer is called with
    that directory and, whenever the directory is there or can be made, the
    file lands inside it and the record of the round names the folder
    [UNGROUPED]. *)
Theorem sentinel_is_UNGROUPED (cfg : config) (app_dir : path) (name : pystr)
    (s : state) :
  eligible (st_fs s) (app_dir ++ [name]) = true →
  extract_prefix re_search name cfg = Ret None →
  skip_if_no_prefix cfg = false →
  strip (name_stem name) = [] →
  let folder := lit "UNGROUPED" in
  iteration re_search cfg app_dir name s
  = match safe_copy_or_move (app_dir ++ [name]) (app_dir ++ [folder])
            (mode cfg) (st_fs s) with
    | Some (Ret _, fs') =>
        Some (Ret tt,
              mk_state fs' (st_log s ++ [msg_done name folder])
                       (processed s + 1) (skipped s) (errors s))
    | Some (Raise e, fs') =>
        Some (Ret tt,
              mk_state fs' (st_log s ++ [msg_error name e])
                       (processed s) (skipped s) (errors s + 1))
    | None => None
    end
  ∧ ∀ fs1,
      mkdir_exist_ok (app_dir ++ [folder]) (st_fs s) = Some (Ret tt, fs1) →
      ∃ s' k data,
        iteration re_search cfg app_dir name s = Some (Ret tt, s')
        ∧ processed s' = (processed s + 1)%N
        ∧ st_log s' = st_log s ++ [msg_done name folder]
        ∧ node_at (st_fs s) (resolve (app_dir ++ [name])) = Some (File data)
        ∧ is_dir (st_fs s') (app_dir ++ [folder]) = true
        ∧ st_fs s' !! (resolve app_dir
                       ++ [folder; candidate (app_dir ++ [name]) k])
          = Some (File data).
Proof.
  intros El Hkey Hskip Hblank folder.
  assert (regular_name folder) as Hfolder by (by split_and!).
  pose proof (no_key_skip_or_fallback_aux re_search cfg app_dir name s El Hkey
                Hskip) as Hit.
  rewrite Hblank in Hit. simpl in Hit. change UNGROUPED with folder in Hit.
  rewrite (joinpath_regular app_dir folder Hfolder), path_name_child in Hit.
  split; [done|]. intros fs1 Hmk.
  destruct (eligible_file _ _ _ El) as (Hreg & data & Hdata).
  rewrite <- resolve_child in Hdata by done.
  destruct (safe_copy_or_move_file (app_dir ++ [name]) (app_dir ++ [folder])
              (mode cfg) (st_fs s) data Hdata)
    as [(e & Hmk' & _) | (fs1' & k & Hmk' & Hscm & Hnone & _)];
    [by rewrite path_name_child | congruence |].
  assert (fs1' = fs1) as -> by congruence.
  rewrite Hscm in Hit.
  rewrite (resolve_child app_dir folder Hfolder) in *.
  pose proof (mkdir_exist_ok_Ret _ _ _ Hmk) as [Hdir _].
  rewrite (resolve_child app_dir folder Hfolder) in Hdir.
  pose proof (node_at_mkdir_Some _ _ _ _ _ Hmk Hdata) as Hdata1.
  eexists _, k, data. split_and!; [done | done | done | done | |]; simpl.
  - unfold is_dir. rewrite (resolve_child app_dir folder Hfolder).
    rewrite node_at_placed_ne; [by rewrite Hdir | congruence |].
    intros E. apply (f_equal length) in E. rewrite !length_app in E.
    simpl in E. lia.
  - replace (resolve app_dir ++ [folder; candidate (app_dir ++ [name]) k])
      with ((resolve app_dir ++ [folder]) ++ [candidate (app_dir ++ [name]) k])
      by (by rewrite <- app_assoc).
    rewrite <- node_at_child.
    apply node_at_placed_eq; [by intros []%app_nil|].
    intros E. rewrite <- E, node_at_child in Hdata1. congruence.
Qed.




End PipelineClaims.

(** * Copy and move, claim by claim *)

Section CopyMoveClaims.
Variable re_search : regex_engine.

(** C9. A placement in copy mode leaves the source where it was, with its
    data, and changes no node that was there; a placement in any other mode
    removes the source.  In both modes the data is at the returned path,
    which did not exist before.  Two passes of [main] in copy mode: every
    node of the file system before the first pass is still there, unchanged,
    after each of them, so nothing is overwritten; and a file that the first
    pass has placed is placed by the second pass under a numbered name. *)
Theorem copy_keeps_move_removes (cfg : config) (app_dir : path) :
  (∀ src dst_dir fs data dst fs2,
     node_at fs (resolve src) = Some (File data) →
     regular_name (path_name src) →
     safe_copy_or_move src dst_dir (lit "copy") fs = Some (Ret dst, fs2) →
     node_at fs2 (resolve src) = Some (File data)
     ∧ node_at fs2 (resolve dst) = Some (File data)
     ∧ path_exists fs dst = false
     ∧ ∀ p v, node_at fs p = Some v → node_at fs2 p = Some v)
  ∧ (∀ src dst_dir md fs data dst fs2,
       md ≠ lit "copy" →
       node_at fs (resolve src) = Some (File data) →
       regular_name (path_name src) →
       safe_copy_or_move src dst_dir md fs = Some (Ret dst, fs2) →
       node_at fs2 (resolve src) = None
       ∧ node_at fs2 (resolve dst) = Some (File data)
       ∧ path_exists fs dst = false)
  ∧ (mode cfg = lit "copy" →
     ∀ names1 names2 s s1 s2 code1 code2,
       main re_search cfg app_dir names1 s = Some (Ret code1, s1) →
       main re_search cfg app_dir names2 s1 = Some (Ret code2, s2) →
       (∀ p v, node_at (st_fs s) p = Some v →
               node_at (st_fs s1) p = Some v ∧ node_at (st_fs s2) p = Some v)
       ∧ (∀ p v, node_at (st_fs s1) p = Some v →
                 node_at (st_fs s2) p = Some v)
       ∧ ∀ before1 after1 before2 after2 name sa sb sc,
           names1 = before1 ++ name :: after1 →
           for_each re_search cfg app_dir before1
             (mk_state (st_fs s) (st_log s ++ [msg_start cfg]) 0 0 0)
           = Some (Ret tt, sa) →
           iteration re_search cfg app_dir name sa = Some (Ret tt, sb) →
           processed sb = (processed sa + 1)%N →
           names2 = before2 ++ name :: after2 →
           for_each re_search cfg app_dir before2
             (mk_state (st_fs s1) (st_log s1 ++ [msg_start cfg]) 0 0 0)
           = Some (Ret tt, sc) →
           ∃ sd prefix k data,
             iteration re_search cfg app_dir name sc = Some (Ret tt, sd)
             ∧ processed sd = (processed sc + 1)%N
             ∧ (1 ≤ k)%N
             ∧ node_at (st_fs sa) (resolve app_dir ++ [name])
               = Some (File data)
             ∧ st_fs sc !! (resolve (joinpath app_dir prefix)
                            ++ [name_stem name ++ lit "(" ++ str_of_N k
                                ++ lit ")" ++ name_suffix name]) = None
             ∧ st_fs sd
               = <[resolve (joinpath app_dir prefix)
                   ++ [name_stem name ++ lit "(" ++ str_of_N k ++ lit ")"
                       ++ name_suffix name] := File data]> (st_fs sc)).
Proof.
  assert (∀ src dst_dir md fs data dst fs2,
    node_at fs (resolve src) = Some (File data) →
    regular_name (path_name src) →
    safe_copy_or_move src dst_dir md fs = Some (Ret dst, fs2) →
    ∃ fs1 t,
      t = resolve dst ∧ t ≠ [] ∧ t ≠ resolve src
      ∧ fs2 = placed md (resolve src) t data fs1
      ∧ node_at fs1 (resolve src) = Some (File data)
      ∧ path_exists fs dst = false) as Hplaced.
  { intros src dst_dir md fs data dst fs2 Hsrc Hreg Hscm.
    destruct (safe_copy_or_move_file src dst_dir md fs data Hsrc Hreg)
      as [(e & _ & Hscm') | (fs1 & k & Hmk & Hscm' & Hnone & _)];
      rewrite Hscm in Hscm'; simplify_eq.
    pose proof (node_at_mkdir_Some _ _ _ _ _ Hmk Hsrc) as Hsrc1.
    assert (resolve (joinpath dst_dir (candidate src k))
            = resolve dst_dir ++ [candidate src k]) as Hres
      by by apply resolve_joinpath, candidate_regular.
    exists fs1, (resolve dst_dir ++ [candidate src k]).
    split_and!; [done | by intros []%app_nil | | done | done |].
    - intros E. rewrite E in Hnone.
      pose proof (node_at_File _ _ _ Hsrc1) as [_ ?]. congruence.
    - unfold path_exists. rewrite Hres.
      destruct (node_at fs (resolve dst_dir ++ [candidate src k])) as [v|]
        eqn:E; [|done].
      eapply node_at_mkdir_Some in E; [|done].
      rewrite node_at_child in E. congruence. }
  split_and!.
  - intros src dst_dir fs data dst fs2 Hsrc Hreg Hscm.
    destruct (Hplaced _ _ _ _ _ _ _ Hsrc Hreg Hscm)
      as (fs1 & t & <- & Ht & Hts & -> & Hsrc1 & Hnew).
    split_and!; [| by apply node_at_placed_eq | done
                 | by eapply safe_copy_or_move_copy_mono].
    unfold placed. simpl. by rewrite node_at_insert_ne.
  - intros src dst_dir md fs data dst fs2 Hmd Hsrc Hreg Hscm.
    destruct (Hplaced _ _ _ _ _ _ _ Hsrc Hreg Hscm)
      as (fs1 & t & <- & Ht & Hts & -> & Hsrc1 & Hnew).
    split_and!; [| by apply node_at_placed_eq | done].
    unfold placed. rewrite bool_decide_eq_false_2 by done.
    apply node_at_File in Hsrc1 as [Hne _].
    rewrite node_at_lookup by done. apply lookup_delete_eq.
  - intros Hmode names1 names2 s s1 s2 code1 code2 Hmain1 Hmain2.
    pose proof (main_copy_mono re_search cfg app_dir names1 s s1 code1
                  Hmode Hmain1) as Hmono1.
    pose proof (main_copy_mono re_search cfg app_dir names2 s1 s2 code2
                  Hmode Hmain2) as Hmono2.
    split_and!; [by eauto | done |].
    intros before1 after1 before2 after2 name sa sb sc.
    by apply (second_pass_numbered re_search cfg app_dir names1 names2
                before1 after1 before2 after2 name s s1 s2 sa sb sc
                code1 code2).
Qed.

End CopyMoveClaims.

(** * The claims at the sample data *)


Lemma ineligible_ignored_witness :
  iteration sample_engine DEFAULT_CONFIG sample_dir (lit "readme.txt")
    sample_state = Some (Ret tt, sample_state)
  ∧ ∃ s' record,
      iteration sample_engine DEFAULT_CONFIG sample_dir (lit "notes.xlsx")
        sample_state = Some (Ret tt, s')
      ∧ tally s' = (tally sample_state + 1)%N
      ∧ st_log s' = st_log sample_state ++ [record].
Proof.
  pose proof (ineligible_ignored sample_engine DEFAULT_CONFIG sample_dir
                (lit "readme.txt") sample_state) as (_ & Hno & _).
  pose proof (ineligible_ignored sample_engine DEFAULT_CONFIG sample_dir
                (lit "notes.xlsx") sample_state) as (_ & _ & Hyes).
  split.
  - apply Hno. intros (_ & Hext & _). revert Hext.
    apply (bool_decide_unpack _). by vm_compute.
  - apply Hyes. split_and!.
    + by vm_compute.
    + apply (bool_decide_unpack _). by vm_compute.
    + by vm_compute.
    + by vm_compute.
Defined.


Lemma sentinel_is_UNGROUPED_witness :
  ∃ s' k data,
    iteration sample_engine DEFAULT_CONFIG sample_dir (lit " .XLSX")
      sample_state = Some (Ret tt, s')
    ∧ st_log s' = [lit "DONE |  .XLSX -> UNGROUPED/"]
    ∧ st_fs s' !! (sample_dir
                   ++ [lit "UNGROUPED";
                       candidate (sample_dir ++ [lit " .XLSX"]) k])
      = Some (File data).
Proof.
  destruct (sentinel_is_UNGROUPED sample_engine DEFAULT_CONFIG sample_dir
              (lit " .XLSX") sample_state) as [_ H];
    [vm_compute; reflexivity | vm_compute; reflexivity
     | vm_compute; reflexivity | vm_compute; reflexivity |].
  destruct (H (<[resolve (sample_dir ++ [lit "UNGROUPED"]) := Dir]>
                sample_fs))
    as (s' & k & data & Hit & _ & Hlog & _ & _ & Hfile).
  { apply mkdir_exist_ok_new; vm_compute; reflexivity. }
  exists s', k, data. split_and!; [exact Hit | exact Hlog | exact Hfile].
Defined.



Lemma copy_keeps_move_removes_witness :
  (∃ fs2,
     safe_copy_or_move [lit "a"; lit "x.xlsx"] [lit "out"] (lit "copy")
       sample_sources = Some (Ret [lit "out"; lit "x.xlsx"], fs2)
     ∧ node_at fs2 [lit "a"; lit "x.xlsx"] = Some (File [1%N])
     ∧ node_at fs2 [lit "out"; lit "x.xlsx"] = Some (File [1%N]))
  ∧ (∃ fs2,
       safe_copy_or_move [lit "a"; lit "x.xlsx"] [lit "out"] (lit "move")
         sample_sources = Some (Ret [lit "out"; lit "x.xlsx"], fs2)
       ∧ node_at fs2 [lit "a"; lit "x.xlsx"] = None
       ∧ node_at fs2 [lit "out"; lit "x.xlsx"] = Some (File [1%N]))
  ∧ ∃ sc sd prefix k data,
      iteration sample_engine sample_copy_config sample_dir
        (lit "report_jan.xlsx") sc = Some (Ret tt, sd)
      ∧ (1 ≤ k)%N
      ∧ st_fs sd
        = <[resolve (joinpath sample_dir prefix)
            ++ [name_stem (lit "report_jan.xlsx") ++ lit "(" ++ str_of_N k
                ++ lit ")" ++ name_suffix (lit "report_jan.xlsx")]
            := File data]> (st_fs sc).
Proof.
  destruct (copy_keeps_move_removes sample_engine sample_copy_config
              sample_dir) as (Hcopy & Hmove & Htwice).
  assert (∀ md,
    safe_copy_or_move [lit "a"; lit "x.xlsx"] [lit "out"] md sample_sources
    = Some (Ret [lit "out"; lit "x.xlsx"],
            placed md [lit "a"; lit "x.xlsx"] [lit "out"; lit "x.xlsx"]
              [1%N] (<[[lit "out"] := Dir]> sample_sources))) as Hscm.
  { intros md.
    apply (safe_copy_or_move_at [lit "a"; lit "x.xlsx"] [lit "out"] md
             sample_sources (<[[lit "out"] := Dir]> sample_sources)
             [1%N] 0).
    - vm_compute; reflexivity.
    - by split_and!.
    - apply (mkdir_exist_ok_new [lit "out"]); vm_compute; reflexivity.
    - intros j Hj. lia.
    - vm_compute; reflexivity. }
  split_and!.
  - destruct (Hcopy [lit "a"; lit "x.xlsx"] [lit "out"] sample_sources
                [1%N] [lit "out"; lit "x.xlsx"] _
                ltac:(vm_compute; reflexivity) ltac:(by split_and!)
                (Hscm (lit "copy")))
      as (Hsrc & Hdst & _).
    eexists. split_and!; [exact (Hscm (lit "copy")) | exact Hsrc
                          | exact Hdst].
  - destruct (Hmove [lit "a"; lit "x.xlsx"] [lit "out"] (lit "move")
                sample_sources [1%N] [lit "out"; lit "x.xlsx"] _
                ltac:(by vm_compute) ltac:(vm_compute; reflexivity)
                ltac:(by split_and!) (Hscm (lit "move")))
      as (Hsrc & Hdst & _).
    eexists. split_and!; [exact (Hscm (lit "move")) | exact Hsrc
                          | exact Hdst].
  - pose proof (main_state_after sample_engine sample_copy_config sample_dir
                  [lit "notes.xlsx"; lit "report_jan.xlsx"] sample_state)
      as M1.
    match type of M1 with
    | _ = Some (_, ?s1) =>
        pose proof (main_state_after sample_engine sample_copy_config
                      sample_dir [lit "notes.xlsx"; lit "report_jan.xlsx"]
                      s1) as M2;
        pose proof (for_each_state_after sample_engine sample_copy_config
                      sample_dir [lit "notes.xlsx"]
                      (mk_state (st_fs s1)
                         (st_log s1 ++ [msg_start sample_copy_config])
                         0 0 0)) as H4
    end.
    pose proof (for_each_state_after sample_engine sample_copy_config
                  sample_dir [lit "notes.xlsx"]
                  (mk_state (st_fs sample_state)
                     (st_log sample_state ++ [msg_start sample_copy_config])
                     0 0 0)) as H1.
    match type of H1 with
    | _ = Some (_, ?sa) =>
        pose proof (iteration_state_after sample_engine sample_copy_config
                      sample_dir (lit "report_jan.xlsx") sa) as H2
    end.
    match type of H2 with
    | iteration _ _ _ _ ?sa = Some (_, ?sb) =>
        assert (processed sb = (processed sa + 1)%N) as H3
          by (vm_compute; reflexivity)
    end.
    match type of M1 with
    | main _ _ _ ?n ?s = Some (Ret ?c1, ?s1) =>
        match type of M2 with
        | _ = Some (Ret ?c2, ?s2) =>
            pose proof (Htwice eq_refl n n s s1 s2 c1 c2 M1 M2)
              as (_ & _ & Hsecond)
        end
    end.
    match type of H2 with
    | iteration _ _ _ _ ?sa = Some (_, ?sb) =>
        match type of H4 with
        | _ = Some (_, ?sc) =>
            pose proof (Hsecond [lit "notes.xlsx"] [] [lit "notes.xlsx"] []
                          (lit "report_jan.xlsx") sa sb sc eq_refl H1 H2 H3
                          eq_refl H4)
              as (sd & prefix & k & data & Hit & _ & Hk & _ & _ & Hfs);
            exists sc, sd, prefix, k, data
        end
    end.
    split_and!; [exact Hit | exact Hk | exact Hfs].
Defined.

(** * More on the prefix extractor *)

Lemma lstrip_fixed (s : pystr) :
  (∀ c, head s = Some c → isspace c = false) → lstrip s = s.
Proof.
  destruct s as [|c s]; [done|]. intros H. simpl.
  by rewrite (H c eq_refl).
Qed.

Lemma strip_fixed (s : pystr) :
  (∀ c, head s = Some c → isspace c = false) →
  (∀ c, last s = Some c → isspace c = false) →
  strip s = s.
Proof.
  intros Hh Hl. unfold strip, rstrip. rewrite (lstrip_fixed s Hh).
  rewrite lstrip_fixed; [apply reverse_involutive|].
  intros c Hc. apply Hl. by rewrite <- head_reverse.
Qed.

Lemma strip_idemp (s : pystr) : strip (strip s) = strip s.
Proof.
  destruct (strip_spec s) as (l & r & _ & _ & _ & Hh & Hl).
  by apply strip_fixed.
Qed.

Lemma or_none_Some (s k : pystr) : or_none s = Some k → k = s ∧ s ≠ [].
Proof. destruct s; [done|]. by intros [= <-]. Qed.

Section ExtractorMore.
Variable re_search : regex_engine.

(** A key is the trimmed form of a string, and is not empty. *)
Lemma extract_prefix_Some (f : pystr) (cfg : config) (k : pystr) :
  extract_prefix re_search f cfg = Ret (Some k) →
  k ≠ [] ∧ ∃ x, k = strip x.
Proof.
  unfold extract_prefix. destruct (use_regex cfg).
  - destruct (re_search (regex_pattern cfg) (filename_stem f))
      as [[[| |g]|]|e]; simpl; try done.
    destruct (strip g) as [|c t] eqn:E; simpl; [done|].
    intros [= <-]. split; [done|]. by exists g.
  - destruct (negb (bool_decide (delimiter cfg = []))
              && contains (filename_stem f) (delimiter cfg)).
    + unfold split1. destruct (delimiter cfg) as [|c delim]; [done|].
      destruct (find (filename_stem f) (c :: delim)) as [i|]; simpl.
      * intros [= [-> ?]%or_none_Some]. eauto.
      * intros [= [-> ?]%or_none_Some]. eauto.
    + intros [= [-> ?]%or_none_Some]. eauto.
Qed.

(** X1. [extract_prefix] never raises, whatever the string and the
    configuration: in regex mode the handler turns every exception into
    [None], and in delimiter mode the test [delim and delim in base] keeps
    [str.split] away from an empty separator, which it rejects with
    [ValueError]; the key is then the trimmed stem [Path(f).stem]. *)
Theorem extract_prefix_never_raises (f : pystr) (cfg : config) :
  (∃ key, extract_prefix re_search f cfg = Ret key)
  ∧ (use_regex cfg = false → delimiter cfg = [] →
     (∃ e, split1 (filename_stem f) (delimiter cfg) = Raise e)
     ∧ extract_prefix re_search f cfg
       = Ret (or_none (strip (filename_stem f)))).
Proof.
  split; [apply extract_prefix_Ret|].
  intros Hmode Hdelim. unfold extract_prefix.
  rewrite Hmode, Hdelim. simpl. eauto.
Qed.

(** X2. A key that [extract_prefix] returns is never empty and never
    starts or ends with white space; trimming it again changes nothing. *)
Theorem extract_prefix_key_trimmed (f : pystr) (cfg : config) (k : pystr) :
  extract_prefix re_search f cfg = Ret (Some k) →
  k ≠ []
  ∧ (∀ c, head k = Some c → isspace c = false)
  ∧ (∀ c, last k = Some c → isspace c = false)
  ∧ strip k = k.
Proof.
  intros (Hne & x & ->)%extract_prefix_Some.
  destruct (strip_spec x) as (l & r & _ & _ & _ & Hh & Hl).
  split_and!; [done | done | done | apply strip_idemp].
Qed.

(** X3. In delimiter mode, for every string [f], the key is a part of the
    stem [Path(f).stem], in one piece, and a delimiter that is not empty
    does not occur in it. *)
Theorem extract_prefix_key_in_stem (f : pystr) (cfg : config) (k : pystr) :
  use_regex cfg = false →
  extract_prefix re_search f cfg = Ret (Some k) →
  (∃ l r, filename_stem f = l ++ k ++ r)
  ∧ (delimiter cfg ≠ [] → contains k (delimiter cfg) = false).
Proof.
  intros Hmode. unfold extract_prefix. rewrite Hmode.
  destruct (decide (delimiter cfg = [])) as [Hd|Hd].
  { rewrite Hd. simpl. intros [= [-> ?]%or_none_Some].
    destruct (strip_spec (filename_stem f)) as (l & r & Hs & _).
    split; [eauto | done]. }
  rewrite bool_decide_eq_false_2 by done. simpl.
  destruct (contains (filename_stem f) (delimiter cfg)) eqn:Hc.
  - unfold split1. destruct (delimiter cfg) as [|c0 delim] eqn:Ed; [done|].
    destruct (find (filename_stem f) (c0 :: delim)) as [i|] eqn:F.
    2:{ apply contains_spec in Hc as (pre & post & Hc).
        by eapply find_None in F. }
    apply find_Some in F as (pre & post & Hpre & Hlen & Hmin).
    simpl. intros [= [-> ?]%or_none_Some].
    assert (take i (filename_stem f) = pre) as Htake
      by (by rewrite Hpre, <- Hlen, take_app_length).
    rewrite Htake in *.
    destruct (strip_spec pre) as (l & r & Hs & _).
    split.
    + exists l, (r ++ (c0 :: delim) ++ post).
      rewrite Hpre. rewrite Hs at 1. by rewrite <- !app_assoc.
    + intros _. apply not_true_is_false. intros Hk.
      apply contains_spec in Hk as (a & b & Hk).
      specialize (Hmin (l ++ a) (b ++ r ++ (c0 :: delim) ++ post)).
      assert (i ≤ length (l ++ a)) as Hle.
      { apply Hmin. rewrite Hpre. rewrite Hs at 1. rewrite Hk.
        by rewrite <- !app_assoc. }
      rewrite <- Hlen in Hle. rewrite Hs, Hk in Hle.
      rewrite !length_app in Hle. simpl in Hle. lia.
  - intros [= [-> ?]%or_none_Some].
    destruct (strip_spec (filename_stem f)) as (l & r & Hs & _).
    split; [eauto|]. intros _. apply not_true_is_false. intros Hk.
    apply contains_spec in Hk as (a & b & Hk).
    assert (contains (filename_stem f) (delimiter cfg) = true);
      [|congruence].
    apply contains_spec. exists (l ++ a), (b ++ r).
    rewrite Hs at 1. rewrite Hk. by rewrite <- !app_assoc.
Qed.

End ExtractorMore.

Lemma extract_prefix_key_trimmed_witness :
  lit "report" ≠ []
  ∧ strip (lit "report") = lit "report".
Proof.
  destruct (extract_prefix_key_trimmed sample_engine (lit "report_jan.xlsx")
              DEFAULT_CONFIG (lit "report")) as (H1 & _ & _ & H2);
    [vm_compute; reflexivity|].
  by split.
Defined.

Lemma extract_prefix_key_in_stem_witness :
  (∃ l r,
     filename_stem (lit "old/report_jan.xlsx") = l ++ lit "report" ++ r)
  ∧ contains (lit "report") (lit "_") = false.
Proof.
  destruct (extract_prefix_key_in_stem sample_engine
              (lit "old/report_jan.xlsx") DEFAULT_CONFIG (lit "report"))
    as (H1 & H2);
    [reflexivity | vm_compute; reflexivity |].
  split; [exact H1|]. apply H2. by vm_compute.
Defined.

(** * More on the placer *)

Lemma while_exists_more_fuel (fs : fsmap) (src d : path) (fuel : nat) :
  ∀ i dst r,
    while_exists fs src d fuel i dst = Some r →
    ∀ fuel', fuel ≤ fuel' → while_exists fs src d fuel' i dst = Some r.
Proof.
  induction fuel as [|fuel IH]; intros i dst r H fuel' Hle.
  - simpl in H. destruct fuel'; simpl; by destruct (path_exists fs dst).
  - destruct fuel' as [|fuel']; [lia|]. simpl in *.
    destruct (path_exists fs dst); [|done]. eapply IH; [done | lia].
Qed.

(** X4. The loop of [safe_copy_or_move] ends on every file system: there
    is a path that does not exist and that the loop returns as soon as it is
    given more rounds than the file system has nodes.  The bound of the
    model is no cap on the search. *)
Theorem while_exists_terminates (fs : fsmap) (src dst_dir : path) :
  ∃ dst,
    path_exists fs dst = false
    ∧ first_free src dst_dir fs = Some (Ret dst, fs)
    ∧ ∀ fuel, size fs < fuel →
        while_exists fs src dst_dir fuel 1
          (joinpath dst_dir (path_name src)) = Some dst.
Proof.
  destruct (while_exists_ends fs src dst_dir) as (k & Hw & Hfree & _).
  exists (joinpath dst_dir (candidate src k)). split_and!; [done | |].
  - unfold first_free. by rewrite Hw.
  - intros fuel Hfuel. eapply while_exists_more_fuel; [done | lia].
Qed.

Lemma resolve_joinpath_cases (d : path) (n : pystr) :
  resolve (joinpath d n) = resolve d
  ∨ resolve (joinpath d n) = removelast (resolve d)
  ∨ (resolve (joinpath d n) = resolve d ++ [n] ∧ regular_name n).
Proof.
  unfold joinpath.
  destruct (decide (n = [])) as [->|H0]; [by left|].
  destruct (decide (n = lit ".")) as [->|H1]; [by left|].
  rewrite !bool_decide_eq_false_2 by done. simpl.
  rewrite resolve_snoc. unfold step.
  destruct (decide (n = lit "..")) as [->|H2]; [by right; left|].
  rewrite !bool_decide_eq_false_2 by done. right; right. by split_and!.
Qed.

(** X5. The places that the loop tests are pairwise different: the plain
    name and the numbered names never resolve to the same path, so no place
    is tested twice. *)
Theorem candidates_distinct (src dst_dir : path) (i j : N) :
  i ≠ j →
  resolve (joinpath dst_dir (candidate src i))
  ≠ resolve (joinpath dst_dir (candidate src j)).
Proof.
  assert (∀ a : N, a ≠ 0%N →
    resolve (joinpath dst_dir (candidate src 0))
    ≠ resolve (joinpath dst_dir (candidate src a))) as Hzero.
  { intros a Ha. unfold candidate at 2.
    rewrite bool_decide_eq_false_2 by done.
    rewrite (resolve_joinpath dst_dir (numbered src a))
      by apply numbered_regular.
    intros E.
    destruct (resolve_joinpath_cases dst_dir (candidate src 0))
      as [H|[H|[H _]]]; rewrite H in E.
    - apply (f_equal length) in E. rewrite length_app in E. simpl in E. lia.
    - apply (f_equal length) in E. rewrite length_app in E. simpl in E.
      destruct (resolve dst_dir) as [|c l] using rev_ind; [done|].
      rewrite removelast_last, length_app in E. simpl in E. lia.
    - apply app_inj_tail in E as [_ E].
      pose proof (numbered_longer src a) as Hl.
      rewrite candidate_0 in E. rewrite <- E in Hl. lia. }
  intros Hij.
  destruct (decide (i = 0%N)) as [->|Hi]; [by apply Hzero|].
  destruct (decide (j = 0%N)) as [->|Hj];
    [by apply not_eq_sym, Hzero|].
  unfold candidate. rewrite !bool_decide_eq_false_2 by done.
  rewrite !resolve_joinpath by apply numbered_regular.
  intros [_ E]%app_inj_tail. by apply numbered_inj in E.
Qed.

Lemma candidates_distinct_witness :
  bool_decide
    (resolve (joinpath [lit "out"] (candidate [lit "a"; lit "x.xlsx"] 0))
     = resolve (joinpath [lit "out"] (candidate [lit "a"; lit "x.xlsx"] 1)))
  = false.
Proof.
  apply bool_decide_eq_false_2.
  apply (candidates_distinct [lit "a"; lit "x.xlsx"] [lit "out"] 0 1).
  lia.
Defined.

(** ** The numbered names keep the extension *)

Lemma rfind_range (s : pystr) (c : N) :
  (-1 ≤ rfind s c < Z.of_nat (length s))%Z.
Proof.
  induction s as [|a s IH]; simpl; [lia|].
  destruct (0 <=? rfind s c)%Z eqn:E; [lia|].
  case_bool_decide; lia.
Qed.

Lemma rfind_app (a b : pystr) (c : N) :
  rfind (a ++ b) c
  = if (0 <=? rfind b c)%Z then (Z.of_nat (length a) + rfind b c)%Z
    else rfind a c.
Proof.
  induction a as [|x a IH]; simpl.
  - destruct (0 <=? rfind b c)%Z eqn:E; [lia|].
    pose proof (rfind_range b c). lia.
  - rewrite IH. pose proof (rfind_range b c).
    destruct (0 <=? rfind b c)%Z eqn:E.
    + rewrite (proj2 (Z.leb_le _ _)) by lia. lia.
    + done.
Qed.

Lemma rfind_drop (s : pystr) (c : N) :
  (0 ≤ rfind s c)%Z → rfind (drop (Z.to_nat (rfind s c)) s) c = 0%Z.
Proof.
  induction s as [|a s IH]; simpl; [lia|].
  destruct (0 <=? rfind s c)%Z eqn:E.
  - intros _. apply Z.leb_le in E.
    replace (Z.to_nat (rfind s c + 1)) with (S (Z.to_nat (rfind s c))) by lia.
    simpl. by apply IH.
  - case_bool_decide as Ha; [|lia]. intros _. simpl.
    rewrite E. by rewrite bool_decide_eq_true_2.
Qed.

(** A suffix starts at the last dot of the name and is longer than the
    dot. *)
Lemma name_suffix_last_dot (n : pystr) :
  name_suffix n ≠ [] →
  rfind (name_suffix n) dot = 0%Z ∧ 2 ≤ length (name_suffix n).
Proof.
  unfold name_suffix, splits_at.
  destruct ((0 <? rfind n dot)%Z && (rfind n dot <? Z.of_nat (length n) - 1)%Z)
    eqn:E; [|done].
  intros _. apply andb_true_iff in E as [E1%Z.ltb_lt E2%Z.ltb_lt]. split.
  - apply rfind_drop. lia.
  - rewrite length_drop. lia.
Qed.

(** In front of a suffix, a string that is not empty is the stem. *)
Lemma name_split_app (a sfx : pystr) :
  a ≠ [] → rfind sfx dot = 0%Z → 2 ≤ length sfx →
  name_suffix (a ++ sfx) = sfx ∧ name_stem (a ++ sfx) = a.
Proof.
  intros Ha Hr Hl. unfold name_suffix, name_stem, splits_at.
  rewrite rfind_app, Hr. simpl. rewrite length_app.
  assert (0 < length a) by (destruct a; [done | simpl; lia]).
  rewrite Z.add_0_r.
  rewrite (proj2 (Z.ltb_lt _ _)), (proj2 (Z.ltb_lt _ _)) by lia. simpl.
  rewrite Nat2Z.id. by rewrite drop_app_length, take_app_length.
Qed.

(** X6. A numbered name keeps the extension of the source: when the name
    of the source has a suffix, every name that the placer tries has that
    suffix, and the number stands at the end of the stem.  A spreadsheet is
    a spreadsheet again under the name it lands on. *)
Theorem candidate_keeps_suffix (src : path) (k : N) :
  path_suffix src ≠ [] →
  name_suffix (candidate src k) = path_suffix src
  ∧ (k ≠ 0%N →
     name_stem (candidate src k)
     = path_stem src ++ lit "(" ++ str_of_N k ++ lit ")")
  ∧ (lower (name_suffix (candidate src k)) ∈ EXCEL_EXTS
     ↔ lower (path_suffix src) ∈ EXCEL_EXTS).
Proof.
  intros Hs. destruct (name_suffix_last_dot _ Hs) as [Hr Hl].
  assert (name_suffix (candidate src k) = path_suffix src
          ∧ (k ≠ 0%N →
             name_stem (candidate src k)
             = path_stem src ++ lit "(" ++ str_of_N k ++ lit ")"))
    as [E1 E2].
  { unfold candidate. case_bool_decide as Hk; [done|].
    unfold numbered.
    replace (path_stem src ++ lit "(" ++ str_of_N k ++ lit ")"
             ++ path_suffix src)
      with ((path_stem src ++ lit "(" ++ str_of_N k ++ lit ")")
            ++ path_suffix src) by (by rewrite <- !app_assoc).
    destruct (name_split_app
                (path_stem src ++ lit "(" ++ str_of_N k ++ lit ")")
                (path_suffix src)) as [-> ->]; try done.
    by destruct (path_stem src). }
  split_and!; [done | done | by rewrite E1].
Qed.

Lemma candidate_keeps_suffix_witness :
  name_suffix (candidate [lit "a"; lit "x.tar.xlsx"] 2) = lit ".xlsx"
  ∧ name_stem (candidate [lit "a"; lit "x.tar.xlsx"] 2) = lit "x.tar(2)".
Proof.
  destruct (candidate_keeps_suffix [lit "a"; lit "x.tar.xlsx"] 2)
    as (H1 & H2 & _); [by vm_compute|].
  split; [exact H1|]. apply H2. lia.
Defined.

(** ** What the placer leaves alone *)

(** The placer on a regular file, by what it changes. *)
Lemma safe_copy_or_move_changes (src d : path) (md : pystr) (fs fs2 : fsmap)
    (data : list N) (r : res path) :
  node_at fs (resolve src) = Some (File data) →
  regular_name (path_name src) →
  safe_copy_or_move src d md fs = Some (r, fs2) →
  (∃ e, r = Raise e ∧ fs2 = fs)
  ∨ (∃ fs1 dst,
       r = Ret dst
       ∧ mkdir_exist_ok d fs = Some (Ret tt, fs1)
       ∧ node_at fs1 (resolve dst) = None
       ∧ resolve dst ≠ []
       ∧ resolve dst ≠ resolve src
       ∧ fs2 = placed md (resolve src) (resolve dst) data fs1).
Proof.
  intros Hsrc Hreg Hscm.
  destruct (safe_copy_or_move_file src d md fs data Hsrc Hreg)
    as [(e & _ & Hscm') | (fs1 & k & Hmk & Hscm' & Hnone & _)];
    rewrite Hscm in Hscm'; simplify_eq; [left; eauto|].
  right. exists fs1, (joinpath d (candidate src k)).
  rewrite resolve_joinpath by by apply candidate_regular.
  split_and!; try done.
  - by rewrite node_at_child.
  - by destruct (resolve d).
  - intros E. eapply node_at_mkdir_Some in Hsrc; [|done].
    rewrite <- E, node_at_child in Hsrc. congruence.
Qed.

(** X7. In both modes the placer overwrites nothing: a node that was
    there and is not the source is there after the call, unchanged, whether
    the call returns or raises.  And what a call that returns has added is
    the directory of the group, when it was not there, and the file at the
    path that the call returns, with the data of the source. *)
Theorem safe_copy_or_move_frame (src dst_dir : path) (md : pystr)
    (fs fs2 : fsmap) (data : list N) (r : res path) :
  node_at fs (resolve src) = Some (File data) →
  regular_name (path_name src) →
  safe_copy_or_move src dst_dir md fs = Some (r, fs2) →
  (∀ p v, node_at fs p = Some v → p ≠ resolve src → node_at fs2 p = Some v)
  ∧ (∀ dst, r = Ret dst →
       node_at fs2 (resolve dst_dir) = Some Dir
       ∧ node_at fs (resolve dst) = None
       ∧ node_at fs2 (resolve dst) = Some (File data)
       ∧ ∀ p v, node_at fs p = None → node_at fs2 p = Some v →
                (p = resolve dst_dir ∧ v = Dir)
                ∨ (p = resolve dst ∧ v = File data)).
Proof.
  intros Hsrc Hreg Hscm.
  destruct (safe_copy_or_move_changes _ _ _ _ _ _ _ Hsrc Hreg Hscm)
    as [(e & -> & ->) | (fs1 & dst & -> & Hmk & Hnone & Hne & Hds & ->)].
  { by split. }
  pose proof (mkdir_exist_ok_Ret _ _ _ Hmk) as [Hd _].
  assert (resolve dst ≠ resolve dst_dir) as Hdd by congruence.
  assert (node_at fs1 (resolve src) = Some (File data)) as Hsrc1
    by (by eapply node_at_mkdir_Some).
  split.
  - intros p v Hp Hps. rewrite node_at_placed_ne; [|done|].
    + by eapply node_at_mkdir_Some.
    + intros ->. eapply node_at_mkdir_Some in Hp; [|done]. congruence.
  - intros dst' [= <-]. split_and!.
    + rewrite node_at_placed_ne; [done | congruence | done].
    + destruct (node_at fs (resolve dst)) as [v|] eqn:E; [|done].
      eapply node_at_mkdir_Some in E; [|done]. congruence.
    + by apply node_at_placed_eq.
    + intros p v Hp Hp2. destruct (decide (p = resolve dst)) as [->|Hpd].
      * rewrite node_at_placed_eq in Hp2 by done. right. by simplify_eq.
      * assert (p ≠ resolve src) as Hps by (intros ->; congruence).
        rewrite node_at_placed_ne in Hp2 by done. left.
        destruct (decide (p = resolve dst_dir)) as [->|Hpdir].
        -- split; congruence.
        -- rewrite (node_at_mkdir _ _ _ _ Hmk Hpdir) in Hp2. congruence.
Qed.

Lemma safe_copy_or_move_frame_witness :
  ∃ fs2,
    safe_copy_or_move [lit "a"; lit "x.xlsx"] [lit "b"] (lit "move")
      sample_sources = Some (Ret [lit "b"; lit "x(1).xlsx"], fs2)
    ∧ node_at fs2 [lit "b"; lit "x.xlsx"] = Some (File [2%N])
    ∧ node_at fs2 [lit "c"; lit "x.xlsx"] = Some (File [3%N]).
Proof.
  assert (safe_copy_or_move [lit "a"; lit "x.xlsx"] [lit "b"] (lit "move")
            sample_sources
          = Some (Ret [lit "b"; lit "x(1).xlsx"],
                  placed (lit "move") [lit "a"; lit "x.xlsx"]
                    [lit "b"; lit "x(1).xlsx"] [1%N] sample_sources)) as H.
  { apply (safe_copy_or_move_at [lit "a"; lit "x.xlsx"] [lit "b"]
             (lit "move") sample_sources sample_sources [1%N] 1).
    - vm_compute; reflexivity.
    - by split_and!.
    - apply (mkdir_exist_ok_Dir [lit "b"]); vm_compute; reflexivity.
    - intros j Hj. assert (j = 0%N) as -> by lia. vm_compute; reflexivity.
    - vm_compute; reflexivity. }
  eexists. split; [exact H|].
  destruct (safe_copy_or_move_frame [lit "a"; lit "x.xlsx"] [lit "b"]
              (lit "move") sample_sources _ [1%N] _
              ltac:(vm_compute; reflexivity) ltac:(by split_and!) H)
    as (Hkeep & _).
  split; apply Hkeep; by vm_compute.
Defined.

(** * More on the pipeline *)

Section PipelineMore.
Variable re_search : regex_engine.

(** ** Nothing is lost *)

(** One round relocates the nodes of the file system without losing one:
    the relocation is injective, and only the file of the round moves. *)
Lemma visit_relocates (cfg : config) (d : path) (name : pystr)
    (s s' : state) :
  visit re_search cfg d name s s' →
  ∃ f : path → path,
    (∀ p v, node_at (st_fs s) p = Some v → node_at (st_fs s') (f p) = Some v)
    ∧ (∀ p q, is_Some (node_at (st_fs s) p) →
              is_Some (node_at (st_fs s) q) → f p = f q → p = q)
    ∧ (∀ p, node_at (st_fs s) p = Some Dir → f p = p).
Proof.
  intros Hv.
  destruct Hv as [Hel | key Hel _ _ | key prefix dst fs' Hel _ _ Hscm
                  | key prefix e fs' Hel _ _ Hscm]; simpl.
  1,2: by exists id.
  all: destruct (eligible_file _ _ _ Hel) as (Hreg & data & Hdata).
  all: assert (node_at (st_fs s) (resolve (d ++ [name])) = Some (File data))
         as Hd' by (by rewrite resolve_child).
  all: assert (regular_name (path_name (d ++ [name]))) as Hr'
         by (by rewrite path_name_child).
  all: destruct (safe_copy_or_move_changes _ _ _ _ _ _ _ Hd' Hr' Hscm)
         as [(e' & ? & ->) | (fs1 & dst' & ? & Hmk & Hnone & Hne & Hds & ->)];
         simplify_eq; try by exists id.
  all: rewrite resolve_child in * by done.
  set (src := resolve d ++ [name]) in *. set (t := resolve dst') in *.
  exists (λ p, if bool_decide (p = src) then t else p).
  assert (∀ p v, node_at (st_fs s) p = Some v → p ≠ t) as Hfree.
  { intros p v Hp ->. eapply node_at_mkdir_Some in Hp; [|done]. congruence. }
  split_and!.
  - intros p v Hp. case_bool_decide as E.
    + subst p. rewrite node_at_placed_eq by done. congruence.
    + rewrite node_at_placed_ne; [by eapply node_at_mkdir_Some | done |].
      by eapply Hfree.
  - intros p q [v Hp] [w Hq]. repeat case_bool_decide; try congruence.
    + intros <-. by apply Hfree in Hq.
    + intros ->. by apply Hfree in Hp.
  - intros p Hp. rewrite bool_decide_eq_false_2; [done|]. intros ->.
    congruence.
Qed.

Lemma for_each_relocates (cfg : config) (d : path) (names : list pystr) :
  ∀ s s', for_each re_search cfg d names s = Some (Ret tt, s') →
  ∃ f : path → path,
    (∀ p v, node_at (st_fs s) p = Some v → node_at (st_fs s') (f p) = Some v)
    ∧ (∀ p q, is_Some (node_at (st_fs s) p) →
              is_Some (node_at (st_fs s) q) → f p = f q → p = q)
    ∧ (∀ p, node_at (st_fs s) p = Some Dir → f p = p).
Proof.
  induction names as [|n names IH]; intros s s'; simpl.
  - intros [= ->]. by exists id.
  - unfold bind.
    destruct (iteration_visit re_search cfg d n s) as (s1 & -> & Hv).
    intros (g & Hg1 & Hg2 & Hg3)%IH.
    destruct (visit_relocates _ _ _ _ _ Hv) as (f & Hf1 & Hf2 & Hf3).
    exists (g ∘ f). simpl. split_and!.
    + intros p v Hp. by apply Hg1, Hf1.
    + intros p q [v Hp] [w Hq] E.
      apply Hf2; [by eexists | by eexists |].
      apply Hg2; [exists v; by apply Hf1 | exists w; by apply Hf1 | done].
    + intros p Hp. rewrite (Hf3 p Hp). apply Hg3.
      rewrite <- (Hf3 p Hp). by apply Hf1.
Qed.

(** X8. A pass loses nothing, in either mode and whatever goes wrong on the
    way.  Every node of the file system is there after the pass, with its
    data, at the place that an injective relocation gives it: no file is
    deleted, overwritten or merged with another one, and a directory stays
    where it was. *)
Theorem main_loses_nothing (cfg : config) (app_dir : path)
    (names : list pystr) (s s' : state) (code : N) :
  main re_search cfg app_dir names s = Some (Ret code, s') →
  ∃ f : path → path,
    (∀ p v, node_at (st_fs s) p = Some v → node_at (st_fs s') (f p) = Some v)
    ∧ (∀ p q, is_Some (node_at (st_fs s) p) →
              is_Some (node_at (st_fs s) q) → f p = f q → p = q)
    ∧ (∀ p, node_at (st_fs s) p = Some Dir → f p = p).
Proof.
  intros (s1 & Hrun & ->)%main_loop.
  destruct (for_each_relocates cfg app_dir names _ s1 Hrun)
    as (f & H1 & H2 & H3).
  by exists f.
Qed.

(** ** Only eligible files are touched *)

Lemma visit_ineligible (cfg : config) (d : path) (name : pystr)
    (s s' : state) :
  visit re_search cfg d name s s' →
  eligible (st_fs s) (d ++ [name]) = false → s' = s.
Proof. intros Hv E. destruct Hv; congruence. Qed.

Lemma for_each_frame (cfg : config) (d : path) (names : list pystr) :
  ∀ s s', for_each re_search cfg d names s = Some (Ret tt, s') →
  ∀ p v, node_at (st_fs s) p = Some v →
         (∀ n, n ∈ names → eligible (st_fs s) (d ++ [n]) = true →
               p ≠ resolve d ++ [n]) →
         node_at (st_fs s') p = Some v.
Proof.
  induction names as [|n names IH]; intros s s'; simpl.
  - by intros [= ->].
  - unfold bind.
    destruct (iteration_visit re_search cfg d n s) as (s1 & -> & Hv).
    intros Hrun p v Hp Hne.
    assert (node_at (st_fs s1) p = Some v) as Hp1.
    { destruct (eligible (st_fs s) (d ++ [n])) eqn:El.
      - destruct (eligible_file _ _ _ El) as (Hreg & _).
        eapply visit_frame; [done | done |].
        rewrite resolve_child by done. apply Hne; [by left | done].
      - by rewrite (visit_ineligible _ _ _ _ _ Hv El). }
    eapply IH; [done | done |].
    intros m Hm El ->. eapply (Hne m); [by right | | done].
    rewrite <- El. symmetry. apply eligible_node.
    rewrite <- !node_at_child. congruence.
Qed.

(** X9. A pass places eligible files only.  A node that is not an
    eligible entry of the listing is there after the pass as it was before:
    directories, with all that is below them, the files with another
    extension, what lies outside the directory, and the nodes under the two
    reserved names, which no placement moves, copies or overwrites (the
    records that [log_line] appends are kept apart from the file system). *)
Theorem main_frame (cfg : config) (app_dir : path) (names : list pystr)
    (s s' : state) (code : N) :
  main re_search cfg app_dir names s = Some (Ret code, s') →
  (∀ p v, node_at (st_fs s) p = Some v →
          (∀ n, n ∈ names → eligible (st_fs s) (app_dir ++ [n]) = true →
                p ≠ resolve app_dir ++ [n]) →
          node_at (st_fs s') p = Some v)
  ∧ (∀ n v, node_at (st_fs s) (resolve app_dir ++ [n]) = Some v →
            eligible (st_fs s) (app_dir ++ [n]) = false →
            node_at (st_fs s') (resolve app_dir ++ [n]) = Some v)
  ∧ (∀ n v, n ∈ [CONFIG_FILENAME; LOG_FILENAME] →
            node_at (st_fs s) (resolve app_dir ++ [n]) = Some v →
            node_at (st_fs s') (resolve app_dir ++ [n]) = Some v).
Proof.
  intros (s1 & Hrun & ->)%main_loop.
  pose proof (for_each_frame cfg app_dir names _ s1 Hrun) as Hframe.
  simpl in Hframe.
  assert (∀ n v, node_at (st_fs s) (resolve app_dir ++ [n]) = Some v →
                 eligible (st_fs s) (app_dir ++ [n]) = false →
                 node_at (st_fs s1) (resolve app_dir ++ [n]) = Some v) as H2.
  { intros n v Hp El. apply Hframe; [done|].
    intros m _ Em [_ E]%app_inj_tail. congruence. }
  split_and!; [done | done |].
  intros n v Hn Hp. apply H2; [done|]. unfold eligible.
  rewrite path_name_child, (bool_decide_eq_true_2 _ Hn).
  by rewrite andb_false_r.
Qed.

End PipelineMore.

(** ** The log and the counters *)




Section LogMore.
Variable re_search : regex_engine.





End LogMore.

(** * The configuration file *)

Lemma dict_update_snoc (m : dict) (items : list (pystr * pyval))
    (kv : pystr * pyval) :
  dict_update m (items ++ [kv]) = <[kv.1 := kv.2]> (dict_update m items).
Proof. unfold dict_update. by rewrite foldl_snoc. Qed.

(** An update gives a key its last value in the items, and leaves the
    other keys alone. *)
Lemma dict_update_lookup (m : dict) (items : list (pystr * pyval))
    (k : pystr) :
  dict_update m items !! k
  = match item_get items k with
    | Some v => Some v
    | None => m !! k
    end.
Proof.
  unfold item_get. induction items as [|kv items IH] using rev_ind.
  - simpl. by rewrite lookup_empty.
  - rewrite !dict_update_snoc.
    destruct (decide (kv.1 = k)) as [<-|Hne].
    + by rewrite !lookup_insert_eq.
    + by rewrite !lookup_insert_ne.
Qed.

Lemma item_get_snoc (items : list (pystr * pyval)) (kv : pystr * pyval)
    (k : pystr) :
  item_get (items ++ [kv]) k
  = if bool_decide (kv.1 = k) then Some kv.2 else item_get items k.
Proof.
  unfold item_get. rewrite dict_update_snoc. case_bool_decide as E.
  - subst. apply lookup_insert_eq.
  - by apply lookup_insert_ne.
Qed.

(** The items that [load_config] keeps: those of the known keys. *)
Lemma item_get_known (cfg : dict) (items : list (pystr * pyval))
    (k : pystr) :
  item_get (known_items cfg items) k
  = if bool_decide (is_Some (cfg !! k)) then item_get items k else None.
Proof.
  unfold known_items. induction items as [|kv items IH] using rev_ind.
  - simpl. unfold item_get. simpl. rewrite lookup_empty. by case_bool_decide.
  - rewrite filter_app, filter_cons, filter_nil.
    destruct (decide (is_Some (cfg !! kv.1))) as [Hk|Hk].
    + rewrite !item_get_snoc, IH.
      repeat case_bool_decide; subst; done.
    + rewrite app_nil_r, IH, item_get_snoc.
      repeat case_bool_decide; subst; done.
Qed.

(** The dict after the merge: a known key has the value of the user, or
    else its default; there is no other key. *)
Lemma merged_lookup (items : list (pystr * pyval)) (k : pystr) :
  dict_update DEFAULT_CONFIG_dict (known_items DEFAULT_CONFIG_dict items) !! k
  = match DEFAULT_CONFIG_dict !! k with
    | Some d => Some (default d (item_get items k))
    | None => None
    end.
Proof.
  rewrite dict_update_lookup, item_get_known.
  destruct (DEFAULT_CONFIG_dict !! k) as [d|] eqn:E.
  - rewrite bool_decide_eq_true_2 by done. by destruct (item_get items k).
  - rewrite bool_decide_eq_false_2; [done|]. by intros [? ?].
Qed.

(** The defaults, key by key. *)
Lemma DEFAULT_CONFIG_lookup :
  DEFAULT_CONFIG_dict !! lit "delimiter" = Some (VStr (lit "_"))
  ∧ DEFAULT_CONFIG_dict !! lit "use_regex" = Some (VBool false)
  ∧ DEFAULT_CONFIG_dict !! lit "regex_pattern"
    = Some (VStr (lit "^(.+?)[ _-]"))
  ∧ DEFAULT_CONFIG_dict !! lit "mode" = Some (VStr (lit "move"))
  ∧ DEFAULT_CONFIG_dict !! lit "skip_if_no_prefix" = Some (VBool false).
Proof. split_and!; by vm_compute. Qed.

Lemma reads_config_of (cfg : dict) (c : config) :
  reads cfg c → config_of cfg = Some c.
Proof.
  unfold reads, config_of. intros (-> & -> & -> & -> & ->). by destruct c.
Qed.

Ltac key_ne := let E := fresh in intros E%lit_inj; discriminate E.
Ltac lookups :=
  repeat first [rewrite lookup_insert_eq
               | rewrite lookup_insert_ne by key_ne].

Section ConfigMore.
Variable loads : list N → res pyval.
Variable encode : pystr → res (list N).
Variable str_other : pyval → pystr.

(** The [try] of [load_config] leaves the defaults, updated with the known
    items of the user. *)
Lemma load_config_merge (app_dir : path) (fs : fsmap) :
  (if path_exists fs (joinpath app_dir CONFIG_FILENAME) then
     try_except
       (merge_user loads DEFAULT_CONFIG_dict
          (joinpath app_dir CONFIG_FILENAME) fs)
       (λ _, Ret DEFAULT_CONFIG_dict)
   else Ret DEFAULT_CONFIG_dict)
  = Ret (dict_update DEFAULT_CONFIG_dict
           (known_items DEFAULT_CONFIG_dict (user_items loads app_dir fs))).
Proof.
  unfold path_exists, merge_user, read_bytes, user_items.
  destruct (node_at fs (resolve (joinpath app_dir CONFIG_FILENAME)))
    as [[data|]|]; try done.
  simpl. by destruct (loads data) as [[]|].
Qed.

Lemma load_config_spec (app_dir : path) (fs : fsmap) :
  ∃ cfg,
    load_config loads str_other app_dir fs = Ret cfg
    ∧ reads cfg (normalised str_other (user_items loads app_dir fs))
    ∧ ∀ k, is_Some (cfg !! k) ↔ is_Some (DEFAULT_CONFIG_dict !! k).
Proof.
  unfold load_config. cbv zeta. rewrite load_config_merge.
  set (items := user_items loads app_dir fs).
  destruct DEFAULT_CONFIG_lookup as (Dd & Du & Dp & Dm & Ds).
  pose proof (merged_lookup items (lit "mode")) as Hmode.
  pose proof (merged_lookup items (lit "delimiter")) as Hdelim.
  pose proof (merged_lookup items (lit "use_regex")) as Hregex.
  pose proof (merged_lookup items (lit "regex_pattern")) as Hpat.
  pose proof (merged_lookup items (lit "skip_if_no_prefix")) as Hskip.
  rewrite Dm in Hmode. rewrite Dd in Hdelim. rewrite Du in Hregex.
  rewrite Dp in Hpat. rewrite Ds in Hskip.
  assert (∀ k, is_Some (dict_update DEFAULT_CONFIG_dict
                          (known_items DEFAULT_CONFIG_dict items) !! k)
               ↔ is_Some (DEFAULT_CONFIG_dict !! k)) as Hall_keys.
  { intros k. rewrite merged_lookup.
    destruct (DEFAULT_CONFIG_dict !! k); [|done].
    split; intros _; by eexists. }
  set (cfg0 := dict_update DEFAULT_CONFIG_dict
                 (known_items DEFAULT_CONFIG_dict items)) in *.
  cbn [res_bind]. unfold dict_getitem. rewrite lookup_insert_eq, Dp.
  cbn [res_bind]. eexists. split; [reflexivity|].
  unfold dict_get, str_in. rewrite Hmode. cbn [from_option id].
  set (m := lower (py_str str_other
                     (default (VStr (lit "move"))
                        (item_get items (lit "mode"))))).
  split.
  - unfold reads, normalised. cbv zeta. fold items. fold m.
    cbn [delimiter use_regex regex_pattern mode skip_if_no_prefix].
    destruct (bool_decide (m ∈ [lit "move"; lit "copy"])) eqn:Em;
      cbn [negb]; lookups;
      rewrite ?Hdelim, ?Hregex, ?Hpat, ?Hskip; by split_and!.
  - intros k.
    destruct (decide (k = lit "mode")) as [->|N1];
      [split; intros _; [by rewrite Dm |]|].
    2: destruct (decide (k = lit "delimiter")) as [->|N2];
      [split; intros _; [by rewrite Dd |]|].
    3: destruct (decide (k = lit "use_regex")) as [->|N3];
      [split; intros _; [by rewrite Du |]|].
    4: destruct (decide (k = lit "regex_pattern")) as [->|N4];
      [split; intros _; [by rewrite Dp |]|].
    5: destruct (decide (k = lit "skip_if_no_prefix")) as [->|N5];
      [split; intros _; [by rewrite Ds |]|].
    all: destruct (bool_decide (m ∈ [lit "move"; lit "copy"])); cbn [negb].
    all: try (lookups; rewrite ?Hdelim, ?Hregex, ?Hpat, ?Hskip, ?Hmode;
              by eexists).
    all: rewrite <- (Hall_keys k); by rewrite !lookup_insert_ne by done.
Qed.

(** X12. [load_config] never raises, whatever the configuration file
    holds, and what it returns is normal: it has the five keys of the
    defaults and no other, the delimiter, the pattern and the mode are
    strings, the two switches are Booleans, and the mode is [move] or
    [copy]. *)
Theorem load_config_normal (app_dir : path) (fs : fsmap) :
  ∃ cfg c,
    load_config loads str_other app_dir fs = Ret cfg
    ∧ config_of cfg = Some c
    ∧ (mode c = lit "move" ∨ mode c = lit "copy")
    ∧ ∀ k, is_Some (cfg !! k)
           ↔ k ∈ [lit "delimiter"; lit "use_regex"; lit "regex_pattern";
                  lit "mode"; lit "skip_if_no_prefix"].
Proof.
  destruct (load_config_spec app_dir fs) as (cfg & Hload & Hcfg & Hkeys).
  exists cfg, (normalised str_other (user_items loads app_dir fs)).
  split_and!; [done | by apply reads_config_of | |].
  - unfold normalised. cbn [mode]. case_bool_decide as Hm; [|by left].
    apply elem_of_cons in Hm as [Hm|Hm]; [by left|].
    apply list_elem_of_singleton in Hm. by right.
  - intros k. rewrite Hkeys.
    destruct DEFAULT_CONFIG_lookup as (Dd & Du & Dp & Dm & Ds).
    split.
    + intros [v Hv].
      destruct (decide (k ∈ DEFAULT_CONFIG_items.*1)) as [Hin|Hnin];
        [exact Hin|].
      apply (not_elem_of_list_to_map_1 (M := gmap pystr)) in Hnin.
      unfold DEFAULT_CONFIG_dict in Hv. congruence.
    + rewrite !elem_of_cons, elem_of_nil.
      intros [->|[->|[->|[->|[->|[]]]]]]; by eexists.
Qed.

(** A dict of the user without a known key leaves the defaults. *)
Lemma normalised_defaults (items : list (pystr * pyval)) :
  (∀ k, is_Some (DEFAULT_CONFIG_dict !! k) → item_get items k = None) →
  normalised str_other items = DEFAULT_CONFIG.
Proof.
  intros H. destruct DEFAULT_CONFIG_lookup as (Dd & Du & Dp & Dm & Ds).
  unfold normalised. cbv zeta.
  rewrite (H (lit "mode")), (H (lit "delimiter")), (H (lit "use_regex")),
    (H (lit "regex_pattern")), (H (lit "skip_if_no_prefix"))
    by (by eexists).
  by vm_compute.
Qed.

Lemma load_config_defaults (app_dir : path) (fs : fsmap) :
  (∀ k, is_Some (DEFAULT_CONFIG_dict !! k) →
        item_get (user_items loads app_dir fs) k = None) →
  load_config loads str_other app_dir fs = Ret DEFAULT_CONFIG_dict.
Proof.
  intros Hnone.
  destruct (load_config_spec app_dir fs) as (cfg & -> & Hcfg & Hkeys).
  destruct DEFAULT_CONFIG_lookup as (Dd & Du & Dp & Dm & Ds).
  f_equal. apply map_eq. intros k.
  rewrite (normalised_defaults _ Hnone) in Hcfg.
  unfold reads, DEFAULT_CONFIG in Hcfg.
  cbn [delimiter use_regex regex_pattern mode skip_if_no_prefix] in Hcfg.
  destruct Hcfg as (Hd & Hu & Hp & Hm & Hs).
  destruct (DEFAULT_CONFIG_dict !! k) as [d|] eqn:E.
  - assert (k ∈ DEFAULT_CONFIG_items.*1) as Hin.
    { destruct (decide (k ∈ DEFAULT_CONFIG_items.*1)) as [Hin|Hnin];
        [exact Hin|].
      apply (not_elem_of_list_to_map_1 (M := gmap pystr)) in Hnin.
      unfold DEFAULT_CONFIG_dict in E. congruence. }
    rewrite <- E. revert Hin. simpl. rewrite !elem_of_cons, elem_of_nil.
    intros [->|[->|[->|[->|[->|[]]]]]]; congruence.
  - apply eq_None_not_Some. rewrite Hkeys, E. by intros [? ?].
Qed.

Lemma item_get_None (items : list (pystr * pyval)) (k : pystr) :
  (∀ v, (k, v) ∉ items) → item_get items k = None.
Proof.
  induction items as [|kv items IH] using rev_ind; intros H.
  - unfold item_get. simpl. apply lookup_empty.
  - rewrite item_get_snoc. case_bool_decide as E.
    + destruct kv as [k' v]. simpl in E. subst. destruct (H v).
      apply elem_of_app. right. by left.
    + apply IH. intros v Hv. apply (H v), elem_of_app. by left.
Qed.

(** X13. A configuration file that cannot be used never stops the program:
    without a file under the name, with a directory under the name, with
    bytes that the decoder or the parser rejects, with a JSON value that is
    not an object, or with an object that has none of the known keys,
    [load_config] returns the defaults. *)
Theorem load_config_falls_back (app_dir : path) (fs : fsmap) :
  path_exists fs (joinpath app_dir CONFIG_FILENAME) = false
  ∨ is_dir fs (joinpath app_dir CONFIG_FILENAME) = true
  ∨ (∃ data,
       node_at fs (resolve (joinpath app_dir CONFIG_FILENAME))
       = Some (File data)
       ∧ ((∃ e, loads data = Raise e)
          ∨ (∃ v, loads data = Ret v ∧ ∀ items, v ≠ VDict items)
          ∨ (∃ items, loads data = Ret (VDict items)
                      ∧ ∀ k v, (k, v) ∈ items →
                               DEFAULT_CONFIG_dict !! k = None))) →
  load_config loads str_other app_dir fs = Ret DEFAULT_CONFIG_dict
  ∧ config_of DEFAULT_CONFIG_dict = Some DEFAULT_CONFIG.
Proof.
  intros H. split; [|by vm_compute].
  apply load_config_defaults. intros k Hk. unfold user_items.
  unfold path_exists, is_dir in H.
  destruct (node_at fs (resolve (joinpath app_dir CONFIG_FILENAME)))
    as [[data|]|] eqn:E.
  - destruct H as [H|[H|(data' & [= <-] & H)]]; [done | done |].
    destruct H as [(e & ->) | [(v & -> & Hv) | (items & -> & Hitems)]].
    + apply item_get_None. intros v. apply not_elem_of_nil.
    + destruct v; try by (apply item_get_None; intros ?; apply not_elem_of_nil).
      by destruct (Hv items).
    + apply item_get_None. intros v Hv. apply Hitems in Hv.
      rewrite Hv in Hk. by destruct Hk.
  - apply item_get_None. intros v. apply not_elem_of_nil.
  - apply item_get_None. intros v. apply not_elem_of_nil.
Qed.

(** X14. What [load_config] makes of the object in the file.  Each known
    key has the value that the object gives it, or else its default: the
    delimiter and the pattern are that value as a string, whatever its
    type, the two switches are its truth, so that a string that is not
    empty switches on, and the mode is that value as a string in lower
    case when this is [move] or [copy], and [move] otherwise.  The keys
    that the defaults do not have are dropped. *)
Theorem load_config_values (app_dir : path) (fs : fsmap) (data : list N)
    (items : list (pystr * pyval)) :
  node_at fs (resolve (joinpath app_dir CONFIG_FILENAME))
  = Some (File data) →
  loads data = Ret (VDict items) →
  ∃ cfg,
    load_config loads str_other app_dir fs = Ret cfg
    ∧ config_of cfg = Some (normalised str_other items)
    ∧ (∀ k, DEFAULT_CONFIG_dict !! k = None → cfg !! k = None)
    ∧ (∀ s, item_get items (lit "mode") = Some (VStr s) →
            (lower s = lit "copy" →
             mode (normalised str_other items) = lit "copy")
            ∧ (lower s ≠ lit "copy" →
               mode (normalised str_other items) = lit "move"))
    ∧ (∀ s, item_get items (lit "use_regex") = Some (VStr s) → s ≠ [] →
            use_regex (normalised str_other items) = true).
Proof.
  intros Hfile Hloads.
  destruct (load_config_spec app_dir fs) as (cfg & Hload & Hcfg & Hkeys).
  unfold user_items in Hcfg. rewrite Hfile, Hloads in Hcfg.
  exists cfg. split_and!; [done | by apply reads_config_of | | |].
  - intros k Hk. apply eq_None_not_Some. rewrite Hkeys, Hk. by intros [? ?].
  - intros s Hs. unfold normalised. cbn [mode]. rewrite Hs.
    cbn [from_option id py_str]. split.
    + intros ->. by rewrite bool_decide_eq_true_2 by (right; left).
    + intros Hne. case_bool_decide as Hm; [|done].
      apply elem_of_cons in Hm as [Hm|Hm]; [done|].
      by apply list_elem_of_singleton in Hm.
  - intros s Hs Hne. unfold normalised. cbn [use_regex]. rewrite Hs.
    cbn [from_option id py_bool]. by rewrite bool_decide_eq_false_2.
Qed.

End ConfigMore.

(** ** The template and the first steps of [main] *)

Lemma config_path (app_dir : path) :
  resolve (joinpath app_dir CONFIG_FILENAME)
  = resolve app_dir ++ [CONFIG_FILENAME].
Proof. apply resolve_joinpath. by split_and!. Qed.

(** A write changes the node it writes, and only when it succeeds. *)
Lemma write_file_spec (q : path) (d : list N) (fs : fsmap) :
  (∃ e, write_file q d fs = Some (Raise e, fs))
  ∨ (write_file q d fs = Some (Ret tt, <[q := File d]> fs) ∧ q ≠ []).
Proof.
  unfold write_file.
  destruct (node_at fs q) as [[?|]|] eqn:E.
  - right. split; [done|]. by intros ->.
  - left. by eexists.
  - apply node_at_None in E as [Hne E].
    destruct (node_at fs (removelast q)) as [[?|]|];
      [left; by eexists | by right | left; by eexists].
Qed.

Section StartupMore.
Variable loads : list N → res pyval.
Variable encode : pystr → res (list N).
Variable str_other : pyval → pystr.

(** The template in a directory that has no configuration file. *)
Lemma write_text_new (p : path) (text : pystr) (data : list N)
    (fs : fsmap) :
  node_at fs (resolve p) = None →
  node_at fs (removelast (resolve p)) = Some Dir →
  encode text = Ret data →
  write_text encode p text fs = Some (Ret tt, <[resolve p := File data]> fs).
Proof.
  intros Hnone Hdir Henc. unfold write_text, bind, lift_res, write_file.
  rewrite Hnone, Hdir, Henc.
  apply node_at_None in Hnone as [Hne _].
  rewrite node_at_insert_eq by done. by rewrite insert_insert_eq.
Qed.

(** What [write_text] leaves of the file system: the other nodes, and
    when it returns, a file. *)
Lemma write_text_frame (p : path) (text : pystr) (fs : fsmap) :
  ∃ r fs',
    write_text encode p text fs = Some (r, fs')
    ∧ (∀ q, q ≠ resolve p → node_at fs' q = node_at fs q)
    ∧ (r = Ret tt → path_exists fs' p = true).
Proof.
  unfold write_text, bind, lift_res.
  destruct (write_file_spec (resolve p) [] fs) as [(e & ->) | (-> & Hne)].
  { by eexists _, _. }
  destruct (encode text) as [data|e].
  2:{ eexists _, _. split_and!; [done | | done].
      intros q Hq. by apply node_at_insert_ne. }
  destruct (write_file_spec (resolve p) data (<[resolve p := File []]> fs))
    as [(e & ->) | (-> & _)].
  - eexists _, _. split_and!; [done | | done].
    intros q Hq. by apply node_at_insert_ne.
  - eexists _, _. split_and!; [done | |].
    + intros q Hq. by rewrite !node_at_insert_ne.
    + intros _. unfold path_exists. by rewrite node_at_insert_eq.
Qed.

(** The template is written where nothing is, and only there. *)
Lemma write_default_config_spec (app_dir : path) (fs : fsmap) :
  ∃ r fs',
    write_default_config_if_missing encode app_dir fs = Some (r, fs')
    ∧ (∀ p v, node_at fs p = Some v → node_at fs' p = Some v)
    ∧ (∀ p, p ≠ resolve app_dir ++ [CONFIG_FILENAME] →
            node_at fs' p = node_at fs p)
    ∧ (r = Ret tt → path_exists fs' (joinpath app_dir CONFIG_FILENAME) = true).
Proof.
  unfold write_default_config_if_missing, bind, gets.
  destruct (path_exists fs (joinpath app_dir CONFIG_FILENAME)) eqn:Hex;
    cbn [negb].
  { exists (Ret tt), fs. by split_and!. }
  assert (node_at fs (resolve (joinpath app_dir CONFIG_FILENAME)) = None)
    as Hnone.
  { unfold path_exists in Hex.
    by destruct (node_at fs (resolve (joinpath app_dir CONFIG_FILENAME))). }
  destruct (write_text_frame (joinpath app_dir CONFIG_FILENAME)
              DEFAULT_CONFIG_text fs) as (r & fs' & Hw & Hframe & Hthere).
  rewrite config_path in Hframe.
  exists r, fs'. split_and!; [done | | done | done].
  intros p v Hp. rewrite Hframe; [done|]. intros ->.
  rewrite config_path in Hnone. congruence.
Qed.

(** X15. [write_default_config_if_missing] never touches what is there.
    With a node of any kind under the name of the configuration file it does
    nothing; without one it changes that path and no other, so that every
    node of the file system is there afterwards as it was; and in a
    directory it writes the template, as the bytes that the encoder makes of
    it. *)
Theorem write_default_config_keeps (app_dir : path) (fs : fsmap) :
  ∃ r fs',
    write_default_config_if_missing encode app_dir fs = Some (r, fs')
    ∧ (∀ p v, node_at fs p = Some v → node_at fs' p = Some v)
    ∧ (∀ p, p ≠ resolve app_dir ++ [CONFIG_FILENAME] →
            node_at fs' p = node_at fs p)
    ∧ (path_exists fs (joinpath app_dir CONFIG_FILENAME) = true →
       r = Ret tt ∧ fs' = fs)
    ∧ (∀ data,
         path_exists fs (joinpath app_dir CONFIG_FILENAME) = false →
         is_dir fs app_dir = true →
         encode DEFAULT_CONFIG_text = Ret data →
         r = Ret tt
         ∧ fs' = <[resolve app_dir ++ [CONFIG_FILENAME] := File data]> fs).
Proof.
  destruct (write_default_config_spec app_dir fs)
    as (r & fs' & Hw & Hkeep & Hframe & _).
  exists r, fs'. split_and!; [done | done | done | |].
  - intros Hex. revert Hw.
    unfold write_default_config_if_missing, bind, gets, ret.
    rewrite Hex. cbn [negb]. by intros [= <- <-].
  - intros data Hex Hdir Henc. revert Hw.
    unfold write_default_config_if_missing, bind, gets.
    rewrite Hex. cbn [negb].
    unfold is_dir in Hdir. unfold path_exists in Hex.
    destruct (node_at fs (resolve app_dir)) as [[?|]|] eqn:Ed; try done.
    destruct (node_at fs (resolve (joinpath app_dir CONFIG_FILENAME)))
      eqn:Ec; [done|].
    rewrite (write_text_new _ _ data); try done.
    + rewrite config_path. by intros [= <- <-].
    + by rewrite config_path, removelast_last.
Qed.

(** The first steps of [main] in a directory without a configuration
    file. *)
Lemma startup_new (app_dir : path) (fs : fsmap) (data : list N) :
  is_dir fs app_dir = true →
  path_exists fs (joinpath app_dir CONFIG_FILENAME) = false →
  encode DEFAULT_CONFIG_text = Ret data →
  startup loads encode str_other app_dir fs
  = Some (load_config loads str_other app_dir
            (<[resolve app_dir ++ [CONFIG_FILENAME] := File data]> fs),
          <[resolve app_dir ++ [CONFIG_FILENAME] := File data]> fs).
Proof.
  intros Hdir Hex Henc.
  unfold startup, write_default_config_if_missing, bind, gets, lift_res.
  rewrite Hex. cbn [negb].
  unfold is_dir in Hdir. unfold path_exists in Hex.
  destruct (node_at fs (resolve app_dir)) as [[?|]|] eqn:Ed; try done.
  destruct (node_at fs (resolve (joinpath app_dir CONFIG_FILENAME)))
    eqn:Ec; [done|].
  rewrite (write_text_new _ _ data); try done.
  - by rewrite config_path.
  - by rewrite config_path, removelast_last.
Qed.

(** With a configuration file the first steps only read. *)
Lemma startup_there (app_dir : path) (fs : fsmap) :
  path_exists fs (joinpath app_dir CONFIG_FILENAME) = true →
  startup loads encode str_other app_dir fs
  = Some (load_config loads str_other app_dir fs, fs).
Proof.
  intros Hex.
  unfold startup, write_default_config_if_missing, bind, gets, lift_res,
    ret.
  rewrite Hex. by cbn [negb].
Qed.

Lemma config_path_exists (app_dir : path) (fs : fsmap) (data : list N) :
  path_exists (<[resolve app_dir ++ [CONFIG_FILENAME] := File data]> fs)
    (joinpath app_dir CONFIG_FILENAME) = true.
Proof.
  unfold path_exists. rewrite config_path, node_at_insert_eq; [done|].
  by destruct (resolve app_dir).
Qed.

(** X16. The first run.  In a directory without a configuration file,
    when the parser reads the template as the object of the defaults, the
    first steps of [main] write the template under the name of the
    configuration file, change nothing else, and go on with the defaults:
    separator [_], no pattern matching, mode [move], nothing skipped. *)
Theorem startup_first_run (app_dir : path) (fs : fsmap) (data : list N) :
  is_dir fs app_dir = true →
  path_exists fs (joinpath app_dir CONFIG_FILENAME) = false →
  encode DEFAULT_CONFIG_text = Ret data →
  loads data = Ret (VDict DEFAULT_CONFIG_items) →
  ∃ fs1,
    startup loads encode str_other app_dir fs
    = Some (Ret DEFAULT_CONFIG_dict, fs1)
    ∧ config_of DEFAULT_CONFIG_dict = Some DEFAULT_CONFIG
    ∧ node_at fs1 (resolve app_dir ++ [CONFIG_FILENAME]) = Some (File data)
    ∧ (∀ p, p ≠ resolve app_dir ++ [CONFIG_FILENAME] →
            node_at fs1 p = node_at fs p).
Proof.
  intros Hdir Hex Henc Hloads.
  exists (<[resolve app_dir ++ [CONFIG_FILENAME] := File data]> fs).
  assert (resolve app_dir ++ [CONFIG_FILENAME] ≠ []) as Hne
    by (by destruct (resolve app_dir)).
  split_and!.
  - rewrite (startup_new _ _ data) by done. f_equal. f_equal.
    destruct (load_config_spec loads str_other app_dir
                (<[resolve app_dir ++ [CONFIG_FILENAME] := File data]> fs))
      as (cfg & -> & Hcfg & Hkeys).
    f_equal. unfold user_items in Hcfg.
    rewrite config_path, node_at_insert_eq, Hloads in Hcfg by done.
    apply map_eq. intros k.
    destruct DEFAULT_CONFIG_lookup as (Dd & Du & Dp & Dm & Ds).
    replace (normalised str_other DEFAULT_CONFIG_items)
      with DEFAULT_CONFIG in Hcfg by (by vm_compute).
    unfold reads, DEFAULT_CONFIG in Hcfg.
    cbn [delimiter use_regex regex_pattern mode skip_if_no_prefix] in Hcfg.
    destruct Hcfg as (Hd & Hu & Hp & Hm & Hs).
    destruct (DEFAULT_CONFIG_dict !! k) as [d|] eqn:E.
    + assert (k ∈ DEFAULT_CONFIG_items.*1) as Hin.
      { destruct (decide (k ∈ DEFAULT_CONFIG_items.*1)) as [Hin|Hnin];
          [exact Hin|].
        apply (not_elem_of_list_to_map_1 (M := gmap pystr)) in Hnin.
        unfold DEFAULT_CONFIG_dict in E. congruence. }
      rewrite <- E. revert Hin. simpl. rewrite !elem_of_cons, elem_of_nil.
      intros [->|[->|[->|[->|[->|[]]]]]]; congruence.
    + apply eq_None_not_Some. rewrite Hkeys, E. by intros [? ?].
  - by vm_compute.
  - by apply node_at_insert_eq.
  - intros p Hp. by apply node_at_insert_ne.
Qed.

(** X17. The first steps of [main] are idempotent: once they have gone
    through, going through them again changes nothing in the file system
    and gives the same configuration.  A template that was written is not
    written again, and it is the file that the configuration is read
    from. *)
Theorem startup_idempotent (app_dir : path) (fs fs1 : fsmap) (cfg : dict) :
  startup loads encode str_other app_dir fs = Some (Ret cfg, fs1) →
  startup loads encode str_other app_dir fs1 = Some (Ret cfg, fs1)
  ∧ path_exists fs1 (joinpath app_dir CONFIG_FILENAME) = true
  ∧ load_config loads str_other app_dir fs1 = Ret cfg
  ∧ ∀ p v, node_at fs p = Some v → node_at fs1 p = Some v.
Proof.
  intros Hrun.
  destruct (path_exists fs (joinpath app_dir CONFIG_FILENAME)) eqn:Hex.
  - rewrite startup_there in Hrun by done. injection Hrun as Hl <-.
    rewrite startup_there, Hl by done. by split_and!.
  - destruct (write_default_config_spec app_dir fs)
      as (r & fs' & Hw & Hkeep & _ & Hnew).
    unfold startup, bind, gets, lift_res in Hrun. rewrite Hw in Hrun.
    destruct r as [[]|e]; [|done]. cbn [id] in Hrun.
    destruct (load_config loads str_other app_dir fs') as [cfg'|e] eqn:Hl;
      simplify_eq.
    assert (path_exists fs1 (joinpath app_dir CONFIG_FILENAME) = true)
      as Hex1 by (by apply Hnew).
    rewrite startup_there, Hl by done. by split_and!.
Qed.

End StartupMore.

(** * The log on disk *)

Lemma log_path (app_dir : path) :
  resolve (joinpath app_dir LOG_FILENAME)
  = resolve app_dir ++ [LOG_FILENAME].
Proof. apply resolve_joinpath. by split_and!. Qed.

Section DiskLog.
Variable encode : pystr → res (list N).

(** A line that the encoder takes is appended to the bytes of the log. *)
Lemma log_line_appends (app_dir : path) (ts msg : pystr) (data : list N)
    (fs : fsmap) :
  is_dir fs app_dir = true →
  is_dir fs (joinpath app_dir LOG_FILENAME) = false →
  encode (Disk.line ts msg) = Ret data →
  Disk.log_line encode app_dir ts msg fs
  = Some (Ret tt,
          <[resolve app_dir ++ [LOG_FILENAME]
            := File (log_bytes fs app_dir ++ data)]> fs).
Proof.
  unfold is_dir, Disk.log_line, log_bytes. intros Hdir Hlog Henc.
  rewrite log_path in *. rewrite removelast_last, Henc.
  destruct (node_at fs (resolve app_dir)) as [[?|]|]; try done.
  by destruct (node_at fs (resolve app_dir ++ [LOG_FILENAME])) as [[?|]|].
Qed.

(** X19. The log file only grows.  In a directory, with no directory under
    the name of the log file, calls of [log_line] whose lines the encoder
    takes all return, and leave a log file that holds the bytes it had
    before, then the lines of the records, in the order of the calls; no
    other node of the file system changes.  The list of records that the
    pipeline keeps is the log file, line by line. *)
Theorem log_lines_accumulate (app_dir : path)
    (records : list (pystr * pystr)) (datas : list (list N)) :
  ∀ fs,
    is_dir fs app_dir = true →
    is_dir fs (joinpath app_dir LOG_FILENAME) = false →
    Forall2 (λ r data, encode (Disk.line r.1 r.2) = Ret data) records datas →
    ∃ fs',
      Disk.log_lines encode app_dir records fs = Some (Ret tt, fs')
      ∧ log_bytes fs' app_dir = log_bytes fs app_dir ++ concat datas
      ∧ (∀ p, p ≠ resolve app_dir ++ [LOG_FILENAME] →
              node_at fs' p = node_at fs p)
      ∧ (records ≠ [] → is_file fs' (joinpath app_dir LOG_FILENAME) = true).
Proof.
  intros fs Hdir Hlog Hall. revert fs Hdir Hlog.
  induction Hall as [|r data records datas Henc Hall IH]; intros fs Hdir Hlog.
  - exists fs. simpl. rewrite app_nil_r. by split_and!.
  - assert (resolve app_dir ++ [LOG_FILENAME] ≠ []) as Hne
      by (by destruct (resolve app_dir)).
    assert (resolve app_dir ≠ resolve app_dir ++ [LOG_FILENAME]) as Hd.
    { intros E. apply (f_equal length) in E. rewrite length_app in E.
      simpl in E. lia. }
    cbn [Disk.log_lines]. unfold bind.
    rewrite (log_line_appends _ _ _ data) by done.
    set (fs1 := <[resolve app_dir ++ [LOG_FILENAME]
                  := File (log_bytes fs app_dir ++ data)]> fs).
    assert (log_bytes fs1 app_dir = log_bytes fs app_dir ++ data) as Hb1.
    { unfold log_bytes at 1, fs1.
      by rewrite log_path, node_at_insert_eq. }
    assert (is_file fs1 (joinpath app_dir LOG_FILENAME) = true) as Hf1.
    { unfold is_file, fs1. by rewrite log_path, node_at_insert_eq. }
    destruct (IH fs1) as (fs' & Hrun & Hbytes & Hframe & Hfile).
    { unfold is_dir, fs1 in *. by rewrite node_at_insert_ne. }
    { unfold is_dir, is_file in *.
      by destruct (node_at fs1 (resolve (joinpath app_dir LOG_FILENAME)))
        as [[?|]|]. }
    exists fs'. split_and!; [done | | |].
    + rewrite Hbytes, Hb1. simpl. by rewrite <- app_assoc.
    + intros p Hp. rewrite Hframe by done. unfold fs1.
      by rewrite node_at_insert_ne.
    + intros _. destruct records as [|r' records]; [|by apply Hfile].
      simpl in Hrun. unfold ret in Hrun. by simplify_eq.
Qed.

End DiskLog.

Lemma log_lines_accumulate_witness :
  ∃ fs',
    Disk.log_lines sample_encode [lit "a"]
      [(lit "2024-01-01 10:00:00", lit "START");
       (lit "2024-01-01 10:00:01", lit "END")] sample_sources
    = Some (Ret tt, fs')
    ∧ log_bytes fs' [lit "a"]
      = lit "[2024-01-01 10:00:00] START" ++ [10%N]
        ++ lit "[2024-01-01 10:00:01] END" ++ [10%N].
Proof.
  destruct (log_lines_accumulate sample_encode [lit "a"]
              [(lit "2024-01-01 10:00:00", lit "START");
               (lit "2024-01-01 10:00:01", lit "END")]
              [Disk.line (lit "2024-01-01 10:00:00") (lit "START");
               Disk.line (lit "2024-01-01 10:00:01") (lit "END")]
              sample_sources)
    as (fs' & Hrun & Hbytes & _);
    [vm_compute; reflexivity | vm_compute; reflexivity
     | by repeat constructor |].
  exists fs'. split; [exact Hrun|]. rewrite Hbytes.
  vm_compute; reflexivity.
Defined.

(** ** The third guard *)

(** X18. The guard on the two reserved names never decides: neither name
    has the extension of a spreadsheet, so the extension guard has turned
    both away before.  An entry is eligible exactly when it is a regular
    file with one of the three extensions. *)
Theorem reserved_guard_redundant (fs : fsmap) (file : path) :
  eligible fs file
  = is_file fs file && bool_decide (lower (path_suffix file) ∈ EXCEL_EXTS).
Proof.
  unfold eligible.
  destruct (bool_decide (path_name file ∈ [CONFIG_FILENAME; LOG_FILENAME]))
    eqn:E; cbn [negb]; [|by rewrite andb_true_r].
  apply bool_decide_eq_true in E. rewrite andb_false_r.
  unfold path_suffix.
  apply elem_of_cons in E as [->|E];
    [|apply list_elem_of_singleton in E as ->].
  all: rewrite (bool_decide_eq_false_2 _); [by rewrite andb_false_r|].
  all: apply (bool_decide_unpack _); by vm_compute.
Qed.

(** * The further properties at the sample data *)

Lemma extract_prefix_never_raises_witness :
  extract_prefix sample_engine (lit " a_b .xlsx") sample_no_delimiter
  = Ret (Some (lit "a_b"))
  ∧ extract_prefix sample_engine (lit ".") sample_no_delimiter = Ret None.
Proof.
  destruct (extract_prefix_never_raises sample_engine (lit " a_b .xlsx")
              sample_no_delimiter) as (_ & H1).
  destruct (extract_prefix_never_raises sample_engine (lit ".")
              sample_no_delimiter) as (_ & H2).
  destruct (H1 eq_refl eq_refl) as (_ & ->).
  destruct (H2 eq_refl eq_refl) as (_ & ->). by vm_compute.
Defined.

Lemma while_exists_terminates_witness :
  ∃ dst,
    path_exists sample_sources dst = false
    ∧ while_exists sample_sources [lit "a"; lit "x.xlsx"] [lit "b"] 100 1
        (joinpath [lit "b"] (path_name [lit "a"; lit "x.xlsx"]))
      = Some dst.
Proof.
  destruct (while_exists_terminates sample_sources [lit "a"; lit "x.xlsx"]
              [lit "b"]) as (dst & Hfree & _ & Hfuel).
  exists dst. split; [exact Hfree|]. apply Hfuel. vm_compute. lia.
Defined.

Lemma main_loses_nothing_witness :
  ∃ f : path → path,
    ∀ p v, node_at (st_fs sample_state) p = Some v →
           node_at (st_fs (state_after
                             (main sample_engine DEFAULT_CONFIG sample_dir
                                sample_names sample_state) sample_state))
             (f p) = Some v.
Proof.
  pose proof (main_state_after sample_engine DEFAULT_CONFIG sample_dir
                sample_names sample_state) as M.
  match type of M with
  | _ = Some (Ret ?code, ?s') =>
      destruct (main_loses_nothing sample_engine DEFAULT_CONFIG sample_dir
                  sample_names sample_state s' code M) as (f & Hf & _)
  end.
  exists f. exact Hf.
Defined.

Lemma main_frame_witness :
  node_at (st_fs (state_after
                    (main sample_engine DEFAULT_CONFIG sample_dir
                       sample_names sample_state) sample_state))
    (resolve sample_dir ++ [lit "readme.txt"]) = Some (File [8%N])
  ∧ node_at (st_fs (state_after
                      (main sample_engine DEFAULT_CONFIG sample_dir
                         sample_names sample_state) sample_state))
      (resolve sample_dir ++ [CONFIG_FILENAME]) = Some (File [9%N]).
Proof.
  pose proof (main_state_after sample_engine DEFAULT_CONFIG sample_dir
                sample_names sample_state) as M.
  match type of M with
  | _ = Some (Ret ?code, ?s') =>
      destruct (main_frame sample_engine DEFAULT_CONFIG sample_dir
                  sample_names sample_state s' code M) as (_ & H2 & H3)
  end.
  split.
  - apply H2; vm_compute; reflexivity.
  - apply H3; [by left | vm_compute; reflexivity].
Defined.


Lemma load_config_falls_back_witness :
  load_config sample_loads sample_str_other [lit "a"] sample_sources
  = Ret DEFAULT_CONFIG_dict.
Proof.
  apply (load_config_falls_back sample_loads sample_str_other [lit "a"]
           sample_sources).
  left. vm_compute; reflexivity.
Defined.

Lemma load_config_values_witness :
  ∃ cfg,
    load_config sample_loads sample_str_other sample_dir sample_fs = Ret cfg
    ∧ config_of cfg
      = Some {| delimiter := lit "-5";
                use_regex := true;
                regex_pattern := lit "^(.+?)[ _-]";
                mode := lit "copy";
                skip_if_no_prefix := false |}
    ∧ cfg !! lit "colour" = None.
Proof.
  destruct (load_config_values sample_loads sample_str_other sample_dir
              sample_fs [9%N] sample_user_items)
    as (cfg & Hload & Hcfg & Hkeys & _);
    [vm_compute; reflexivity | vm_compute; reflexivity |].
  exists cfg. split_and!; [exact Hload | | ].
  - rewrite Hcfg. vm_compute; reflexivity.
  - apply Hkeys. vm_compute; reflexivity.
Defined.

Lemma write_default_config_keeps_witness :
  ∃ fs',
    write_default_config_if_missing sample_encode [lit "a"] sample_sources
    = Some (Ret tt, fs')
    ∧ node_at fs' [lit "a"; lit "x.xlsx"] = Some (File [1%N])
    ∧ node_at fs' [lit "a"; lit "config.json"]
      = Some (File DEFAULT_CONFIG_text).
Proof.
  destruct (write_default_config_keeps sample_encode [lit "a"]
              sample_sources) as (r & fs' & Hw & Hkeep & _ & _ & Hnew).
  destruct (Hnew DEFAULT_CONFIG_text) as [-> Hfs];
    [vm_compute; reflexivity | vm_compute; reflexivity | reflexivity |].
  exists fs'. split_and!; [exact Hw | |].
  - apply Hkeep. vm_compute; reflexivity.
  - rewrite Hfs. apply (node_at_insert_eq sample_sources). by vm_compute.
Defined.

Lemma startup_first_run_witness :
  ∃ fs1,
    startup sample_loads sample_encode sample_str_other [lit "a"]
      sample_sources = Some (Ret DEFAULT_CONFIG_dict, fs1)
    ∧ node_at fs1 [lit "a"; lit "config.json"]
      = Some (File DEFAULT_CONFIG_text).
Proof.
  destruct (startup_first_run sample_loads sample_encode sample_str_other
              [lit "a"] sample_sources DEFAULT_CONFIG_text)
    as (fs1 & Hrun & _ & Hfile & _);
    [vm_compute; reflexivity | vm_compute; reflexivity | reflexivity
     | vm_compute; reflexivity |].
  exists fs1. split; [exact Hrun | exact Hfile].
Defined.

Lemma startup_idempotent_witness :
  ∃ cfg,
    startup sample_loads sample_encode sample_str_other sample_dir sample_fs
    = Some (Ret cfg, sample_fs)
    ∧ load_config sample_loads sample_str_other sample_dir sample_fs
      = Ret cfg.
Proof.
  destruct (load_config_spec sample_loads sample_str_other sample_dir
              sample_fs) as (cfg & Hload & _).
  assert (startup sample_loads sample_encode sample_str_other sample_dir
            sample_fs = Some (Ret cfg, sample_fs)) as Hrun.
  { rewrite startup_there by (vm_compute; reflexivity). by rewrite Hload. }
  destruct (startup_idempotent sample_loads sample_encode sample_str_other
              sample_dir sample_fs sample_fs cfg Hrun) as (H1 & _ & H2 & _).
  exists cfg. split; [exact H1 | exact H2].
Defined.
